(** * Fixed-point transformer forward pass (llm-service/forward_reference.py)

    A shallow embedding of the Python reference implementation of the
    integer-only transformer forward pass, and the properties of it that the
    specification states.

    Python integers are unbounded, so they are modelled by [Z]; the floor
    division [//] of Python is [Z.div] whenever the divisor is not zero
    (both round towards minus infinity).  Lists are [list], the two
    dictionaries [config] and [weights] are [gmap string _].  Every
    operation that can raise in Python (a missing key, an index out of
    range, a division by zero, [max] of an empty list) returns a [result]
    carrying the exception that Python would raise.

    The source never assigns into [config], [weights] or a list read from
    them, and every list it appends to is created by the function that
    fills it; the two dictionaries are therefore passed as immutable values
    and every function returns only its result. *)

From Stdlib Require Import ZArith List Lia Bool Ascii.
From stdpp Require Import base option list gmap strings pretty.

Local Open Scope Z_scope.

(** ** Python runtime: exceptions, indexing, ranges *)

Module Py.

Inductive exn : Type :=
| KeyError
| IndexError
| ZeroDivisionError
| ValueError.

Inductive result (A : Type) : Type :=
| Ok (a : A)
| Err (e : exn).

Arguments Ok {A} a.
Arguments Err {A} e.

Definition bind {A B : Type} (m : result A) (k : A -> result B) : result B :=
  match m with
  | Ok a => k a
  | Err e => Err e
  end.

Notation "'let*' x ':=' m 'in' k" := (bind m (fun x => k))
  (at level 10, x name, m at level 100, k at level 200).

(** [for x in l: ... append(f x)] and list comprehensions whose body can raise *)
Fixpoint mapM {A B : Type} (f : A -> result B) (l : list A) : result (list B) :=
  match l with
  | [] => Ok []
  | x :: l' => let* y := f x in let* ys := mapM f l' in Ok (y :: ys)
  end.

(** [for x in l: acc = step acc x] where the step can raise *)
Fixpoint foldM {A S : Type} (step : S -> A -> result S) (acc : S) (l : list A) : result S :=
  match l with
  | [] => Ok acc
  | x :: l' => let* acc' := step acc x in foldM step acc' l'
  end.

(** [len(l)] *)
Definition len {A : Type} (l : list A) : Z := Z.of_nat (length l).

(** [range(lo, hi)] and [range(n)] *)
Definition range2 (lo hi : Z) : list Z :=
  map (fun k => lo + Z.of_nat k) (seq 0 (Z.to_nat (hi - lo))).

Definition range (n : Z) : list Z := range2 0 n.

(** [l[i]]: a negative index counts from the end, anything outside
    [-len(l), len(l)) raises IndexError *)
Definition getitem {A : Type} (l : list A) (i : Z) : result A :=
  let j := if i <? 0 then len l + i else i in
  if j <? 0 then Err IndexError
  else match l !! Z.to_nat j with
       | Some x => Ok x
       | None => Err IndexError
       end.

(** [l[:k]]: a negative bound counts from the end *)
Definition slice_to {A : Type} (l : list A) (k : Z) : list A :=
  if k <? 0 then take (Z.to_nat (len l + k)) l else take (Z.to_nat k) l.

(** [m[t][j]] *)
Definition getitem2 {A : Type} (m : list (list A)) (t j : Z) : result A :=
  let* row := getitem m t in getitem row j.

(** [d[key]] *)
Definition lookup_key {V : Type} (d : gmap string V) (key : string) : result V :=
  match d !! key with
  | Some v => Ok v
  | None => Err KeyError
  end.

(** [a // b] *)
Definition floordiv (a b : Z) : result Z :=
  if b =? 0 then Err ZeroDivisionError else Ok (a / b).

(** [sum(l)] *)
Definition sum (l : list Z) : Z := fold_left Z.add l 0.

(** [max(l)]: keeps the running maximum, ValueError on an empty list *)
Definition max (l : list Z) : result Z :=
  match l with
  | [] => Err ValueError
  | x :: l' => Ok (fold_left (fun m y => if y >? m then y else m) l' x)
  end.

(** [f"{prefix}{layer}"] *)
Definition fkey (prefix : string) (layer : Z) : string := prefix +:+ pretty layer.

End Py.

Import Py.

(** ** Fixed-point math *)

Definition SCALE : Z := 10000.

(** The loop of [fp_exp] over the remaining values of [i]; [term < 1]
    leaves the loop after the term has been added. *)
Fixpoint fp_exp_loop (idx : list Z) (x term result : Z) : Z :=
  match idx with
  | [] => result
  | i :: idx' =>
      let term := (term * x) / (i * SCALE) in
      let result := result + term in
      if term <? 1 then result else fp_exp_loop idx' x term result
  end.

(** The divisors are [i * SCALE] with [i] in [range(1, 16)] and [result]
    behind the test [result == 0], so no division can raise. *)
Definition fp_exp (x : Z) : Z :=
  let x := if x >? 8 * SCALE then 8 * SCALE else x in
  if x <? -8 * SCALE then 0
  else
    let neg := x <? 0 in
    let x := if neg then - x else x in
    let result := fp_exp_loop (range2 1 16) x SCALE SCALE in
    if neg then
      if result =? 0 then 0 else (SCALE * SCALE) / result
    else result.

(** The series of [fp_exp] on a non-negative argument that needs no clamp *)
Definition exp_series (x : Z) : Z := fp_exp_loop (range2 1 16) x SCALE SCALE.

(** The same series with every term of the list added, without the early
    exit: the reference against which the [break] of [fp_exp] is checked. *)
Fixpoint fp_exp_all_terms (idx : list Z) (x term result : Z) : Z :=
  match idx with
  | [] => result
  | i :: idx' =>
      let term := (term * x) / (i * SCALE) in
      fp_exp_all_terms idx' x term (result + term)
  end.

(** The loop of [fp_sqrt]: [n] iterations are left, the loop is left
    early once two successive guesses differ by less than 2. *)
Fixpoint fp_sqrt_loop (n : nat) (x guess : Z) : result Z :=
  match n with
  | O => Ok guess
  | S n' =>
      let prev := guess in
      let* div := floordiv (x * SCALE) guess in
      let guess := (guess + div) / 2 in
      let diff := Z.abs (guess - prev) in
      if diff <? 2 then Ok guess else fp_sqrt_loop n' x guess
  end.

Definition fp_sqrt (x : Z) : result Z :=
  if x <=? 0 then Ok 0
  else
    let guess := x / 2 in
    let guess := if guess <? SCALE then SCALE else guess in
    fp_sqrt_loop 20 x guess.

Definition fp_tanh (x : Z) : Z :=
  if x >? 4 * SCALE then SCALE
  else if x <? -4 * SCALE then - SCALE
  else
    let exp_2x := fp_exp (2 * x) in
    let num := exp_2x - SCALE in
    let denom := exp_2x + SCALE in
    if denom =? 0 then SCALE else (num * SCALE) / denom.

Definition fp_gelu (x : Z) : Z :=
  let sqrt_2_pi := 7979 in
  let coeff := 447 in
  let x_sq := (x * x) / SCALE in
  let x_cu := (x_sq * x) / SCALE in
  let cubic_term := (coeff * x_cu) / SCALE in
  let inner := x + cubic_term in
  let inner := (sqrt_2_pi * inner) / SCALE in
  let tanh_val := fp_tanh inner in
  let half_term := (SCALE + tanh_val) / 2 in
  (x * half_term) / SCALE.

(** First loop of [fp_softmax]: the list [exps] and the running [total]. *)
Definition softmax_exps (arr : list Z) (max_val : Z) : list Z * Z :=
  fold_left
    (fun '(exps, total) x =>
       let shifted := x - max_val in
       let e := fp_exp shifted in
       (exps ++ [e], total + e))
    arr ([], 0).

(** Second loop of [fp_softmax].  [SCALE // len(arr)] is evaluated inside
    the loop over [exps], whose length is [len(arr)], hence only with a
    positive divisor. *)
Definition softmax_normalize (arr exps : list Z) (total : Z) : list Z :=
  map (fun e => if total >? 0 then (e * SCALE) / total else SCALE / len arr) exps.

Definition fp_softmax (arr : list Z) : result (list Z) :=
  let* max_val := Py.max arr in
  let '(exps, total) := softmax_exps arr max_val in
  Ok (softmax_normalize arr exps total).


(** ** Layer normalization *)

Definition layer_norm (inp gamma beta : list Z) : result (list Z) :=
  let n := len inp in
  let eps := 100 in
  let* mean := floordiv (Py.sum inp) n in
  let var_sum := Py.sum (map (fun x => (x - mean) ^ 2 / SCALE) inp) in
  let* variance := floordiv var_sum n in
  let* std := fp_sqrt (variance + eps) in
  let std := if std <? 100 then 100 else std in
  mapM (fun i =>
          let* x := getitem inp i in
          let* normalized := floordiv ((x - mean) * SCALE) std in
          let* g := getitem gamma i in
          let scaled := (normalized * g) / SCALE in
          let* b := getitem beta i in
          Ok (scaled + b))
       (range n).

(** The quantities in which the specification describes layer
    normalization: the floored average, and the floored average of the
    squared deviations, each divided by [SCALE] first. *)
Definition ln_mean (inp : list Z) : Z := Py.sum inp / len inp.

Definition ln_variance (inp : list Z) : Z :=
  Py.sum (map (fun x => (x - ln_mean inp) ^ 2 / SCALE) inp) / len inp.

(** ** Projections

    The accumulation that the source writes four times (QKV projection,
    output projection, both feed-forward layers):
    [s = b[i]; for j in range(in_dim): s += (x[j] * w[j * out_dim + i]) // SCALE],
    where [x] reads the input vector of the current token. *)
Definition dot_col (x : Z -> result Z) (w b : list Z) (in_dim out_dim i : Z) : result Z :=
  let* s := getitem b i in
  foldM (fun s j =>
           let w_idx := j * out_dim + i in
           let* xj := x j in
           let* wj := getitem w w_idx in
           Ok (s + (xj * wj) / SCALE))
        s (range in_dim).

(** ** Multi-head attention *)

Abbreviation config_t := (gmap string Z).
Abbreviation weights_t := (gmap string (list Z)).

(** [[[qkv[t][off + d] for d in range(head_dim)] for t in range(seq_len)]] *)
Definition extract_head (qkv : list (list Z)) (seq_len head_dim off : Z) : result (list (list Z)) :=
  mapM (fun t => mapM (fun d => getitem2 qkv t (off + d)) (range head_dim)) (range seq_len).

(** The row [scores] of query position [i]: the sentinel for every later
    key position, the scaled dot product otherwise. *)
Definition attn_scores (Q K : list (list Z)) (seq_len head_dim scale i : Z) : result (list Z) :=
  mapM (fun j =>
          if j >? i then Ok (-1000000000)
          else
            let* terms :=
              mapM (fun d =>
                      let* q := getitem2 Q i d in
                      let* k := getitem2 K j d in
                      Ok ((q * k) / SCALE))
                   (range head_dim) in
            let score := Py.sum terms in
            floordiv (score * SCALE) scale)
       (range seq_len).

(** [out_vec]: the weighted sum of the value vectors *)
Definition attn_apply (probs : list Z) (V : list (list Z)) (seq_len head_dim : Z) : result (list Z) :=
  mapM (fun d =>
          let* terms :=
            mapM (fun j =>
                    let* p := getitem probs j in
                    let* v := getitem2 V j d in
                    Ok ((p * v) / SCALE))
                 (range seq_len) in
          Ok (Py.sum terms))
       (range head_dim).

(** The body of the loop over the query positions of one head *)
Definition attn_row (Q K V : list (list Z)) (seq_len head_dim scale i : Z) : result (list Z) :=
  let* scores := attn_scores Q K seq_len head_dim scale i in
  let* probs := fp_softmax scores in
  attn_apply probs V seq_len head_dim.

(** The body of the loop over the heads: [all_head_outputs[h]] *)
Definition attn_head (qkv : list (list Z)) (seq_len n_embd head_dim scale h : Z) : result (list (list Z)) :=
  let head_offset := h * head_dim in
  let* Q := extract_head qkv seq_len head_dim head_offset in
  let* K := extract_head qkv seq_len head_dim (n_embd + head_offset) in
  let* V := extract_head qkv seq_len head_dim (2 * n_embd + head_offset) in
  mapM (fun i => attn_row Q K V seq_len head_dim scale i) (range seq_len).

Definition multi_head_attention (hidden : list (list Z)) (layer : Z)
    (config : config_t) (weights : weights_t) : result (list (list Z)) :=
  let seq_len := len hidden in
  let* n_embd := lookup_key config "n_embd" in
  let* n_head := lookup_key config "n_head" in
  let* head_dim := lookup_key config "head_dim" in
  let qkv_dim := 3 * n_embd in
  let* attn_w := lookup_key weights (fkey "attn_w_" layer) in
  let* attn_b := lookup_key weights (fkey "attn_b_" layer) in
  let* proj_w := lookup_key weights (fkey "attn_proj_w_" layer) in
  let* proj_b := lookup_key weights (fkey "attn_proj_b_" layer) in
  let* qkv :=
    mapM (fun t =>
            mapM (fun i => dot_col (getitem2 hidden t) attn_w attn_b n_embd qkv_dim i)
                 (range qkv_dim))
         (range seq_len) in
  let* scale := fp_sqrt (head_dim * SCALE) in
  let* all_head_outputs :=
    mapM (fun h => attn_head qkv seq_len n_embd head_dim scale h) (range n_head) in
  let* concat :=
    mapM (fun t =>
            foldM (fun row h =>
                     let* out_vec := getitem2 all_head_outputs h t in
                     Ok (row ++ out_vec))
                  [] (range n_head))
         (range seq_len) in
  mapM (fun t =>
          mapM (fun i => dot_col (getitem2 concat t) proj_w proj_b n_embd n_embd i)
               (range n_embd))
       (range seq_len).

(** ** Feed-forward network *)

Definition feed_forward (hidden : list (list Z)) (layer : Z)
    (config : config_t) (weights : weights_t) : result (list (list Z)) :=
  let seq_len := len hidden in
  let* n_embd := lookup_key config "n_embd" in
  let* hidden_dim := lookup_key config "hidden_dim" in
  let* fc1_w := lookup_key weights (fkey "ffn_fc1_w_" layer) in
  let* fc1_b := lookup_key weights (fkey "ffn_fc1_b_" layer) in
  let* fc2_w := lookup_key weights (fkey "ffn_fc2_w_" layer) in
  let* fc2_b := lookup_key weights (fkey "ffn_fc2_b_" layer) in
  mapM (fun t =>
          let* intermediate :=
            mapM (fun i =>
                    let* s := dot_col (getitem2 hidden t) fc1_w fc1_b n_embd hidden_dim i in
                    Ok (fp_gelu s))
                 (range hidden_dim) in
          mapM (fun i => dot_col (getitem intermediate) fc2_w fc2_b hidden_dim n_embd i)
               (range n_embd))
       (range seq_len).

(** ** Transformer block *)

(** [[[a[t][i] + b[t][i] for i in range(len(a[t]))] for t in range(seq_len)]] *)
Definition residual (a b : list (list Z)) (seq_len : Z) : result (list (list Z)) :=
  mapM (fun t =>
          let* row := getitem a t in
          mapM (fun i =>
                  let* x := getitem2 a t i in
                  let* y := getitem2 b t i in
                  Ok (x + y))
               (range (len row)))
       (range seq_len).

Definition transformer_block (hidden : list (list Z)) (layer : Z)
    (config : config_t) (weights : weights_t) : result (list (list Z)) :=
  let seq_len := len hidden in
  let* ln1_w := lookup_key weights (fkey "ln1_w_" layer) in
  let* ln1_b := lookup_key weights (fkey "ln1_b_" layer) in
  let* ln2_w := lookup_key weights (fkey "ln2_w_" layer) in
  let* ln2_b := lookup_key weights (fkey "ln2_b_" layer) in
  let* normed1 :=
    mapM (fun t => let* row := getitem hidden t in layer_norm row ln1_w ln1_b)
         (range seq_len) in
  let* attn_out := multi_head_attention normed1 layer config weights in
  let* residual1 := residual hidden attn_out seq_len in
  let* normed2 :=
    mapM (fun t => let* row := getitem residual1 t in layer_norm row ln2_w ln2_b)
         (range seq_len) in
  let* ffn_out := feed_forward normed2 layer config weights in
  residual residual1 ffn_out seq_len.

(** ** Forward pass *)

(** The truncation at the head of [forward] *)
Definition truncate (tokens : list Z) (config : config_t) : result (list Z) :=
  let seq_len := len tokens in
  let* block_size := lookup_key config "block_size" in
  if seq_len >? block_size then
    let* seq_len := lookup_key config "block_size" in
    Ok (slice_to tokens seq_len)
  else Ok tokens.

(** Token + position embeddings: the loop over [enumerate(tokens)] *)
Definition embed (tokens : list Z) (n_embd : Z) (wte wpe : list Z) : result (list (list Z)) :=
  mapM (fun '(t, tok) =>
          let tok_start := tok * n_embd in
          let pos_start := t * n_embd in
          mapM (fun i =>
                  let* e := getitem wte (tok_start + i) in
                  let* p := getitem wpe (pos_start + i) in
                  Ok (e + p))
               (range n_embd))
       (combine (range (len tokens)) tokens).

(** [for layer in range(n_layer): hidden = transformer_block(...)] *)
Definition blocks (hidden : list (list Z)) (n_layer : Z)
    (config : config_t) (weights : weights_t) : result (list (list Z)) :=
  foldM (fun hidden layer => transformer_block hidden layer config weights)
        hidden (range n_layer).

(** Projection to the vocabulary with the token-embedding table *)
Definition project (last_hidden wte : list Z) (vocab_size n_embd : Z) : result (list Z) :=
  mapM (fun v =>
          let emb_start := v * n_embd in
          let* terms :=
            mapM (fun i =>
                    let* x := getitem last_hidden i in
                    let* w := getitem wte (emb_start + i) in
                    Ok ((x * w) / SCALE))
                 (range n_embd) in
          Ok (Py.sum terms))
       (range vocab_size).

Definition forward (tokens : list Z) (config : config_t) (weights : weights_t) : result (list Z) :=
  let* tokens := truncate tokens config in
  let* n_embd := lookup_key config "n_embd" in
  let* vocab_size := lookup_key config "vocab_size" in
  let* n_layer := lookup_key config "n_layer" in
  let* wte := lookup_key weights "wte" in
  let* wpe := lookup_key weights "wpe" in
  let* ln_f_w := lookup_key weights "ln_f_w" in
  let* ln_f_b := lookup_key weights "ln_f_b" in
  let* hidden := embed tokens n_embd wte wpe in
  let* hidden := blocks hidden n_layer config weights in
  let* last := getitem hidden (-1) in
  let* last_hidden := layer_norm last ln_f_w ln_f_b in
  project last_hidden wte vocab_size n_embd.

(** ** Loading a model directory

    [load_config], [load_weights] and [load_model] read text files.  The
    content of the model directory and the two string builtins they call
    are taken as given: [read_lines] gives the lines of the file at a path
    below the model directory (a list of path components), [strip] is
    [str.strip] and [py_int] is [int] on a string.  Any exception of the
    loader (a file that cannot be opened, a malformed integer, a missing
    key, a division by zero) is [None]. *)

(** [key, val = line.split("=", 1)], [None] when ["=" in line] is false *)
Fixpoint split_eq (line : string) : option (string * string) :=
  match line with
  | EmptyString => None
  | String c rest =>
      if Ascii.eqb c "="%char then Some (EmptyString, rest)
      else match split_eq rest with
           | Some (key, val) => Some (String c key, val)
           | None => None
           end
  end.

(** [for x in l: acc = step acc x] in the loader *)
Fixpoint fold_opt {A S : Type} (step : S -> A -> option S) (acc : S) (l : list A) : option S :=
  match l with
  | [] => Some acc
  | x :: l' => match step acc x with
               | Some acc' => fold_opt step acc' l'
               | None => None
               end
  end.

Section Loader.

Variable strip : string -> string.
Variable py_int : string -> option Z.
Variable read_lines : list string -> option (list string).

(** The body of the loop over the lines of [config.txt] *)
Definition load_config_line (config : config_t) (line : string) : option config_t :=
  let line := strip line in
  match split_eq line with
  | Some (key, val) =>
      match py_int val with
      | Some v => Some (<[key := v]> config)
      | None => None
      end
  | None => Some config
  end.

Definition load_config : option config_t :=
  match read_lines ["config.txt"] with
  | None => None
  | Some lines =>
      match fold_opt load_config_line ∅ lines with
      | None => None
      | Some config =>
          match config !! "n_embd", config !! "n_head" with
          | Some n_embd, Some n_head =>
              if n_head =? 0 then None
              else
                let config := <["head_dim" := n_embd / n_head]> config in
                match config !! "n_embd" with
                | Some n_embd => Some (<["hidden_dim" := 4 * n_embd]> config)
                | None => None
                end
          | _, _ => None
          end
      end
  end.

(** The body of the loop over the lines of a weight file *)
Definition load_weights_line (weights : list Z) (line : string) : option (list Z) :=
  let line := strip line in
  match line with
  | EmptyString => Some weights
  | _ => match py_int line with
         | Some v => Some (weights ++ [v])
         | None => None
         end
  end.

Definition load_weights (filepath : list string) : option (list Z) :=
  match read_lines filepath with
  | None => None
  | Some lines => fold_opt load_weights_line [] lines
  end.

(** [weights[key] = load_weights(prefix / file)] *)
Definition load_into (weights : weights_t) (key : string) (filepath : list string)
    : option weights_t :=
  match load_weights filepath with
  | Some t => Some (<[key := t]> weights)
  | None => None
  end.

(** The body of the loop over the layers in [load_model] *)
Definition load_layer (weights : weights_t) (layer : Z) : option weights_t :=
  let prefix := ["blocks"; pretty layer] in
  weights ← load_into weights (fkey "ln1_w_" layer) (prefix ++ ["ln1_weight.txt"]);
  weights ← load_into weights (fkey "ln1_b_" layer) (prefix ++ ["ln1_bias.txt"]);
  weights ← load_into weights (fkey "attn_w_" layer) (prefix ++ ["attn_weight.txt"]);
  weights ← load_into weights (fkey "attn_b_" layer) (prefix ++ ["attn_bias.txt"]);
  weights ← load_into weights (fkey "attn_proj_w_" layer) (prefix ++ ["attn_proj_weight.txt"]);
  weights ← load_into weights (fkey "attn_proj_b_" layer) (prefix ++ ["attn_proj_bias.txt"]);
  weights ← load_into weights (fkey "ln2_w_" layer) (prefix ++ ["ln2_weight.txt"]);
  weights ← load_into weights (fkey "ln2_b_" layer) (prefix ++ ["ln2_bias.txt"]);
  weights ← load_into weights (fkey "ffn_fc1_w_" layer) (prefix ++ ["ffn_fc1_weight.txt"]);
  weights ← load_into weights (fkey "ffn_fc1_b_" layer) (prefix ++ ["ffn_fc1_bias.txt"]);
  weights ← load_into weights (fkey "ffn_fc2_w_" layer) (prefix ++ ["ffn_fc2_weight.txt"]);
  load_into weights (fkey "ffn_fc2_b_" layer) (prefix ++ ["ffn_fc2_bias.txt"]).

Definition load_model : option (config_t * weights_t) :=
  config ← load_config;
  weights ← load_into ∅ "wte" ["wte.txt"];
  weights ← load_into weights "wpe" ["wpe.txt"];
  weights ← load_into weights "ln_f_w" ["ln_f_weight.txt"];
  weights ← load_into weights "ln_f_b" ["ln_f_bias.txt"];
  n_layer ← config !! "n_layer";
  weights ← fold_opt load_layer weights (range n_layer);
  Some (config, weights).

End Loader.

(** ** Well-formed models

    The data model of the specification: positive dimensions, a head count
    that divides the embedding width, the two derived dimensions as
    [load_config] computes them, and every tensor of the layout with the
    length its shape asks for. *)

Definition has_tensor (weights : weights_t) (key : string) (n : Z) : Prop :=
  exists t, weights !! key = Some t /\ len t = n.

Record well_formed (config : config_t) (weights : weights_t) (E H L V W : Z) : Prop := {
  wf_n_embd : config !! "n_embd" = Some E;
  wf_n_head : config !! "n_head" = Some H;
  wf_n_layer : config !! "n_layer" = Some L;
  wf_vocab_size : config !! "vocab_size" = Some V;
  wf_block_size : config !! "block_size" = Some W;
  wf_head_dim : config !! "head_dim" = Some (E / H);
  wf_hidden_dim : config !! "hidden_dim" = Some (4 * E);
  wf_positive : 0 < E /\ 0 < H /\ 0 < L /\ 0 < V /\ 0 < W;
  wf_divides : E mod H = 0;
  wf_wte : has_tensor weights "wte" (V * E);
  wf_wpe : has_tensor weights "wpe" (W * E);
  wf_ln_f_w : has_tensor weights "ln_f_w" E;
  wf_ln_f_b : has_tensor weights "ln_f_b" E;
  wf_layers : forall l, 0 <= l < L ->
    has_tensor weights (fkey "ln1_w_" l) E /\
    has_tensor weights (fkey "ln1_b_" l) E /\
    has_tensor weights (fkey "attn_w_" l) (E * (3 * E)) /\
    has_tensor weights (fkey "attn_b_" l) (3 * E) /\
    has_tensor weights (fkey "attn_proj_w_" l) (E * E) /\
    has_tensor weights (fkey "attn_proj_b_" l) E /\
    has_tensor weights (fkey "ln2_w_" l) E /\
    has_tensor weights (fkey "ln2_b_" l) E /\
    has_tensor weights (fkey "ffn_fc1_w_" l) (E * (4 * E)) /\
    has_tensor weights (fkey "ffn_fc1_b_" l) (4 * E) /\
    has_tensor weights (fkey "ffn_fc2_w_" l) (4 * E * E) /\
    has_tensor weights (fkey "ffn_fc2_b_" l) E
}.

(** A hidden state of [r] positions, each a vector of width [c] *)
Definition shape (m : list (list Z)) (r c : Z) : Prop :=
  len m = r /\ Forall (fun row => len row = c) m.

(** The id that a negative token id reads through Python's indexing from
    the end of a table of [V] rows *)
Definition wrap_token (V tok : Z) : Z := if tok <? 0 then tok + V else tok.

(** ** Concrete models used to run the code *)

Module Demo.

(** One layer, one head, embedding width 2, vocabulary of 3, window of 2. *)
Definition config : config_t :=
  list_to_map [("n_embd", 2); ("n_head", 1); ("n_layer", 1); ("vocab_size", 3);
               ("block_size", 2); ("head_dim", 2); ("hidden_dim", 8)].

Definition weights : weights_t :=
  list_to_map
    [("wte", [1000; -2000; 3000; 4000; -5000; 6000]);
     ("wpe", [100; 200; -300; 400]);
     ("ln_f_w", [10000; 9000]); ("ln_f_b", [10; -20]);
     ("ln1_w_0", [10000; 10000]); ("ln1_b_0", [0; 100]);
     ("attn_w_0", [1000; 2000; -3000; 4000; 5000; 6000; -1000; 2000; 3000; -4000; 5000; 7000]);
     ("attn_b_0", [10; 20; 30; 40; 50; 60]);
     ("attn_proj_w_0", [10000; 0; 0; 10000]); ("attn_proj_b_0", [1; 2]);
     ("ln2_w_0", [10000; 8000]); ("ln2_b_0", [5; 6]);
     ("ffn_fc1_w_0", [1000; 2000; 3000; 4000; 5000; 6000; 7000; 8000;
                      -1000; -2000; -3000; -4000; -5000; -6000; -7000; -8000]);
     ("ffn_fc1_b_0", [1; 2; 3; 4; 5; 6; 7; 8]);
     ("ffn_fc2_w_0", [1000; -1000; 2000; -2000; 3000; -3000; 4000; -4000;
                      5000; -5000; 6000; -6000; 7000; -7000; 8000; -8000]);
     ("ffn_fc2_b_0", [11; 12])].

(** One head of width 1.  The query and key biases make every real score
    smaller than the sentinel of the mask; the value projection copies
    the input. *)
Definition leak_config : config_t :=
  list_to_map [("n_embd", 1); ("n_head", 1); ("head_dim", 1)].

Definition leak_weights : weights_t :=
  list_to_map
    [("attn_w_0", [0; 0; 10000]); ("attn_b_0", [10000000; -10000000; 0]);
     ("attn_proj_w_0", [10000]); ("attn_proj_b_0", [0])].

(** A model directory with one layer: every weight file holds the one
    line [7], the lines of [config.txt] are already stripped. *)
Definition dir_strip (line : string) : string := line.

Definition dir_int (text : string) : option Z :=
  if String.eqb text "1" then Some 1
  else if String.eqb text "2" then Some 2
  else if String.eqb text "4" then Some 4
  else if String.eqb text "7" then Some 7
  else None.

Definition dir_lines (filepath : list string) : option (list string) :=
  match filepath with
  | ["config.txt"] =>
      Some ["n_embd=4"; "n_head=2"; "comment"; "n_layer=1"; "vocab_size=2";
            "block_size=2"; "head_dim=7"]
  | _ => Some ["7"; ""]
  end.

End Demo.


(** ** Properties of the fixed-point exponential *)

Section FpExp.

Lemma SCALE_pos : 0 < SCALE.
Proof. reflexivity. Qed.

Lemma fp_exp_loop_ge (idx : list Z) (x term result : Z) :
  Forall (fun i => 0 < i) idx -> 0 <= x -> 0 <= term ->
  result <= fp_exp_loop idx x term result.
Proof.
  intros Hidx Hx. revert term result.
  induction Hidx as [|i idx Hi _ IH]; intros term result Hterm; simpl; [lia|].
  assert (0 <= term * x / (i * SCALE)) as Hnew
    by (apply Z.div_pos; [nia | pose proof SCALE_pos; nia]).
  destruct (Z.ltb_spec (term * x / (i * SCALE)) 1); [lia|].
  specialize (IH (term * x / (i * SCALE)) (result + term * x / (i * SCALE)) Hnew). lia.
Qed.

Lemma fp_exp_loop_mono (idx : list Z) (x y t1 t2 r1 r2 : Z) :
  Forall (fun i => 0 < i) idx -> 0 <= x <= y -> 0 <= t1 <= t2 -> r1 <= r2 ->
  fp_exp_loop idx x t1 r1 <= fp_exp_loop idx y t2 r2.
Proof.
  intros Hidx Hxy. revert t1 t2 r1 r2.
  induction Hidx as [|i idx Hi Hidx IH]; intros t1 t2 r1 r2 Ht Hr; simpl; [lia|].
  assert (0 < i * SCALE) as Hd by (pose proof SCALE_pos; nia).
  assert (0 <= t1 * x / (i * SCALE)) as H1 by (apply Z.div_pos; [nia | lia]).
  assert (t1 * x / (i * SCALE) <= t2 * y / (i * SCALE)) as H12
    by (apply Z.div_le_mono; [lia | nia]).
  destruct (Z.ltb_spec (t1 * x / (i * SCALE)) 1) as [Hb1|Hb1];
    destruct (Z.ltb_spec (t2 * y / (i * SCALE)) 1) as [Hb2|Hb2]; try lia.
  - pose proof (fp_exp_loop_ge idx y (t2 * y / (i * SCALE))
                  (r2 + t2 * y / (i * SCALE)) Hidx ltac:(lia) ltac:(lia)). lia.
  - apply IH; lia.
Qed.

Lemma range2_pos (lo hi : Z) : 0 < lo -> Forall (fun i => 0 < i) (range2 lo hi).
Proof.
  intros Hlo. unfold range2. rewrite List.Forall_map. apply List.Forall_forall. intros k _. lia.
Qed.

Lemma exp_series_ge (x : Z) : 0 <= x -> SCALE <= exp_series x.
Proof.
  intros Hx. apply fp_exp_loop_ge; [apply range2_pos; lia | lia | pose proof SCALE_pos; lia].
Qed.

Lemma exp_series_mono (x y : Z) : 0 <= x <= y -> exp_series x <= exp_series y.
Proof.
  intros Hxy. apply fp_exp_loop_mono; [apply range2_pos; lia | lia | pose proof SCALE_pos; lia | lia].
Qed.

(** The three regions of [fp_exp] *)
Lemma fp_exp_low (x : Z) : x < -8 * SCALE -> fp_exp x = 0.
Proof.
  intros Hx. unfold fp_exp.
  destruct (Z.gtb_spec x (8 * SCALE)); [unfold SCALE in *; lia|].
  destruct (Z.ltb_spec x (-8 * SCALE)); [reflexivity | lia].
Qed.

Lemma fp_exp_neg (x : Z) :
  -8 * SCALE <= x < 0 -> fp_exp x = SCALE * SCALE / exp_series (- x).
Proof.
  intros Hx. unfold fp_exp.
  destruct (Z.gtb_spec x (8 * SCALE)); [unfold SCALE in *; lia|].
  destruct (Z.ltb_spec x (-8 * SCALE)); [lia|].
  destruct (Z.ltb_spec x 0); [|lia].
  fold (exp_series (- x)).
  pose proof (exp_series_ge (- x) ltac:(lia)). pose proof SCALE_pos.
  destruct (Z.eqb_spec (exp_series (- x)) 0); [lia | reflexivity].
Qed.

Lemma fp_exp_nonneg_arg (x : Z) :
  0 <= x -> fp_exp x = exp_series (Z.min x (8 * SCALE)).
Proof.
  intros Hx. unfold fp_exp.
  destruct (Z.gtb_spec x (8 * SCALE)).
  - rewrite Z.min_r by lia. reflexivity.
  - rewrite Z.min_l by lia.
    destruct (Z.ltb_spec x (-8 * SCALE)); [unfold SCALE in *; lia|].
    destruct (Z.ltb_spec x 0); [lia | reflexivity].
Qed.

Lemma fp_exp_nonneg (x : Z) : 0 <= fp_exp x.
Proof.
  pose proof SCALE_pos.
  destruct (Z.lt_ge_cases x (-8 * SCALE)); [rewrite fp_exp_low; lia|].
  destruct (Z.lt_ge_cases x 0).
  - rewrite fp_exp_neg by lia.
    pose proof (exp_series_ge (- x) ltac:(lia)). apply Z.div_pos; nia.
  - rewrite fp_exp_nonneg_arg by lia.
    pose proof (exp_series_ge (Z.min x (8 * SCALE)) ltac:(unfold SCALE; lia)). lia.
Qed.

Lemma fp_exp_0 : fp_exp 0 = SCALE.
Proof. reflexivity. Qed.

Lemma fp_exp_le_SCALE (x : Z) : x <= 0 -> fp_exp x <= SCALE.
Proof.
  intros Hx. pose proof SCALE_pos.
  destruct (Z.lt_ge_cases x (-8 * SCALE)); [rewrite fp_exp_low; lia|].
  destruct (Z.eq_dec x 0) as [->|]; [rewrite fp_exp_0; lia|].
  rewrite fp_exp_neg by lia.
  pose proof (exp_series_ge (- x) ltac:(lia)).
  apply Z.div_le_upper_bound; nia.
Qed.

(** The result on the negative branch is at least 3: the series is
    largest at the clamp bound. *)
Lemma fp_exp_neg_ge (x : Z) : -8 * SCALE <= x < 0 -> 3 <= fp_exp x.
Proof.
  intros Hx. rewrite fp_exp_neg by done. pose proof SCALE_pos.
  pose proof (exp_series_ge (- x) ltac:(lia)).
  pose proof (exp_series_mono (- x) (8 * SCALE) ltac:(lia)) as Hle.
  replace 3 with (SCALE * SCALE / exp_series (8 * SCALE)) by (vm_compute; reflexivity).
  apply Z.div_le_compat_l; [unfold SCALE; lia | lia].
Qed.

(** C8: [fp_exp] is monotonically non-decreasing over all integers: across
    the early return below the lower clamp bound, the reciprocal branch of
    the negative inputs, zero, the Taylor series with its early exit, and
    the upper clamp. *)
Theorem fp_exp_monotone (x y : Z) : x <= y -> fp_exp x <= fp_exp y.
Proof.
  intros Hxy. pose proof SCALE_pos.
  destruct (Z.lt_ge_cases x (-8 * SCALE)).
  { rewrite (fp_exp_low x) by lia. apply fp_exp_nonneg. }
  destruct (Z.lt_ge_cases y 0).
  - rewrite !fp_exp_neg by lia.
    pose proof (exp_series_ge (- y) ltac:(lia)).
    pose proof (exp_series_mono (- y) (- x) ltac:(lia)).
    apply Z.div_le_compat_l; nia.
  - rewrite (fp_exp_nonneg_arg y) by lia.
    destruct (Z.lt_ge_cases x 0).
    + pose proof (fp_exp_le_SCALE x ltac:(lia)).
      pose proof (exp_series_ge (Z.min y (8 * SCALE)) ltac:(unfold SCALE; lia)). lia.
    + rewrite (fp_exp_nonneg_arg x) by lia.
      apply exp_series_mono. unfold SCALE. lia.
Qed.

Lemma fp_exp_monotone_witness :
  -90000 <= 12345 /\ fp_exp (-90000) <= fp_exp 12345.
Proof. split; [lia | apply (fp_exp_monotone (-90000) 12345); lia]. Defined.

(** C7 as stated fails at the closed bound: the guard of the source is
    strict, so [-8 * SCALE] itself goes through the reciprocal branch and
    yields 3. *)
Lemma fp_exp_at_lower_bound :
  fp_exp (-8 * SCALE) = 3 /\
  ~ (forall x, x <= -8 * SCALE -> fp_exp x = 0).
Proof.
  split; [reflexivity|]. intros H. specialize (H (-8 * SCALE) ltac:(lia)).
  vm_compute in H. discriminate H.
Qed.

(** C7, amended: [fp_exp] returns exactly 0 for the inputs strictly below
    [-8 * SCALE], and for no other input. *)
Theorem fp_exp_zero_iff (x : Z) : fp_exp x = 0 <-> x < -8 * SCALE.
Proof.
  split; [|apply fp_exp_low].
  intros H0. destruct (Z.lt_ge_cases x (-8 * SCALE)) as [|Hge]; [done|]. exfalso.
  destruct (Z.lt_ge_cases x 0).
  - pose proof (fp_exp_neg_ge x ltac:(lia)). lia.
  - rewrite fp_exp_nonneg_arg in H0 by lia.
    pose proof (exp_series_ge (Z.min x (8 * SCALE)) ltac:(unfold SCALE; lia)).
    unfold SCALE in *. lia.
Qed.

Lemma fp_exp_zero_iff_witness :
  fp_exp (-80001) = 0 /\ fp_exp (-80000) <> 0.
Proof.
  split.
  - apply (proj2 (fp_exp_zero_iff (-80001))). reflexivity.
  - intros H. apply (proj1 (fp_exp_zero_iff (-80000))) in H. vm_compute in H. discriminate H.
Defined.

End FpExp.

(** ** Properties of [sum], [max] and the softmax *)

Section Softmax.

Lemma sum_acc (l : list Z) (a : Z) : fold_left Z.add l a = a + Py.sum l.
Proof.
  unfold Py.sum. revert a. induction l as [|x l IH]; intros a; simpl; [lia|].
  rewrite (IH (a + x)), (IH (0 + x)). lia.
Qed.

Lemma sum_nil : Py.sum [] = 0.
Proof. reflexivity. Qed.

Lemma sum_cons (x : Z) (l : list Z) : Py.sum (x :: l) = x + Py.sum l.
Proof. unfold Py.sum at 1. simpl. apply sum_acc. Qed.

Lemma sum_nonneg (l : list Z) : Forall (fun x => 0 <= x) l -> 0 <= Py.sum l.
Proof.
  induction 1 as [|x l Hx _ IH]; [rewrite sum_nil; lia | rewrite sum_cons; lia].
Qed.

Lemma sum_ge_elem (l : list Z) (x : Z) :
  Forall (fun x => 0 <= x) l -> In x l -> x <= Py.sum l.
Proof.
  induction 1 as [|y l Hy Hl IH]; intros Hin; [destruct Hin|].
  rewrite sum_cons. pose proof (sum_nonneg l Hl).
  destruct Hin as [->|Hin]; [lia | specialize (IH Hin); lia].
Qed.

Lemma max_fold_spec (l : list Z) (x : Z) :
  let m := fold_left (fun m y => if y >? m then y else m) l x in
  In m (x :: l) /\ x <= m /\ Forall (fun y => y <= m) l.
Proof.
  revert x. induction l as [|y l IH]; intros x; simpl.
  - split; [by left | split; [lia | constructor]].
  - destruct (IH (if y >? x then y else x)) as (Hin & Hle & Hall).
    destruct (Z.gtb_spec y x).
    + split; [|split; [lia | constructor; [lia | done]]].
      destruct Hin as [<-|Hin]; [right; by left | by do 2 right].
    + split; [|split; [lia | constructor; [lia | done]]].
      destruct Hin as [<-|Hin]; [by left | by do 2 right].
Qed.

Lemma max_spec (l : list Z) (m : Z) :
  Py.max l = Ok m -> In m l /\ Forall (fun y => y <= m) l.
Proof.
  destruct l as [|x l]; [discriminate|]. simpl. intros [= <-].
  destruct (max_fold_spec l x) as (Hin & Hle & Hall).
  split; [done | by constructor].
Qed.

Lemma max_ok (l : list Z) : l <> [] -> exists m, Py.max l = Ok m.
Proof. destruct l; [done | by eexists]. Qed.

Lemma softmax_exps_acc (arr exps0 : list Z) (t0 max_val : Z) :
  fold_left
    (fun '(exps, total) x =>
       let shifted := x - max_val in
       let e := fp_exp shifted in
       (exps ++ [e], total + e))
    arr (exps0, t0)
  = (exps0 ++ map (fun x => fp_exp (x - max_val)) arr,
     t0 + Py.sum (map (fun x => fp_exp (x - max_val)) arr)).
Proof.
  revert exps0 t0. induction arr as [|x arr IH]; intros exps0 t0; simpl.
  - rewrite app_nil_r, sum_nil. f_equal. lia.
  - rewrite IH, sum_cons, <- app_assoc. simpl. f_equal. lia.
Qed.

Lemma softmax_exps_eq (arr : list Z) (max_val : Z) :
  softmax_exps arr max_val
  = (map (fun x => fp_exp (x - max_val)) arr,
     Py.sum (map (fun x => fp_exp (x - max_val)) arr)).
Proof. unfold softmax_exps. rewrite softmax_exps_acc. reflexivity. Qed.

Lemma softmax_exps_nonneg (arr : list Z) (max_val : Z) :
  Forall (fun e => 0 <= e) (map (fun x => fp_exp (x - max_val)) arr).
Proof. rewrite List.Forall_map. apply List.Forall_forall. intros x _. apply fp_exp_nonneg. Qed.

Lemma softmax_total_ge (arr : list Z) (max_val : Z) :
  Py.max arr = Ok max_val -> SCALE <= snd (softmax_exps arr max_val).
Proof.
  intros Hmax. rewrite softmax_exps_eq. simpl.
  destruct (max_spec arr max_val Hmax) as [Hin _].
  apply sum_ge_elem; [apply softmax_exps_nonneg|].
  apply in_map_iff. exists max_val. split; [|done].
  rewrite Z.sub_diag. apply fp_exp_0.
Qed.

Lemma fp_softmax_eq (arr : list Z) (max_val : Z) :
  Py.max arr = Ok max_val ->
  fp_softmax arr =
    Ok (map (fun e => e * SCALE / snd (softmax_exps arr max_val))
            (fst (softmax_exps arr max_val))).
Proof.
  intros Hmax. pose proof (softmax_total_ge arr max_val Hmax) as Hge.
  unfold fp_softmax. rewrite Hmax. simpl.
  destruct (softmax_exps arr max_val) as [exps total]. simpl in *.
  f_equal. unfold softmax_normalize. apply map_ext. intros e.
  destruct (Z.gtb_spec total 0); [reflexivity | unfold SCALE in *; lia].
Qed.

(** Rounding of the quotients: the sum of the floors misses the exact
    quotient by less than one per element. *)
Lemma sum_floor_bounds (es : list Z) (T : Z) :
  0 < T -> Forall (fun e => 0 <= e) es ->
  let out := map (fun e => e * SCALE / T) es in
  Forall (fun p => 0 <= p) out /\
  T * Py.sum out <= SCALE * Py.sum es /\
  SCALE * Py.sum es - T * len es <= T * Py.sum out.
Proof.
  intros HT Hes. induction Hes as [|e es He _ IH]; simpl.
  - rewrite !sum_nil. unfold len. simpl. split; [constructor | lia].
  - destruct IH as (Hall & Hup & Hlo).
    rewrite !sum_cons. unfold len in *. simpl length. rewrite Nat2Z.inj_succ.
    pose proof SCALE_pos.
    pose proof (Z.mul_div_le (e * SCALE) T HT).
    pose proof (Z.mod_pos_bound (e * SCALE) T HT).
    pose proof (Z.div_mod (e * SCALE) T ltac:(lia)).
    split; [constructor; [apply Z.div_pos; nia | done] | nia].
Qed.

Lemma fp_softmax_bounds (arr : list Z) :
  arr <> [] ->
  exists out, fp_softmax arr = Ok out /\ length out = length arr /\
    Forall (fun p => 0 <= p) out /\
    SCALE - len arr <= Py.sum out <= SCALE.
Proof.
  intros Hne. destruct (max_ok arr Hne) as [m Hmax].
  rewrite (fp_softmax_eq arr m Hmax). eexists. split; [reflexivity|].
  pose proof (softmax_total_ge arr m Hmax) as Hge.
  rewrite softmax_exps_eq in *. simpl in *.
  set (es := map (fun x => fp_exp (x - m)) arr) in *.
  assert (0 < Py.sum es) as HT by (pose proof SCALE_pos; lia).
  destruct (sum_floor_bounds es (Py.sum es) HT (softmax_exps_nonneg arr m))
    as (Hall & Hup & Hlo).
  assert (len es = len arr) as Hlen by (unfold len, es; by rewrite length_map).
  rewrite Hlen in Hlo.
  split; [unfold es; by rewrite !length_map|].
  split; [done | nia].
Qed.

End Softmax.

(** ** The result monad, ranges and indexing *)

Section Runtime.

Context {A B : Type}.

Lemma bind_ok_inv {X Y : Type} (m : result X) (k : X -> result Y) (y : Y) :
  Py.bind m k = Ok y -> exists x, m = Ok x /\ k x = Ok y.
Proof. destruct m as [x|e]; simpl; [eauto | discriminate]. Qed.

Lemma range_length (n : Z) : length (range n) = Z.to_nat n.
Proof. unfold range, range2. rewrite length_map, length_seq. f_equal. lia. Qed.

Lemma len_range (n : Z) : len (range n) = Z.max 0 n.
Proof. unfold len. rewrite range_length. lia. Qed.

Lemma in_range (n i : Z) : In i (range n) <-> 0 <= i < n.
Proof.
  unfold range, range2. rewrite in_map_iff. split.
  - intros (k & <- & Hk). apply in_seq in Hk. lia.
  - intros Hi. exists (Z.to_nat i). split; [lia | apply in_seq; lia].
Qed.

Lemma range_lookup (n : Z) (k : nat) :
  (k < Z.to_nat n)%nat -> range n !! k = Some (Z.of_nat k).
Proof.
  intros Hk. unfold range, range2. rewrite list_lookup_fmap.
  rewrite lookup_seq_lt by lia. simpl; f_equal; lia.
Qed.

Lemma range_succ (n : Z) : 0 <= n -> range (n + 1) = range n ++ [n].
Proof.
  intros Hn. unfold range, range2.
  replace (Z.to_nat (n + 1 - 0)) with (S (Z.to_nat (n - 0))) by lia.
  rewrite seq_S, map_app. simpl. do 2 f_equal. lia.
Qed.

Lemma getitem_nonneg (l : list A) (i : Z) (d : A) :
  0 <= i < len l -> getitem l i = Ok (nth (Z.to_nat i) l d).
Proof.
  intros Hi. unfold getitem, len in *.
  destruct (Z.ltb_spec i 0); [lia|].
  destruct (Z.ltb_spec i 0); [lia|].
  destruct (lookup_lt_is_Some_2 l (Z.to_nat i) ltac:(lia)) as [x Hx].
  rewrite Hx. f_equal. by rewrite (nth_lookup_Some _ _ d x).
Qed.

Lemma getitem_negative (l : list A) (i : Z) (d : A) :
  - len l <= i < 0 -> getitem l i = Ok (nth (Z.to_nat (len l + i)) l d).
Proof.
  intros Hi. unfold getitem. unfold len in *.
  destruct (Z.ltb_spec i 0); [|lia].
  destruct (Z.ltb_spec (Z.of_nat (length l) + i) 0); [lia|].
  destruct (lookup_lt_is_Some_2 l (Z.to_nat (Z.of_nat (length l) + i)) ltac:(lia)) as [x Hx].
  rewrite Hx. f_equal. by rewrite (nth_lookup_Some _ _ d x).
Qed.

Lemma getitem_out_of_range (l : list A) (i : Z) :
  i < - len l \/ len l <= i -> getitem l i = Err IndexError.
Proof.
  intros Hi. unfold getitem, len in *.
  destruct (Z.ltb_spec i 0).
  - destruct (Z.ltb_spec (Z.of_nat (length l) + i) 0); [reflexivity | lia].
  - destruct (Z.ltb_spec i 0); [lia|].
    rewrite lookup_ge_None_2 by lia. reflexivity.
Qed.

Lemma getitem_ok_inv (l : list A) (i : Z) (x : A) :
  getitem l i = Ok x -> - len l <= i < len l.
Proof.
  intros H. destruct (Z.lt_ge_cases i (- len l)); [rewrite getitem_out_of_range in H by lia; discriminate|].
  destruct (Z.lt_ge_cases i (len l)); [lia|].
  rewrite getitem_out_of_range in H by lia. discriminate.
Qed.

Lemma mapM_pure (f : A -> result B) (g : A -> B) (l : list A) :
  (forall x, In x l -> f x = Ok (g x)) -> mapM f l = Ok (map g l).
Proof.
  induction l as [|x l IH]; intros H; simpl; [reflexivity|].
  rewrite (H x) by (by left). simpl. rewrite IH by (intros; apply H; by right). reflexivity.
Qed.

Lemma mapM_ext (f g : A -> result B) (l : list A) :
  (forall x, In x l -> f x = g x) -> mapM f l = mapM g l.
Proof.
  induction l as [|x l IH]; intros H; simpl; [reflexivity|].
  rewrite (H x) by (by left). rewrite IH by (intros; apply H; by right). reflexivity.
Qed.

Lemma mapM_ok_inv (f : A -> result B) (l : list A) (ys : list B) :
  mapM f l = Ok ys -> Forall2 (fun x y => f x = Ok y) l ys.
Proof.
  revert ys. induction l as [|x l IH]; intros ys; simpl.
  - intros [= <-]. constructor.
  - intros H. apply bind_ok_inv in H as (y & Hy & H).
    apply bind_ok_inv in H as (ys' & Hys & [= <-]).
    constructor; [done | by apply IH].
Qed.

Lemma mapM_total (f : A -> result B) (P : A -> B -> Prop) (l : list A) :
  (forall x, In x l -> exists y, f x = Ok y /\ P x y) ->
  exists ys, mapM f l = Ok ys /\ Forall2 P l ys.
Proof.
  induction l as [|x l IH]; intros H; simpl.
  - exists []. split; [reflexivity | constructor].
  - destruct (H x ltac:(by left)) as (y & Hy & HP).
    destruct IH as (ys & Hys & HF); [intros; apply H; by right|].
    exists (y :: ys). rewrite Hy, Hys. split; [reflexivity | by constructor].
Qed.

Lemma foldM_total {S : Type} (step : S -> A -> result S) (I : S -> Prop) (l : list A) (s : S) :
  I s -> (forall s x, In x l -> I s -> exists s', step s x = Ok s' /\ I s') ->
  exists r, foldM step s l = Ok r /\ I r.
Proof.
  revert s. induction l as [|x l IH]; intros s Hs H; simpl; [eauto|].
  destruct (H s x ltac:(by left) Hs) as (s' & Hs' & HI). rewrite Hs'. simpl.
  apply IH; [done | intros; apply H; [by right | done]].
Qed.

End Runtime.

(** [mapM] over a [range] *)
Lemma mapM_range_total {B : Type} (f : Z -> result B) (P : B -> Prop) (n : Z) :
  (forall i, 0 <= i < n -> exists y, f i = Ok y /\ P y) ->
  exists ys, mapM f (range n) = Ok ys /\ len ys = Z.max 0 n /\ Forall P ys.
Proof.
  intros H.
  destruct (mapM_total f (fun _ y => P y) (range n)) as (ys & Hys & HF).
  { intros i Hi. apply H. by apply in_range. }
  exists ys. split; [done|]. split.
  - unfold len. rewrite <- (Forall2_length _ _ _ HF), range_length. lia.
  - clear Hys. induction HF; constructor; auto.
Qed.

Lemma mapM_range_pure {B : Type} (f : Z -> result B) (g : Z -> B) (n : Z) :
  (forall i, 0 <= i < n -> f i = Ok (g i)) -> mapM f (range n) = Ok (map g (range n)).
Proof. intros H. apply mapM_pure. intros i Hi. apply H. by apply in_range. Qed.

(** ** The square root never divides by zero *)

Section FpSqrt.

Lemma fp_sqrt_loop_ok (n : nat) (x guess : Z) :
  0 < x -> 1 <= guess -> exists g, fp_sqrt_loop n x guess = Ok g /\ 1 <= g.
Proof.
  intros Hx. revert guess. induction n as [|n IH]; intros guess Hg; simpl; [eauto|].
  unfold floordiv. destruct (Z.eqb_spec guess 0); [lia|]. simpl.
  assert (0 <= x * SCALE / guess) as Hdiv
    by (apply Z.div_pos; [pose proof SCALE_pos; nia | lia]).
  assert (1 <= (guess + x * SCALE / guess) / 2) as Hnew.
  { apply Z.div_le_lower_bound; [lia|].
    destruct (Z.eq_dec guess 1) as [->|]; [|lia].
    rewrite Z.div_1_r. unfold SCALE. lia. }
  destruct (Z.abs _ <? 2); [eauto | by apply IH].
Qed.

Lemma fp_sqrt_ok (x : Z) :
  exists g, fp_sqrt x = Ok g /\ 0 <= g /\ (0 < x -> 1 <= g).
Proof.
  unfold fp_sqrt. destruct (Z.leb_spec x 0).
  - exists 0. split; [reflexivity | lia].
  - destruct (fp_sqrt_loop_ok 20 x (if x / 2 <? SCALE then SCALE else x / 2)) as (g & Hg & Hpos).
    + lia.
    + destruct (Z.ltb_spec (x / 2) SCALE); unfold SCALE in *; lia.
    + exists g. split; [done | lia].
Qed.

End FpSqrt.

(** ** Layer normalization *)

Section LayerNorm.

Lemma len_pos_of_ne {A : Type} (l : list A) : l <> [] -> 0 < len l.
Proof. destruct l; [done | unfold len; simpl; lia]. Qed.

Lemma layer_norm_eq (inp gamma beta : list Z) (s : Z) :
  inp <> [] -> len inp <= len gamma -> len inp <= len beta ->
  fp_sqrt (ln_variance inp + 100) = Ok s ->
  layer_norm inp gamma beta =
    Ok (map (fun i =>
               (nth (Z.to_nat i) inp 0 - ln_mean inp) * SCALE / Z.max s 100
               * nth (Z.to_nat i) gamma 0 / SCALE + nth (Z.to_nat i) beta 0)
            (range (len inp))).
Proof.
  intros Hne Hg Hb Hs. pose proof (len_pos_of_ne inp Hne) as Hn.
  unfold layer_norm, floordiv.
  destruct (Z.eqb_spec (len inp) 0); [lia|]. simpl.
  fold (ln_mean inp). fold (ln_variance inp). rewrite Hs. simpl.
  apply mapM_range_pure. intros i Hi.
  rewrite (getitem_nonneg inp i 0) by lia. simpl.
  replace (if s <? 100 then 100 else s) with (Z.max s 100)
    by (destruct (Z.ltb_spec s 100); lia).
  destruct (Z.eqb_spec (Z.max s 100) 0); [lia|]. simpl.
  rewrite (getitem_nonneg gamma i 0) by lia. simpl.
  rewrite (getitem_nonneg beta i 0) by lia. reflexivity.
Qed.

Lemma layer_norm_ok (inp gamma beta : list Z) :
  inp <> [] -> len inp <= len gamma -> len inp <= len beta ->
  exists out, layer_norm inp gamma beta = Ok out /\ len out = len inp.
Proof.
  intros Hne Hg Hb.
  destruct (fp_sqrt_ok (ln_variance inp + 100)) as (s & Hs & _).
  rewrite (layer_norm_eq inp gamma beta s) by done.
  eexists. split; [reflexivity|].
  unfold len at 1. rewrite length_map. fold (len (range (len inp))).
  rewrite len_range. unfold len. lia.
Qed.

End LayerNorm.

(** ** The forward pass: truncation and projection *)

Section Forward.

Lemma lookup_key_ok_inv {V : Type} (d : gmap string V) (key : string) (v : V) :
  lookup_key d key = Ok v -> d !! key = Some v.
Proof. unfold lookup_key. destruct (d !! key); [by intros [= ->] | discriminate]. Qed.

Lemma lookup_key_ok {V : Type} (d : gmap string V) (key : string) (v : V) :
  d !! key = Some v -> lookup_key d key = Ok v.
Proof. unfold lookup_key. by intros ->. Qed.

Lemma truncate_long (tokens : list Z) (config : config_t) (W : Z) :
  config !! "block_size" = Some W -> 0 <= W -> W < len tokens ->
  truncate tokens config = Ok (take (Z.to_nat W) tokens).
Proof.
  intros HW Hpos Hlen. unfold truncate. rewrite (lookup_key_ok _ _ _ HW). simpl.
  destruct (Z.gtb_spec (len tokens) W); [|lia].
  unfold slice_to. destruct (Z.ltb_spec W 0); [lia | reflexivity].
Qed.

Lemma truncate_short (tokens : list Z) (config : config_t) (W : Z) :
  config !! "block_size" = Some W -> len tokens <= W ->
  truncate tokens config = Ok tokens.
Proof.
  intros HW Hlen. unfold truncate. rewrite (lookup_key_ok _ _ _ HW). simpl.
  destruct (Z.gtb_spec (len tokens) W); [lia | reflexivity].
Qed.

Lemma forward_truncate_eq (tokens tokens' : list Z) (config : config_t) (weights : weights_t) :
  truncate tokens config = truncate tokens' config ->
  forward tokens config weights = forward tokens' config weights.
Proof. intros H. unfold forward. by rewrite H. Qed.

Lemma forward_take (tokens : list Z) (config : config_t) (weights : weights_t) (W : Z) :
  config !! "block_size" = Some W -> 0 <= W -> W < len tokens ->
  forward tokens config weights = forward (take (Z.to_nat W) tokens) config weights.
Proof.
  intros HW Hpos Hlen. apply forward_truncate_eq.
  rewrite (truncate_long tokens config W) by done.
  rewrite (truncate_short (take (Z.to_nat W) tokens) config W); [done | done |].
  unfold len in *. rewrite length_take. lia.
Qed.

Lemma mapM_ok_pure {A B : Type} (f : A -> result B) (g : A -> B) (l : list A) (ys : list B) :
  mapM f l = Ok ys -> (forall x y, In x l -> f x = Ok y -> y = g x) -> ys = map g l.
Proof.
  intros H Hg. apply mapM_ok_inv in H.
  induction H as [|x y l ys Hxy _ IH]; simpl; [reflexivity|].
  f_equal; [apply Hg; [by left | done] | apply IH; intros; apply Hg; [by right | done]].
Qed.

Lemma getitem_nonneg_inv {A : Type} (l : list A) (i : Z) (x d : A) :
  getitem l i = Ok x -> 0 <= i -> x = nth (Z.to_nat i) l d.
Proof.
  intros H Hi. pose proof (getitem_ok_inv l i x H).
  rewrite (getitem_nonneg l i d) in H by lia. by injection H.
Qed.

Lemma getitem_last {A : Type} (l : list A) (x : A) :
  getitem l (-1) = Ok x -> last l = Some x.
Proof.
  intros H. pose proof (getitem_ok_inv l _ x H) as Hr.
  rewrite (getitem_negative l (-1) x) in H by lia. injection H as H.
  rewrite last_lookup. unfold len in *.
  replace (Z.to_nat (Z.of_nat (length l) + -1)) with (Nat.pred (length l)) in H by lia.
  destruct (lookup_lt_is_Some_2 l (Nat.pred (length l)) ltac:(lia)) as [y Hy].
  rewrite Hy. f_equal. by rewrite (nth_lookup_Some _ _ x y Hy) in H.
Qed.

(** The logit of vocabulary entry [v] as the specification writes it *)
Lemma project_spec (last_hidden wte logits : list Z) (vocab_size n_embd : Z) :
  project last_hidden wte vocab_size n_embd = Ok logits ->
  logits =
    map (fun v =>
           Py.sum (map (fun i => nth (Z.to_nat i) last_hidden 0
                                 * nth (Z.to_nat (v * n_embd + i)) wte 0 / SCALE)
                       (range n_embd)))
        (range vocab_size).
Proof.
  intros H. unfold project in H. apply (mapM_ok_pure _ _ _ _ H).
  intros v s Hv Hs. apply in_range in Hv.
  apply bind_ok_inv in Hs as (terms & Hterms & [= <-]). f_equal.
  apply (mapM_ok_pure _ _ _ _ Hterms).
  intros i y Hi Hy. apply in_range in Hi.
  apply bind_ok_inv in Hy as (x & Hx & Hy).
  apply bind_ok_inv in Hy as (w & Hw & [= <-]).
  rewrite (getitem_nonneg_inv _ _ _ 0 Hx) by lia.
  rewrite (getitem_nonneg_inv _ _ _ 0 Hw) by nia. reflexivity.
Qed.

End Forward.

(** ** Shapes: no index of a well-formed model is out of range *)

Section Shapes.

Lemma getitem_ok {A : Type} (l : list A) (i : Z) :
  0 <= i < len l -> exists x, getitem l i = Ok x /\ In x l.
Proof.
  intros Hi. unfold getitem, len in *.
  destruct (Z.ltb_spec i 0); [lia|]. destruct (Z.ltb_spec i 0); [lia|].
  destruct (lookup_lt_is_Some_2 l (Z.to_nat i) ltac:(lia)) as [x Hx].
  rewrite Hx. exists x. split; [done|].
  apply list_elem_of_In. by eapply list_elem_of_lookup_2.
Qed.

Lemma getitem_row (m : list (list Z)) (r c t : Z) :
  shape m r c -> 0 <= t < r -> exists row, getitem m t = Ok row /\ len row = c.
Proof.
  intros [Hr Hc] Ht. destruct (getitem_ok m t ltac:(lia)) as (row & Hrow & Hin).
  exists row. split; [done|]. by apply (proj1 (List.Forall_forall _ _) Hc).
Qed.

Lemma getitem2_ok (m : list (list Z)) (r c t j : Z) :
  shape m r c -> 0 <= t < r -> 0 <= j < c -> exists x, getitem2 m t j = Ok x.
Proof.
  intros Hm Ht Hj. destruct (getitem_row m r c t Hm Ht) as (row & Hrow & Hlen).
  unfold getitem2. rewrite Hrow. simpl.
  destruct (getitem_ok row j ltac:(lia)) as (x & Hx & _). eauto.
Qed.

Lemma mapM_range_shape (f : Z -> result (list Z)) (r c : Z) :
  0 <= r ->
  (forall t, 0 <= t < r -> exists row, f t = Ok row /\ len row = c) ->
  exists m, mapM f (range r) = Ok m /\ shape m r c.
Proof.
  intros Hr H.
  destruct (mapM_range_total f (fun row => len row = c) r H) as (m & Hm & Hlen & Hall).
  exists m. split; [done|]. split; [lia | done].
Qed.

Lemma dot_col_ok (x : Z -> result Z) (w b : list Z) (in_dim out_dim i : Z) :
  (forall j, 0 <= j < in_dim -> exists v, x j = Ok v) ->
  len b = out_dim -> len w = in_dim * out_dim -> 0 <= i < out_dim ->
  exists s, dot_col x w b in_dim out_dim i = Ok s.
Proof.
  intros Hx Hb Hw Hi. unfold dot_col.
  destruct (getitem_ok b i ltac:(lia)) as (s0 & Hs0 & _). rewrite Hs0. simpl.
  destruct (foldM_total
              (fun s j => let* xj := x j in
                          let* wj := getitem w (j * out_dim + i) in
                          Ok (s + xj * wj / SCALE))
              (fun _ => True) (range in_dim) s0 I) as (r & Hr & _); [|eauto].
  intros s j Hj _. apply in_range in Hj.
  destruct (Hx j Hj) as [v ->]. simpl.
  destruct (getitem_ok w (j * out_dim + i) ltac:(nia)) as (wj & -> & _). simpl. eauto.
Qed.

(** One projection: a vector of width [out_dim] *)
Lemma linear_ok (x : Z -> result Z) (w b : list Z) (in_dim out_dim : Z) :
  (forall j, 0 <= j < in_dim -> exists v, x j = Ok v) ->
  len b = out_dim -> len w = in_dim * out_dim ->
  exists row, mapM (fun i => dot_col x w b in_dim out_dim i) (range out_dim) = Ok row
              /\ len row = out_dim.
Proof.
  intros Hx Hb Hw.
  destruct (mapM_range_total (fun i => dot_col x w b in_dim out_dim i) (fun _ => True) out_dim)
    as (row & Hrow & Hlen & _).
  { intros i Hi. destruct (dot_col_ok x w b in_dim out_dim i Hx Hb Hw Hi) as [s Hs]. eauto. }
  exists row. split; [done|]. unfold len in *. lia.
Qed.

End Shapes.

(** ** Attention on a well-shaped input *)

Section AttentionShapes.

Lemma foldM_app {A S : Type} (step : S -> A -> result S) (l1 l2 : list A) (s : S) :
  foldM step s (l1 ++ l2) = (let* s' := foldM step s l1 in foldM step s' l2).
Proof.
  revert s. induction l1 as [|x l1 IH]; intros s; simpl; [reflexivity|].
  destruct (step s x) as [s'|e]; simpl; [apply IH | reflexivity].
Qed.

Lemma foldM_range_inv {S : Type} (step : S -> Z -> result S) (I : Z -> S -> Prop) (n : Z) (s0 : S) :
  0 <= n -> I 0 s0 ->
  (forall k s, 0 <= k < n -> I k s -> exists s', step s k = Ok s' /\ I (k + 1) s') ->
  exists r, foldM step s0 (range n) = Ok r /\ I n r.
Proof.
  intros Hn H0. revert n Hn.
  apply (natlike_ind (fun n => (forall k s, 0 <= k < n -> I k s ->
           exists s', step s k = Ok s' /\ I (k + 1) s') ->
           exists r, foldM step s0 (range n) = Ok r /\ I n r)).
  - intros _. exists s0. split; [reflexivity | done].
  - intros n Hn IH Hstep. change (Z.succ n) with (n + 1) in *.
    replace (Z.succ n) with (n + 1) in * by lia.
    destruct IH as (r & Hr & HI); [intros k s Hk; apply Hstep; lia|].
    destruct (Hstep n r ltac:(lia) HI) as (r' & Hr' & HI').
    exists r'. rewrite range_succ, foldM_app, Hr by done. simpl. rewrite Hr'. done.
Qed.

Lemma extract_head_ok (qkv : list (list Z)) (n c D off : Z) :
  shape qkv n c -> 0 <= n -> 0 <= D -> 0 <= off -> off + D <= c ->
  exists Q, extract_head qkv n D off = Ok Q /\ shape Q n D.
Proof.
  intros Hqkv Hn HD Hoff Hc. unfold extract_head.
  apply mapM_range_shape; [done|]. intros t Ht.
  destruct (mapM_range_total (fun d => getitem2 qkv t (off + d)) (fun _ => True) D)
    as (row & Hrow & Hlen & _).
  { intros d Hd. destruct (getitem2_ok qkv n c t (off + d) Hqkv Ht ltac:(lia)) as [x Hx]. eauto. }
  exists row. split; [done | lia].
Qed.

Lemma attn_scores_ok (Q K : list (list Z)) (n D scale i : Z) :
  shape Q n D -> shape K n D -> scale <> 0 -> 0 <= i < n ->
  exists scores, attn_scores Q K n D scale i = Ok scores /\ len scores = n.
Proof.
  intros HQ HK Hscale Hi. unfold attn_scores.
  destruct (mapM_range_total
              (fun j => if j >? i then Ok (-1000000000)
                        else let* terms :=
                               mapM (fun d => let* q := getitem2 Q i d in
                                              let* k := getitem2 K j d in
                                              Ok (q * k / SCALE)) (range D) in
                             floordiv (Py.sum terms * SCALE) scale)
              (fun _ => True) n) as (scores & Hs & Hlen & _).
  - intros j Hj. destruct (j >? i); [eauto|].
    destruct (mapM_range_total
                (fun d => let* q := getitem2 Q i d in
                          let* k := getitem2 K j d in
                          Ok (q * k / SCALE)) (fun _ => True) D) as (terms & -> & _).
    + intros d Hd.
      destruct (getitem2_ok Q n D i d HQ Hi Hd) as [q ->].
      destruct (getitem2_ok K n D j d HK Hj Hd) as [k ->]. simpl. eauto.
    + simpl. unfold floordiv. destruct (Z.eqb_spec scale 0); [done | eauto].
  - exists scores. split; [done | lia].
Qed.

Lemma fp_softmax_ok (arr : list Z) :
  arr <> [] -> exists probs, fp_softmax arr = Ok probs /\ len probs = len arr.
Proof.
  intros Hne. destruct (fp_softmax_bounds arr Hne) as (out & Hout & Hlen & _).
  exists out. split; [done | unfold len; by rewrite Hlen].
Qed.

Lemma attn_apply_ok (probs : list Z) (V : list (list Z)) (n D : Z) :
  len probs = n -> shape V n D -> 0 <= D ->
  exists out, attn_apply probs V n D = Ok out /\ len out = D.
Proof.
  intros Hp HV HD. unfold attn_apply.
  destruct (mapM_range_total
              (fun d => let* terms :=
                          mapM (fun j => let* p := getitem probs j in
                                         let* v := getitem2 V j d in
                                         Ok (p * v / SCALE)) (range n) in
                        Ok (Py.sum terms))
              (fun _ => True) D) as (out & Hout & Hlen & _).
  - intros d Hd.
    destruct (mapM_range_total
                (fun j => let* p := getitem probs j in
                          let* v := getitem2 V j d in
                          Ok (p * v / SCALE)) (fun _ => True) n) as (terms & -> & _).
    + intros j Hj.
      destruct (getitem_ok probs j ltac:(lia)) as (p & -> & _). simpl.
      destruct (getitem2_ok V n D j d HV Hj Hd) as [v ->]. simpl. eauto.
    + simpl. eauto.
  - exists out. split; [done | lia].
Qed.

Lemma attn_row_ok (Q K V : list (list Z)) (n D scale i : Z) :
  shape Q n D -> shape K n D -> shape V n D -> scale <> 0 -> 0 <= D -> 0 <= i < n ->
  exists out, attn_row Q K V n D scale i = Ok out /\ len out = D.
Proof.
  intros HQ HK HV Hscale HD Hi. unfold attn_row.
  destruct (attn_scores_ok Q K n D scale i HQ HK Hscale Hi) as (scores & -> & Hlen). simpl.
  destruct (fp_softmax_ok scores) as (probs & -> & Hplen).
  { intros ->. unfold len in Hlen. simpl in Hlen. lia. }
  simpl. apply attn_apply_ok; [lia | done | done].
Qed.

Lemma attn_head_ok (qkv : list (list Z)) (n E D scale h : Z) :
  shape qkv n (3 * E) -> 0 <= n -> 0 <= D -> 0 <= h -> h * D + D <= E -> scale <> 0 ->
  exists ho, attn_head qkv n E D scale h = Ok ho /\ shape ho n D.
Proof.
  intros Hqkv Hn HD Hh HE Hscale. unfold attn_head.
  destruct (extract_head_ok qkv n (3 * E) D (h * D) Hqkv Hn HD ltac:(nia) ltac:(nia))
    as (Q & -> & HQ). simpl.
  destruct (extract_head_ok qkv n (3 * E) D (E + h * D) Hqkv Hn HD ltac:(nia) ltac:(nia))
    as (K & -> & HK). simpl.
  destruct (extract_head_ok qkv n (3 * E) D (2 * E + h * D) Hqkv Hn HD ltac:(nia) ltac:(nia))
    as (V & -> & HV). simpl.
  apply mapM_range_shape; [done|]. intros i Hi. by apply attn_row_ok.
Qed.

End AttentionShapes.

(** ** The blocks of a well-formed model never raise *)

Section BlockShapes.

Variables (config : config_t) (weights : weights_t) (E H L V W : Z).
Hypothesis Hwf : well_formed config weights E H L V W.

Lemma wf_head_split : 0 < E / H /\ H * (E / H) = E.
Proof.
  destruct Hwf. destruct wf_positive0 as (HE & HH & _).
  assert (H * (E / H) = E) as Heq.
  { pose proof (Z.div_mod E H ltac:(lia)). lia. }
  split; [nia | done].
Qed.

Lemma getitem_head (aho : list (list (list Z))) (n D h t : Z) :
  len aho = H -> Forall (fun ho => shape ho n D) aho -> 0 <= h < H -> 0 <= t < n ->
  exists out_vec, getitem2 aho h t = Ok out_vec /\ len out_vec = D.
Proof.
  intros Hlen Hall Hh Ht. unfold getitem2.
  destruct (getitem_ok aho h ltac:(lia)) as (ho & -> & Hin). cbn [Py.bind].
  apply (getitem_row ho n D t); [|done].
  by apply (proj1 (List.Forall_forall _ _) Hall).
Qed.

Lemma multi_head_attention_ok (hidden : list (list Z)) (layer n : Z) :
  0 <= layer < L -> 0 <= n -> shape hidden n E ->
  exists out, multi_head_attention hidden layer config weights = Ok out /\ shape out n E.
Proof.
  intros Hlayer Hn Hhid.
  destruct wf_head_split as [HDpos HHD].
  destruct (wf_layers _ _ _ _ _ _ _ Hwf layer Hlayer)
    as (_ & _ & (aw & Haw & Hawl) & (ab & Hab & Habl) & (pw & Hpw & Hpwl) & (pb & Hpb & Hpbl) & _).
  destruct Hwf. destruct wf_positive0 as (HE & HH & _).
  unfold multi_head_attention.
  rewrite (lookup_key_ok _ _ _ wf_n_embd0), (lookup_key_ok _ _ _ wf_n_head0),
    (lookup_key_ok _ _ _ wf_head_dim0), (lookup_key_ok _ _ _ Haw), (lookup_key_ok _ _ _ Hab),
    (lookup_key_ok _ _ _ Hpw), (lookup_key_ok _ _ _ Hpb).
  cbn [Py.bind]. replace (len hidden) with n by (symmetry; apply Hhid).
  (* projection to Q, K, V *)
  destruct (mapM_range_shape
              (fun t => mapM (fun i => dot_col (getitem2 hidden t) aw ab E (3 * E) i)
                             (range (3 * E))) n (3 * E) Hn) as (qkv & -> & Hqkv).
  { intros t Ht. apply linear_ok; [|done|done].
    intros j Hj. by apply (getitem2_ok hidden n E). }
  cbn [Py.bind].
  destruct (fp_sqrt_ok (E / H * SCALE)) as (scale & -> & _ & Hscale).
  specialize (Hscale ltac:(pose proof SCALE_pos; nia)). cbn [Py.bind].
  (* the heads *)
  destruct (mapM_range_total
              (fun h => attn_head qkv n E (E / H) scale h) (fun ho => shape ho n (E / H)) H)
    as (aho & -> & Hlen & Hall).
  { intros h Hh. apply attn_head_ok; [done | done | lia | lia | nia | lia]. }
  cbn [Py.bind].
  (* concatenation *)
  destruct (mapM_range_shape
              (fun t => foldM (fun row h => let* out_vec := getitem2 aho h t in
                                            Ok (row ++ out_vec)) [] (range H)) n E Hn)
    as (concat & -> & Hconcat).
  { intros t Ht.
    destruct (foldM_range_inv
                (fun row h => let* out_vec := getitem2 aho h t in Ok (row ++ out_vec))
                (fun k row => len row = k * (E / H)) H []) as (row & Hrow & Hrlen).
    - lia.
    - reflexivity.
    - intros k row Hk Hrow.
      destruct (getitem_head aho n (E / H) k t ltac:(lia) Hall Hk Ht) as (v & -> & Hv).
      cbn [Py.bind]. eexists. split; [reflexivity|].
      unfold len in *. rewrite length_app. lia.
    - exists row. split; [done | lia]. }
  cbn [Py.bind].
  (* output projection *)
  apply mapM_range_shape; [done|]. intros t Ht. apply linear_ok; [|done|done].
  intros j Hj. by apply (getitem2_ok concat n E).
Qed.

Lemma feed_forward_ok (hidden : list (list Z)) (layer n : Z) :
  0 <= layer < L -> 0 <= n -> shape hidden n E ->
  exists out, feed_forward hidden layer config weights = Ok out /\ shape out n E.
Proof.
  intros Hlayer Hn Hhid.
  destruct (wf_layers _ _ _ _ _ _ _ Hwf layer Hlayer)
    as (_ & _ & _ & _ & _ & _ & _ & _ &
        (w1 & Hw1 & Hw1l) & (b1 & Hb1 & Hb1l) & (w2 & Hw2 & Hw2l) & (b2 & Hb2 & Hb2l)).
  destruct Hwf. destruct wf_positive0 as (HE & _).
  unfold feed_forward.
  rewrite (lookup_key_ok _ _ _ wf_n_embd0), (lookup_key_ok _ _ _ wf_hidden_dim0),
    (lookup_key_ok _ _ _ Hw1), (lookup_key_ok _ _ _ Hb1),
    (lookup_key_ok _ _ _ Hw2), (lookup_key_ok _ _ _ Hb2).
  cbn [Py.bind]. replace (len hidden) with n by (symmetry; apply Hhid).
  apply mapM_range_shape; [done|]. intros t Ht.
  destruct (mapM_range_total
              (fun i => let* s := dot_col (getitem2 hidden t) w1 b1 E (4 * E) i in
                        Ok (fp_gelu s)) (fun _ => True) (4 * E))
    as (mid & -> & Hmid & _).
  { intros i Hi.
    destruct (dot_col_ok (getitem2 hidden t) w1 b1 E (4 * E) i) as [s ->]; [|done|done|done|].
    - intros j Hj. by apply (getitem2_ok hidden n E).
    - cbn [Py.bind]. eauto. }
  cbn [Py.bind]. apply linear_ok; [|done|done].
  intros j Hj. destruct (getitem_ok mid j ltac:(lia)) as (x & -> & _). eauto.
Qed.

Lemma residual_ok (a b : list (list Z)) (n : Z) :
  0 <= n -> shape a n E -> shape b n E ->
  exists out, residual a b n = Ok out /\ shape out n E.
Proof.
  intros Hn Ha Hb. unfold residual. apply mapM_range_shape; [done|]. intros t Ht.
  destruct (getitem_row a n E t Ha Ht) as (row & -> & Hrow). cbn [Py.bind]. rewrite Hrow.
  destruct (mapM_range_total
              (fun i => let* x := getitem2 a t i in
                        let* y := getitem2 b t i in Ok (x + y)) (fun _ => True) E)
    as (out & -> & Hout & _).
  - intros i Hi.
    destruct (getitem2_ok a n E t i Ha Ht Hi) as [x ->].
    destruct (getitem2_ok b n E t i Hb Ht Hi) as [y ->]. cbn [Py.bind]. eauto.
  - exists out. split; [done|]. destruct Hwf. lia.
Qed.

Lemma normed_ok (hidden : list (list Z)) (gamma beta : list Z) (n : Z) :
  0 <= n -> shape hidden n E -> len gamma = E -> len beta = E ->
  exists out,
    mapM (fun t => let* row := getitem hidden t in layer_norm row gamma beta) (range n) = Ok out
    /\ shape out n E.
Proof.
  intros Hn Hhid Hg Hb. apply mapM_range_shape; [done|]. intros t Ht.
  destruct (getitem_row hidden n E t Hhid Ht) as (row & -> & Hrow). cbn [Py.bind].
  destruct (layer_norm_ok row gamma beta) as (out & Hout & Hlen); [|lia|lia|].
  - intros ->. unfold len in Hrow. simpl in Hrow. destruct Hwf. lia.
  - exists out. split; [done | lia].
Qed.

Lemma transformer_block_ok (hidden : list (list Z)) (layer n : Z) :
  0 <= layer < L -> 0 <= n -> shape hidden n E ->
  exists out, transformer_block hidden layer config weights = Ok out /\ shape out n E.
Proof.
  intros Hlayer Hn Hhid.
  destruct (wf_layers _ _ _ _ _ _ _ Hwf layer Hlayer)
    as ((g1 & Hg1 & Hg1l) & (b1 & Hb1 & Hb1l) & _ & _ & _ & _ &
        (g2 & Hg2 & Hg2l) & (b2 & Hb2 & Hb2l) & _).
  unfold transformer_block.
  rewrite (lookup_key_ok _ _ _ Hg1), (lookup_key_ok _ _ _ Hb1),
    (lookup_key_ok _ _ _ Hg2), (lookup_key_ok _ _ _ Hb2).
  cbn [Py.bind]. replace (len hidden) with n by (symmetry; apply Hhid).
  destruct (normed_ok hidden g1 b1 n Hn Hhid Hg1l Hb1l) as (normed1 & -> & Hn1). cbn [Py.bind].
  destruct (multi_head_attention_ok normed1 layer n Hlayer Hn Hn1) as (attn & -> & Hattn).
  cbn [Py.bind].
  destruct (residual_ok hidden attn n Hn Hhid Hattn) as (res1 & -> & Hres1). cbn [Py.bind].
  destruct (normed_ok res1 g2 b2 n Hn Hres1 Hg2l Hb2l) as (normed2 & -> & Hn2). cbn [Py.bind].
  destruct (feed_forward_ok normed2 layer n Hlayer Hn Hn2) as (ffn & -> & Hffn). cbn [Py.bind].
  by apply residual_ok.
Qed.

Lemma blocks_ok (hidden : list (list Z)) (n : Z) :
  0 <= n -> shape hidden n E ->
  exists out, blocks hidden L config weights = Ok out /\ shape out n E.
Proof.
  intros Hn Hhid. unfold blocks.
  apply (foldM_range_inv (fun hidden layer => transformer_block hidden layer config weights)
           (fun _ h => shape h n E)); [destruct Hwf; lia | done |].
  intros k h Hk Hh. by apply transformer_block_ok.
Qed.

End BlockShapes.

(** ** The forward pass of a well-formed model *)

Section ForwardTotal.

Lemma getitem_in_range {A : Type} (l : list A) (i : Z) :
  - len l <= i < len l -> exists x, getitem l i = Ok x /\ In x l.
Proof.
  intros Hi. destruct (Z.lt_ge_cases i 0).
  - destruct l as [|d l]; [unfold len in Hi; simpl in Hi; lia|].
    rewrite (getitem_negative _ i d) by lia. eexists. split; [reflexivity|].
    apply nth_In. unfold len in *. lia.
  - apply getitem_ok. lia.
Qed.

Lemma getitem_wrap (wte : list Z) (E V tok i : Z) :
  len wte = V * E -> - V <= tok -> 0 <= i < E ->
  getitem wte (wrap_token V tok * E + i) = getitem wte (tok * E + i).
Proof.
  intros Hlen Htok Hi. unfold wrap_token.
  destruct (Z.ltb_spec tok 0); [|reflexivity].
  unfold getitem. rewrite Hlen.
  destruct (Z.ltb_spec ((tok + V) * E + i) 0); [nia|].
  destruct (Z.ltb_spec (tok * E + i) 0); [|nia].
  replace (V * E + (tok * E + i)) with ((tok + V) * E + i) by lia.
  destruct (Z.ltb_spec ((tok + V) * E + i) 0); [nia | reflexivity].
Qed.

Lemma embed_wrap (toks wte wpe : list Z) (E V : Z) :
  len wte = V * E -> Forall (fun tok => - V <= tok) toks ->
  embed (map (wrap_token V) toks) E wte wpe = embed toks E wte wpe.
Proof.
  intros Hlen Hall. unfold embed.
  replace (len (map (wrap_token V) toks)) with (len toks)
    by (unfold len; by rewrite length_map).
  generalize (range (len toks)) as idx.
  induction Hall as [|tok toks Htok _ IH]; intros idx; [reflexivity|].
  destruct idx as [|t idx]; [reflexivity|]. simpl.
  rewrite IH. f_equal. apply mapM_ext. intros i Hi. apply in_range in Hi.
  by rewrite (getitem_wrap wte E V tok i).
Qed.

Lemma slice_to_map {A B : Type} (f : A -> B) (l : list A) (k : Z) :
  slice_to (map f l) k = map f (slice_to l k).
Proof.
  unfold slice_to, len. rewrite length_map.
  destruct (k <? 0); symmetry; apply fmap_take.
Qed.

Lemma truncate_map (f : Z -> Z) (tokens : list Z) (config : config_t) :
  truncate (map f tokens) config =
    (let* toks := truncate tokens config in Ok (map f toks)).
Proof.
  unfold truncate. replace (len (map f tokens)) with (len tokens)
    by (unfold len; by rewrite length_map).
  destruct (lookup_key config "block_size") as [W|e]; [|reflexivity]. simpl.
  destruct (len tokens >? W); [|reflexivity]. simpl. by rewrite slice_to_map.
Qed.

Lemma truncate_Forall (P : Z -> Prop) (tokens toks : list Z) (config : config_t) :
  truncate tokens config = Ok toks -> Forall P tokens -> Forall P toks.
Proof.
  unfold truncate. intros H Hall.
  destruct (lookup_key config "block_size") as [W|e]; [|discriminate]. simpl in H.
  destruct (len tokens >? W); [|by injection H as <-]. simpl in H. injection H as <-.
  unfold slice_to. destruct (W <? 0); by apply Forall_take.
Qed.

Lemma forward_wrap (tokens wte : list Z) (config : config_t) (weights : weights_t) (E V : Z) :
  config !! "n_embd" = Some E -> weights !! "wte" = Some wte -> len wte = V * E ->
  Forall (fun tok => - V <= tok) tokens ->
  forward (map (wrap_token V) tokens) config weights = forward tokens config weights.
Proof.
  intros HE Hwte Hlen Hall. unfold forward. rewrite truncate_map.
  destruct (truncate tokens config) as [toks|e] eqn:Htr; [|reflexivity]. cbn [Py.bind].
  rewrite (lookup_key_ok _ _ _ HE). cbn [Py.bind].
  destruct (lookup_key config "vocab_size"); [|reflexivity]. cbn [Py.bind].
  destruct (lookup_key config "n_layer"); [|reflexivity]. cbn [Py.bind].
  rewrite (lookup_key_ok _ _ _ Hwte). cbn [Py.bind].
  destruct (lookup_key weights "wpe"); [|reflexivity]. cbn [Py.bind].
  destruct (lookup_key weights "ln_f_w"); [|reflexivity]. cbn [Py.bind].
  destruct (lookup_key weights "ln_f_b"); [|reflexivity]. cbn [Py.bind].
  rewrite (embed_wrap toks wte _ E V Hlen); [reflexivity|].
  by apply (truncate_Forall _ tokens toks config).
Qed.

Lemma truncate_ok (tokens : list Z) (config : config_t) (W : Z) :
  config !! "block_size" = Some W -> 0 < W -> tokens <> [] ->
  exists toks, truncate tokens config = Ok toks /\ 0 < len toks <= W.
Proof.
  intros HW Hpos Hne. pose proof (len_pos_of_ne tokens Hne).
  destruct (Z.lt_ge_cases W (len tokens)).
  - rewrite (truncate_long tokens config W) by (done || lia).
    eexists. split; [reflexivity|]. unfold len in *. rewrite length_take. lia.
  - rewrite (truncate_short tokens config W) by (done || lia). eauto.
Qed.

Lemma embed_ok (toks wte wpe : list Z) (E V W : Z) :
  0 < E -> len wte = V * E -> len wpe = W * E -> len toks <= W ->
  Forall (fun tok => - V <= tok < V) toks ->
  exists hidden, embed toks E wte wpe = Ok hidden /\ shape hidden (len toks) E.
Proof.
  intros HE Hwte Hwpe Hlen Hall. unfold embed.
  destruct (mapM_total
              (fun '(t, tok) =>
                 mapM (fun i => let* e := getitem wte (tok * E + i) in
                                let* p := getitem wpe (t * E + i) in Ok (e + p)) (range E))
              (fun _ row => len row = E) (combine (range (len toks)) toks))
    as (hidden & Hh & HF).
  - intros [t tok] Hin.
    pose proof (in_combine_l _ _ _ _ Hin) as Ht. apply in_range in Ht.
    pose proof (in_combine_r _ _ _ _ Hin) as Htok.
    apply (proj1 (List.Forall_forall _ _) Hall) in Htok.
    destruct (mapM_range_total
                (fun i => let* e := getitem wte (tok * E + i) in
                          let* p := getitem wpe (t * E + i) in Ok (e + p))
                (fun _ => True) E) as (row & Hrow & Hrl & _).
    + intros i Hi.
      destruct (getitem_in_range wte (tok * E + i) ltac:(nia)) as (e & -> & _). cbn [Py.bind].
      destruct (getitem_ok wpe (t * E + i) ltac:(nia)) as (q & -> & _). cbn [Py.bind]. eauto.
    + exists row. split; [done | lia].
  - exists hidden. split; [done|]. split.
    + unfold len. rewrite <- (Forall2_length _ _ _ HF), length_combine, range_length.
      unfold len. lia.
    + clear Hh. induction HF; constructor; auto.
Qed.

Lemma project_ok (last_hidden wte : list Z) (V E : Z) :
  0 <= V -> len last_hidden = E -> len wte = V * E ->
  exists logits, project last_hidden wte V E = Ok logits /\ len logits = V.
Proof.
  intros HV Hlh Hwte. unfold project.
  destruct (mapM_range_total
              (fun v => let* terms :=
                          mapM (fun i => let* x := getitem last_hidden i in
                                         let* w := getitem wte (v * E + i) in
                                         Ok (x * w / SCALE)) (range E) in
                        Ok (Py.sum terms)) (fun _ => True) V) as (logits & Hl & Hlen & _).
  - intros v Hv.
    destruct (mapM_range_total
                (fun i => let* x := getitem last_hidden i in
                          let* w := getitem wte (v * E + i) in
                          Ok (x * w / SCALE)) (fun _ => True) E) as (terms & -> & _).
    + intros i Hi.
      destruct (getitem_ok last_hidden i ltac:(lia)) as (x & -> & _). cbn [Py.bind].
      destruct (getitem_ok wte (v * E + i) ltac:(nia)) as (w & -> & _). cbn [Py.bind]. eauto.
    + cbn [Py.bind]. eauto.
  - exists logits. split; [done | lia].
Qed.

Lemma forward_ok (tokens : list Z) (config : config_t) (weights : weights_t) (E H L V W : Z) :
  well_formed config weights E H L V W -> tokens <> [] ->
  Forall (fun tok => - V <= tok < V) tokens ->
  exists logits, forward tokens config weights = Ok logits /\ len logits = V.
Proof.
  intros Hwf Hne Hall. pose proof Hwf as Hwf'. destruct Hwf'.
  destruct wf_positive0 as (HE & HH & HL & HV & HW).
  destruct wf_wte0 as (wte & Hwte & Hwtel). destruct wf_wpe0 as (wpe & Hwpe & Hwpel).
  destruct wf_ln_f_w0 as (g & Hg & Hgl). destruct wf_ln_f_b0 as (b & Hb & Hbl).
  unfold forward.
  destruct (truncate_ok tokens config W wf_block_size0 HW Hne) as (toks & Htr & Hlen).
  rewrite Htr. cbn [Py.bind].
  rewrite (lookup_key_ok _ _ _ wf_n_embd0), (lookup_key_ok _ _ _ wf_vocab_size0),
    (lookup_key_ok _ _ _ wf_n_layer0), (lookup_key_ok _ _ _ Hwte), (lookup_key_ok _ _ _ Hwpe),
    (lookup_key_ok _ _ _ Hg), (lookup_key_ok _ _ _ Hb).
  cbn [Py.bind].
  destruct (embed_ok toks wte wpe E V W HE Hwtel Hwpel ltac:(lia)) as (h0 & -> & Hh0).
  { by apply (truncate_Forall _ tokens toks config). }
  cbn [Py.bind].
  destruct (blocks_ok config weights E H L V W Hwf h0 (len toks) ltac:(lia) Hh0)
    as (h & -> & Hh).
  cbn [Py.bind].
  destruct (getitem_in_range h (-1)) as (last & -> & Hin); [destruct Hh; lia|].
  cbn [Py.bind].
  assert (len last = E) as Hlast
    by (by apply (proj1 (List.Forall_forall _ _) (proj2 Hh))).
  destruct (layer_norm_ok last g b) as (lh & -> & Hlh); [|lia|lia|].
  { intros ->. unfold len in Hlast. simpl in Hlast. lia. }
  cbn [Py.bind]. apply project_ok; lia.
Qed.

End ForwardTotal.

(** ** Token ids that the embedding lookup cannot read *)

Section TokenRange.

Lemma getitem_err {A : Type} (l : list A) (i : Z) (e : exn) :
  getitem l i = Err e -> e = IndexError.
Proof.
  unfold getitem. destruct (_ <? 0); [by intros [= <-]|].
  destruct (l !! _); [discriminate | by intros [= <-]].
Qed.

Lemma mapM_fails {A B : Type} (f : A -> result B) (l : list A) (x : A) :
  In x l -> (exists e, f x = Err e) -> exists e, mapM f l = Err e.
Proof.
  intros Hin [e He]. induction l as [|y l IH]; [destruct Hin|]. simpl.
  destruct Hin as [->|Hin].
  - rewrite He. simpl. eauto.
  - destruct (f y); simpl; [|eauto].
    destruct (IH Hin) as [e' ->]. simpl. eauto.
Qed.

Lemma mapM_err_kind {A B : Type} (f : A -> result B) (l : list A) (P : exn -> Prop) (e : exn) :
  (forall x e', In x l -> f x = Err e' -> P e') -> mapM f l = Err e -> P e.
Proof.
  induction l as [|x l IH]; intros H; simpl; [discriminate|].
  destruct (f x) as [y|e'] eqn:Hx; simpl.
  - destruct (mapM f l) as [ys|e''] eqn:Hl; simpl; [discriminate|].
    intros [= <-]. apply IH; [intros; eapply H; [by right | done] | done].
  - intros [= <-]. eapply H; [by left | done].
Qed.

Lemma embed_err (toks wte wpe : list Z) (E : Z) (e : exn) :
  embed toks E wte wpe = Err e -> e = IndexError.
Proof.
  unfold embed. apply (mapM_err_kind _ _ (fun e => e = IndexError)). intros [t tok] e' _.
  apply (mapM_err_kind _ _ (fun e => e = IndexError)). intros i e'' _ H.
  destruct (getitem wte (tok * E + i)) eqn:Hw; simpl in H.
  - destruct (getitem wpe (t * E + i)) eqn:Hp; simpl in H; [discriminate|].
    injection H as <-. by apply getitem_err in Hp.
  - injection H as <-. by apply getitem_err in Hw.
Qed.

Lemma in_enumerate (toks : list Z) (tok : Z) :
  In tok toks -> exists t, In (t, tok) (combine (range (len toks)) toks).
Proof.
  intros Hin. destruct (In_nth toks tok 0 Hin) as (k & Hk & Hnth).
  exists (nth k (range (len toks)) 0). rewrite <- Hnth at 1.
  rewrite <- combine_nth by (rewrite range_length; unfold len; lia).
  apply nth_In. rewrite length_combine, range_length. unfold len. lia.
Qed.

Lemma embed_fails (toks wte wpe : list Z) (E V tok : Z) :
  0 < E -> len wte = V * E -> In tok toks -> tok < - V \/ V <= tok ->
  embed toks E wte wpe = Err IndexError.
Proof.
  intros HE Hlen Hin Htok.
  destruct (in_enumerate toks tok Hin) as [t Ht].
  destruct (mapM_fails
              (fun '(t, tok) =>
                 mapM (fun i => let* e := getitem wte (tok * E + i) in
                                let* p := getitem wpe (t * E + i) in Ok (e + p)) (range E))
              (combine (range (len toks)) toks) (t, tok) Ht) as [e He].
  - apply (mapM_fails _ (range E) 0); [apply in_range; lia|].
    exists IndexError. rewrite getitem_out_of_range by nia. reflexivity.
  - unfold embed. rewrite He. f_equal. by apply (embed_err toks wte wpe E).
Qed.

Lemma truncate_keeps (tokens : list Z) (config : config_t) (W : Z) (p : nat) (tok : Z) :
  config !! "block_size" = Some W -> tokens !! p = Some tok -> Z.of_nat p < W ->
  exists toks, truncate tokens config = Ok toks /\ In tok toks.
Proof.
  intros HW Hp HpW. destruct (Z.lt_ge_cases W (len tokens)).
  - rewrite (truncate_long tokens config W) by (done || lia).
    eexists. split; [reflexivity|]. apply list_elem_of_In.
    apply (list_elem_of_lookup_2 _ p). rewrite lookup_take_lt by lia. done.
  - rewrite (truncate_short tokens config W) by (done || lia).
    eexists. split; [reflexivity|]. apply list_elem_of_In. by apply (list_elem_of_lookup_2 _ p).
Qed.

End TokenRange.

(** ** The causal mask *)

Section CausalMask.

Lemma mapM_range_lookup {B : Type} (f : Z -> result B) (n j : Z) (ys : list B) :
  mapM f (range n) = Ok ys -> 0 <= j < n ->
  exists y, ys !! Z.to_nat j = Some y /\ f j = Ok y.
Proof.
  intros H Hj. apply mapM_ok_inv in H.
  pose proof (range_lookup n (Z.to_nat j) ltac:(lia)) as Hr.
  destruct (Forall2_lookup_l _ _ _ _ _ H Hr) as (y & Hy & Hf).
  exists y. split; [done|]. by rewrite Z2Nat.id in Hf by lia.
Qed.

Lemma attn_scores_future (Q K : list (list Z)) (n D scale i j : Z) (scores : list Z) :
  attn_scores Q K n D scale i = Ok scores -> i < j < n -> 0 <= j ->
  scores !! Z.to_nat j = Some (-1000000000).
Proof.
  intros H Hj Hj0. unfold attn_scores in H.
  destruct (mapM_range_lookup _ n j scores H ltac:(lia)) as (y & Hy & Hf).
  simpl in Hf. destruct (Z.gtb_spec j i); [|lia]. by injection Hf as <-.
Qed.

Lemma fp_softmax_lookup (arr probs : list Z) (k : nat) (x : Z) :
  fp_softmax arr = Ok probs -> arr !! k = Some x ->
  exists max_val, Py.max arr = Ok max_val /\
    probs !! k = Some (fp_exp (x - max_val) * SCALE / snd (softmax_exps arr max_val)).
Proof.
  intros H Hk. destruct (Py.max arr) as [m|e] eqn:Hmax.
  - exists m. split; [done|]. rewrite (fp_softmax_eq arr m Hmax) in H. injection H as <-.
    rewrite softmax_exps_eq. simpl. rewrite !list_lookup_fmap, Hk. reflexivity.
  - unfold fp_softmax in H. rewrite Hmax in H. discriminate.
Qed.

Lemma fp_softmax_masked (arr probs : list Z) (k k' : nat) (x x' : Z) :
  fp_softmax arr = Ok probs -> arr !! k = Some x -> arr !! k' = Some x' ->
  x + 8 * SCALE < x' -> probs !! k = Some 0.
Proof.
  intros H Hk Hk' Hlt.
  destruct (fp_softmax_lookup arr probs k x H Hk) as (m & Hmax & ->).
  destruct (max_spec arr m Hmax) as [_ Hall].
  assert (x' <= m) as Hle.
  { apply (proj1 (List.Forall_forall _ _) Hall). apply list_elem_of_In.
    by apply (list_elem_of_lookup_2 _ k'). }
  rewrite fp_exp_low by lia. reflexivity.
Qed.

End CausalMask.

(** ** The statements of the specification about the softmax *)

Section SoftmaxClaims.

(** C6: for every non-empty list of scores the outputs of [fp_softmax] are
    all non-negative and their sum is within the length of the list of
    [SCALE]. *)
Theorem fp_softmax_sum_bounds (arr : list Z) :
  arr <> [] ->
  exists out, fp_softmax arr = Ok out /\
    Forall (fun p => 0 <= p) out /\
    SCALE - len arr <= Py.sum out <= SCALE + len arr.
Proof.
  intros Hne. destruct (fp_softmax_bounds arr Hne) as (out & Hout & _ & Hall & Hlo & Hhi).
  exists out. split; [done|]. split; [done|]. unfold len in *. lia.
Qed.

Lemma fp_softmax_sum_bounds_witness :
  [1; 2; 3] <> [] /\
  exists out, fp_softmax [1; 2; 3] = Ok out /\
    Forall (fun p => 0 <= p) out /\
    SCALE - len [1; 2; 3] <= Py.sum out <= SCALE + len [1; 2; 3].
Proof. split; [discriminate | apply (fp_softmax_sum_bounds [1; 2; 3]); discriminate]. Defined.

(** C10: for every non-empty list of scores the running total of the first
    loop of [fp_softmax] is strictly positive: the maximum is an element of
    the list, it is shifted to 0 and [fp_exp 0 = SCALE].  Hence the second
    loop always takes the branch that divides by the total, and the
    uniform fallback is never returned. *)
Theorem softmax_total_positive (arr : list Z) :
  arr <> [] ->
  exists max_val,
    Py.max arr = Ok max_val /\ In max_val arr /\
    fp_exp (max_val - max_val) = SCALE /\
    0 < snd (softmax_exps arr max_val) /\
    fp_softmax arr =
      Ok (map (fun e => e * SCALE / snd (softmax_exps arr max_val))
              (fst (softmax_exps arr max_val))).
Proof.
  intros Hne. destruct (max_ok arr Hne) as [m Hmax]. exists m.
  destruct (max_spec arr m Hmax) as [Hin _].
  pose proof (softmax_total_ge arr m Hmax). pose proof SCALE_pos.
  split; [done|]. split; [done|]. split; [rewrite Z.sub_diag; apply fp_exp_0|].
  split; [lia | by apply fp_softmax_eq].
Qed.

Lemma softmax_total_positive_witness :
  [-1000000000; -1000000000] <> [] /\
  fp_softmax [-1000000000; -1000000000] = Ok [5000; 5000].
Proof.
  split; [discriminate|].
  destruct (softmax_total_positive [-1000000000; -1000000000] ltac:(discriminate))
    as (m & Hmax & _ & _ & _ & ->).
  injection Hmax as <-. vm_compute. reflexivity.
Defined.

End SoftmaxClaims.

(** ** The statement of the specification about layer normalization *)

Section LayerNormClaims.

(** C4: for an input vector of positive width with a scale vector [gamma]
    and a bias vector [beta] of the same width, [layer_norm] returns at
    index [i] the value
    [((inp[i] - mean) * SCALE // std) * gamma[i] // SCALE + beta[i]], where
    [mean] is the floored average, the variance is the floored average of
    the squared deviations, each floor-divided by [SCALE] first, and [std]
    is [fp_sqrt (variance + 100)] raised to at least 100. *)
Theorem layer_norm_formula (inp gamma beta : list Z) :
  inp <> [] -> length gamma = length inp -> length beta = length inp ->
  exists s out,
    fp_sqrt (ln_variance inp + 100) = Ok s /\
    layer_norm inp gamma beta = Ok out /\
    length out = length inp /\
    forall (i : nat) (x g b : Z),
      inp !! i = Some x -> gamma !! i = Some g -> beta !! i = Some b ->
      out !! i = Some ((x - ln_mean inp) * SCALE / Z.max s 100 * g / SCALE + b).
Proof.
  intros Hne Hg Hb.
  destruct (fp_sqrt_ok (ln_variance inp + 100)) as (s & Hs & _).
  exists s. eexists. split; [done|].
  split; [apply (layer_norm_eq inp gamma beta s); unfold len; (done || lia)|].
  split; [rewrite length_map, range_length; unfold len; lia|].
  intros i x g b Hx Hgi Hbi.
  pose proof (lookup_lt_Some _ _ _ Hx) as Hi.
  rewrite list_lookup_fmap, range_lookup by (unfold len; lia). simpl.
  rewrite Nat2Z.id.
  rewrite (nth_lookup_Some _ _ 0 x Hx), (nth_lookup_Some _ _ 0 g Hgi),
    (nth_lookup_Some _ _ 0 b Hbi).
  reflexivity.
Qed.

Lemma layer_norm_formula_witness :
  layer_norm [1000; -2000; 3000] [10000; 9000; 8000] [1; 2; 3] = Ok [1464; -10513; 8184].
Proof.
  destruct (layer_norm_formula [1000; -2000; 3000] [10000; 9000; 8000] [1; 2; 3]
              ltac:(discriminate) eq_refl eq_refl) as (s & out & Hs & -> & Hlen & Hout).
  vm_compute in Hs. injection Hs as <-. f_equal.
  destruct out as [|a [|b [|c [|d out]]]]; try discriminate Hlen.
  pose proof (Hout 0%nat _ _ _ eq_refl eq_refl eq_refl) as H0.
  pose proof (Hout 1%nat _ _ _ eq_refl eq_refl eq_refl) as H1.
  pose proof (Hout 2%nat _ _ _ eq_refl eq_refl eq_refl) as H2.
  vm_compute in H0, H1, H2. congruence.
Defined.

End LayerNormClaims.

(** ** The statements of the specification about the forward pass *)

Section ForwardClaims.

(** C2: a token sequence strictly longer than [block_size] gives exactly
    the result of the forward pass on its first [block_size] tokens, and a
    sequence of length exactly [block_size] is kept as it is. *)
Theorem forward_truncates_to_prefix
    (tokens : list Z) (config : config_t) (weights : weights_t) (W : Z) :
  config !! "block_size" = Some W -> 0 <= W ->
  (W < len tokens ->
   truncate tokens config = Ok (take (Z.to_nat W) tokens) /\
   forward tokens config weights = forward (take (Z.to_nat W) tokens) config weights) /\
  (len tokens = W -> truncate tokens config = Ok tokens).
Proof.
  intros HW Hpos. split.
  - intros Hlen. split; [by apply truncate_long | by apply forward_take].
  - intros Hlen. apply (truncate_short tokens config W); [done | lia].
Qed.

Lemma forward_truncates_to_prefix_witness :
  forward [0; 1; 2] Demo.config Demo.weights = forward [0; 1] Demo.config Demo.weights /\
  forward [0; 1] Demo.config Demo.weights = Ok [-2762; 587; 10257] /\
  truncate [0; 1] Demo.config = Ok [0; 1].
Proof.
  destruct (forward_truncates_to_prefix [0; 1; 2] Demo.config Demo.weights 2 eq_refl ltac:(lia))
    as [Hlong _].
  destruct (forward_truncates_to_prefix [0; 1] Demo.config Demo.weights 2 eq_refl ltac:(lia))
    as [_ Hexact].
  split; [apply Hlong; reflexivity|].
  split; [vm_compute; reflexivity | apply Hexact; reflexivity].
Defined.

(** C3: on success the forward pass returns [vocab_size] integers, and the
    logit of every vocabulary entry [v] is the sum over [i] of
    [last_hidden[i] * wte[v * n_embd + i] // SCALE], where [last_hidden] is
    the final layer norm of the last position only of the hidden state
    that the blocks return; the projection adds no bias and reads the
    token-embedding table [wte] that the embedding reads. *)
Theorem forward_logits_weight_tying
    (tokens : list Z) (config : config_t) (weights : weights_t) (logits : list Z) :
  forward tokens config weights = Ok logits ->
  exists (V E L : Z) (wte wpe ln_f_w ln_f_b toks : list Z)
         (emb hidden : list (list Z)) (last_row last_hidden : list Z),
    config !! "vocab_size" = Some V /\ config !! "n_embd" = Some E /\
    config !! "n_layer" = Some L /\
    weights !! "wte" = Some wte /\ weights !! "wpe" = Some wpe /\
    weights !! "ln_f_w" = Some ln_f_w /\ weights !! "ln_f_b" = Some ln_f_b /\
    truncate tokens config = Ok toks /\
    embed toks E wte wpe = Ok emb /\
    blocks emb L config weights = Ok hidden /\
    last hidden = Some last_row /\
    layer_norm last_row ln_f_w ln_f_b = Ok last_hidden /\
    length logits = Z.to_nat V /\
    forall v, 0 <= v < V ->
      logits !! Z.to_nat v =
        Some (Py.sum (map (fun i => nth (Z.to_nat i) last_hidden 0
                                    * nth (Z.to_nat (v * E + i)) wte 0 / SCALE)
                          (range E))).
Proof.
  intros H. unfold forward in H.
  apply bind_ok_inv in H as (toks & Htoks & H).
  apply bind_ok_inv in H as (E & HE & H).
  apply bind_ok_inv in H as (V & HV & H).
  apply bind_ok_inv in H as (L & HL & H).
  apply bind_ok_inv in H as (wte & Hwte & H).
  apply bind_ok_inv in H as (wpe & Hwpe & H).
  apply bind_ok_inv in H as (g & Hg & H).
  apply bind_ok_inv in H as (b & Hb & H).
  apply bind_ok_inv in H as (emb & Hemb & H).
  apply bind_ok_inv in H as (hidden & Hhid & H).
  apply bind_ok_inv in H as (last_row & Hlast & H).
  apply bind_ok_inv in H as (last_hidden & Hln & H).
  exists V, E, L, wte, wpe, g, b, toks, emb, hidden, last_row, last_hidden.
  apply lookup_key_ok_inv in HE, HV, HL, Hwte, Hwpe, Hg, Hb.
  apply getitem_last in Hlast.
  rewrite (project_spec _ _ _ _ _ H).
  repeat (split; [done|]). split.
  - by rewrite length_map, range_length.
  - intros v Hv. rewrite list_lookup_fmap, range_lookup by lia. simpl.
    by rewrite Z2Nat.id by lia.
Qed.

Lemma forward_logits_weight_tying_witness :
  forward [0; 1] Demo.config Demo.weights = Ok [-2762; 587; 10257] /\
  exists last_hidden : list Z,
    [-2762; 587; 10257] !! 2%nat =
      Some (Py.sum (map (fun i => nth (Z.to_nat i) last_hidden 0
                                  * nth (Z.to_nat (2 * 2 + i)) [1000; -2000; 3000; 4000; -5000; 6000] 0
                                  / SCALE)
                        (range 2))).
Proof.
  assert (forward [0; 1] Demo.config Demo.weights = Ok [-2762; 587; 10257]) as Hrun
    by (vm_compute; reflexivity).
  split; [exact Hrun|].
  destruct (forward_logits_weight_tying _ _ _ _ Hrun)
    as (V & E & L & wte & wpe & g & b & toks & emb & hidden & last_row & last_hidden
        & HV & HE & _ & Hwte & _ & _ & _ & _ & _ & _ & _ & _ & _ & Hlogit).
  vm_compute in HV, HE, Hwte. injection HV as <-. injection HE as <-. injection Hwte as <-.
  exists last_hidden. apply (Hlogit 2). lia.
Defined.

(** C1 as stated fails: the source has no range check.  A negative id is
    read from the end of the embedding table and the call returns logits;
    so does a call whose out-of-range id lies behind the window. *)
Lemma forward_negative_id_accepted :
  forward [-1] Demo.config Demo.weights = Ok [-2784; 592; 10341] /\
  forward [0; 1; 7] Demo.config Demo.weights = Ok [-2762; 587; 10257] /\
  ~ (forall (tokens : list Z) (config : config_t) (weights : weights_t) (V tok : Z),
       config !! "vocab_size" = Some V -> In tok tokens -> tok < 0 \/ V <= tok ->
       exists e, forward tokens config weights = Err e).
Proof.
  split; [vm_compute; reflexivity|]. split; [vm_compute; reflexivity|].
  intros H.
  destruct (H [-1] Demo.config Demo.weights 3 (-1) eq_refl ltac:(by left) ltac:(lia)) as [e He].
  vm_compute in He. discriminate He.
Qed.

(** C1, amended: in a model whose token-embedding table has
    [vocab_size * n_embd] entries, a call whose first [block_size] tokens
    contain an id that is at least [vocab_size] or below [- vocab_size]
    fails with the IndexError of the embedding lookup itself, before any
    transformer block runs.  The function only reads [config] and
    [weights]; ids in [[- vocab_size, 0)] are not rejected. *)
Theorem forward_unreadable_id_fails
    (tokens : list Z) (config : config_t) (weights : weights_t)
    (E V L W : Z) (wte wpe ln_f_w ln_f_b : list Z) (p : nat) (tok : Z) :
  config !! "block_size" = Some W -> config !! "n_embd" = Some E ->
  config !! "vocab_size" = Some V -> config !! "n_layer" = Some L ->
  weights !! "wte" = Some wte -> weights !! "wpe" = Some wpe ->
  weights !! "ln_f_w" = Some ln_f_w -> weights !! "ln_f_b" = Some ln_f_b ->
  0 < E -> len wte = V * E ->
  tokens !! p = Some tok -> Z.of_nat p < W -> tok < - V \/ V <= tok ->
  exists toks,
    truncate tokens config = Ok toks /\
    embed toks E wte wpe = Err IndexError /\
    forward tokens config weights = Err IndexError.
Proof.
  intros HW HE HV HL Hwte Hwpe Hg Hb HEpos Hlen Hp HpW Htok.
  destruct (truncate_keeps tokens config W p tok HW Hp HpW) as (toks & Htr & Hin).
  pose proof (embed_fails toks wte wpe E V tok HEpos Hlen Hin Htok) as Hemb.
  exists toks. split; [done|]. split; [done|].
  unfold forward. rewrite Htr. cbn [Py.bind].
  rewrite (lookup_key_ok _ _ _ HE), (lookup_key_ok _ _ _ HV), (lookup_key_ok _ _ _ HL),
    (lookup_key_ok _ _ _ Hwte), (lookup_key_ok _ _ _ Hwpe), (lookup_key_ok _ _ _ Hg),
    (lookup_key_ok _ _ _ Hb).
  cbn [Py.bind]. rewrite Hemb. reflexivity.
Qed.

Lemma forward_unreadable_id_fails_witness :
  forward [0; 3] Demo.config Demo.weights = Err IndexError /\
  forward [-4] Demo.config Demo.weights = Err IndexError.
Proof.
  split.
  - destruct (forward_unreadable_id_fails [0; 3] Demo.config Demo.weights 2 3 1 2
                _ _ _ _ 1%nat 3 eq_refl eq_refl eq_refl eq_refl eq_refl eq_refl eq_refl eq_refl
                ltac:(lia) eq_refl eq_refl ltac:(lia) ltac:(lia)) as (toks & _ & _ & Hf).
    exact Hf.
  - destruct (forward_unreadable_id_fails [-4] Demo.config Demo.weights 2 3 1 2
                _ _ _ _ 0%nat (-4) eq_refl eq_refl eq_refl eq_refl eq_refl eq_refl eq_refl eq_refl
                ltac:(lia) eq_refl eq_refl ltac:(lia) ltac:(lia)) as (toks & _ & _ & Hf).
    exact Hf.
Defined.

End ForwardClaims.

(** ** Negative token ids and the causal mask *)

Section WrapAndMaskClaims.

Lemma demo_well_formed : well_formed Demo.config Demo.weights 2 1 1 3 2.
Proof.
  split; try reflexivity; try lia;
    try (eexists; split; [reflexivity | reflexivity]).
  intros l Hl. assert (l = 0) as -> by lia.
  repeat split; eexists; (split; [reflexivity | reflexivity]).
Defined.

(** C9: in a well-formed model, a non-empty token sequence whose ids all lie
    in [[- vocab_size, vocab_size)] does not fail, and it returns exactly
    the logits of the sequence in which every negative id [tok] is replaced
    by [tok + vocab_size]: the embedding lookup reads the flattened table
    from its end. *)
Theorem forward_negative_ids_wrap
    (tokens : list Z) (config : config_t) (weights : weights_t) (E H L V W : Z) :
  well_formed config weights E H L V W -> tokens <> [] ->
  Forall (fun tok => - V <= tok < V) tokens ->
  exists logits,
    forward tokens config weights = Ok logits /\
    forward (map (wrap_token V) tokens) config weights = Ok logits /\
    Forall (fun tok => 0 <= tok < V) (map (wrap_token V) tokens).
Proof.
  intros Hwf Hne Hall.
  destruct (forward_ok tokens config weights E H L V W Hwf Hne Hall) as (logits & Hrun & _).
  exists logits. split; [done|]. split.
  - destruct (wf_wte _ _ _ _ _ _ _ Hwf) as (wte & Hwte & Hlen).
    rewrite (forward_wrap tokens wte config weights E V (wf_n_embd _ _ _ _ _ _ _ Hwf) Hwte Hlen);
      [done|].
    eapply Forall_impl; [exact Hall|]. simpl. intros; lia.
  - rewrite List.Forall_map. eapply Forall_impl; [exact Hall|]. simpl.
    intros tok Htok. unfold wrap_token. destruct (Z.ltb_spec tok 0); lia.
Qed.

Lemma forward_negative_ids_wrap_witness :
  forward [-1; 1] Demo.config Demo.weights = Ok [-2766; 587; 10271] /\
  forward [2; 1] Demo.config Demo.weights = Ok [-2766; 587; 10271].
Proof.
  destruct (forward_negative_ids_wrap [-1; 1] Demo.config Demo.weights 2 1 1 3 2
              demo_well_formed ltac:(discriminate)
              ltac:(repeat constructor; lia)) as (logits & Hrun & Hwrap & _).
  assert (logits = [-2766; 587; 10271]) as ->
    by (vm_compute in Hrun; by injection Hrun as <-).
  split; [exact Hrun | exact Hwrap].
Defined.

(** C5 as stated fails: the sentinel is a finite score.  When every real
    score of a row lies below it, the softmax shifts by the sentinel and
    the whole weight of query 0 goes to the future key 1; the output of
    position 0 is then the value of position 1. *)
Lemma causal_mask_leak :
  attn_scores [[10000000]; [10000000]] [[-10000000]; [-10000000]] 2 1 10000 0
    = Ok [-10000000000; -1000000000] /\
  fp_softmax [-10000000000; -1000000000] = Ok [0; 10000] /\
  multi_head_attention [[5]; [7]] 0 Demo.leak_config Demo.leak_weights = Ok [[7]; [5]] /\
  ~ (forall (Q K : list (list Z)) (n D scale i j : Z) (scores probs : list Z),
       attn_scores Q K n D scale i = Ok scores -> fp_softmax scores = Ok probs ->
       0 <= i < j -> j < n ->
       scores !! Z.to_nat j = Some (-1000000000) /\ probs !! Z.to_nat j = Some 0).
Proof.
  split; [vm_compute; reflexivity|]. split; [vm_compute; reflexivity|].
  split; [vm_compute; reflexivity|].
  intros H.
  destruct (H [[10000000]; [10000000]] [[-10000000]; [-10000000]] 2 1 10000 0 1
              [-10000000000; -1000000000] [0; 10000]
              ltac:(vm_compute; reflexivity) ltac:(vm_compute; reflexivity)
              ltac:(lia) ltac:(lia)) as [_ Hp].
  vm_compute in Hp. discriminate Hp.
Qed.

(** C5, amended: for every query position [i] and every later key position
    [j] the raw score is the constant sentinel -10^9, and the attention
    weight from [i] to [j] is exactly 0 whenever some score of the row
    exceeds the sentinel by more than [8 * SCALE], the width of the window
    in which [fp_exp] is not 0. *)
Theorem causal_mask_weight
    (Q K : list (list Z)) (n D scale i j : Z) (scores probs : list Z) :
  attn_scores Q K n D scale i = Ok scores -> fp_softmax scores = Ok probs ->
  0 <= i < j -> j < n ->
  scores !! Z.to_nat j = Some (-1000000000) /\
  (forall (k : nat) (s : Z),
     scores !! k = Some s -> -1000000000 + 8 * SCALE < s ->
     probs !! Z.to_nat j = Some 0).
Proof.
  intros Hscores Hprobs Hij Hjn.
  pose proof (attn_scores_future Q K n D scale i j scores Hscores ltac:(lia) ltac:(lia)) as Hj.
  split; [done|]. intros k s Hk Hs.
  by apply (fp_softmax_masked scores probs (Z.to_nat j) k (-1000000000) s).
Qed.

Lemma causal_mask_weight_witness :
  attn_scores [[20000]; [10000]] [[30000]; [-5000]] 2 1 10000 0 = Ok [60000; -1000000000] /\
  fp_softmax [60000; -1000000000] = Ok [10000; 0] /\
  [10000; 0] !! Z.to_nat 1 = Some 0.
Proof.
  assert (attn_scores [[20000]; [10000]] [[30000]; [-5000]] 2 1 10000 0
          = Ok [60000; -1000000000]) as Hs by (vm_compute; reflexivity).
  assert (fp_softmax [60000; -1000000000] = Ok [10000; 0]) as Hp by (vm_compute; reflexivity).
  split; [exact Hs|]. split; [exact Hp|].
  destruct (causal_mask_weight _ _ _ _ _ 0 1 _ _ Hs Hp ltac:(lia) ltac:(lia)) as [_ Hw].
  apply (Hw 0%nat 60000); [reflexivity | vm_compute; reflexivity].
Defined.

End WrapAndMaskClaims.

(** ** More on the exponential: bounds and the early exit *)

Section FpExpMore.

Lemma fp_exp_mono (x y : Z) : x <= y -> fp_exp x <= fp_exp y.
Proof.
  intros Hxy. pose proof SCALE_pos.
  destruct (Z.lt_ge_cases x (-8 * SCALE)).
  { rewrite (fp_exp_low x) by lia. apply fp_exp_nonneg. }
  destruct (Z.lt_ge_cases y 0).
  - rewrite !fp_exp_neg by lia.
    pose proof (exp_series_ge (- y) ltac:(lia)).
    pose proof (exp_series_mono (- y) (- x) ltac:(lia)).
    apply Z.div_le_compat_l; [unfold SCALE; lia | lia].
  - rewrite (fp_exp_nonneg_arg y) by lia.
    destruct (Z.lt_ge_cases x 0).
    + pose proof (fp_exp_le_SCALE x ltac:(lia)).
      pose proof (exp_series_ge (Z.min y (8 * SCALE)) ltac:(unfold SCALE; lia)). lia.
    + rewrite (fp_exp_nonneg_arg x) by lia.
      apply exp_series_mono. unfold SCALE. lia.
Qed.

Lemma exp_series_max : exp_series (8 * SCALE) = 29564189.
Proof. vm_compute. reflexivity. Qed.

(** X1: the result of [fp_exp] is never negative and never above its value
    at the upper clamp, 29564189; it is at least [SCALE] on the
    non-negative inputs and at most [SCALE] on the non-positive ones; above
    [8 * SCALE] it is constant. *)
Theorem fp_exp_range (x : Z) :
  0 <= fp_exp x <= 29564189 /\
  (0 <= x -> SCALE <= fp_exp x) /\
  (x <= 0 -> fp_exp x <= SCALE) /\
  (8 * SCALE <= x -> fp_exp x = 29564189).
Proof.
  assert (forall z, 0 <= z -> SCALE <= fp_exp z <= 29564189) as Hpos.
  { intros z Hz. rewrite fp_exp_nonneg_arg by done.
    pose proof (exp_series_ge (Z.min z (8 * SCALE)) ltac:(unfold SCALE; lia)).
    pose proof (exp_series_mono (Z.min z (8 * SCALE)) (8 * SCALE) ltac:(unfold SCALE; lia)).
    rewrite exp_series_max in *. lia. }
  split; [|split; [|split]].
  - split; [apply fp_exp_nonneg|].
    destruct (Z.lt_ge_cases x 0).
    + pose proof (fp_exp_le_SCALE x ltac:(lia)). unfold SCALE in *. lia.
    + apply Hpos. lia.
  - intros Hx. apply Hpos. lia.
  - apply fp_exp_le_SCALE.
  - intros Hx. rewrite fp_exp_nonneg_arg by (unfold SCALE in *; lia).
    rewrite Z.min_r by lia. apply exp_series_max.
Qed.

Lemma fp_exp_range_witness :
  SCALE <= fp_exp 5 /\ fp_exp (-5) <= SCALE /\ fp_exp 123456 = 29564189.
Proof.
  destruct (fp_exp_range 5) as (_ & H1 & _ & _).
  destruct (fp_exp_range (-5)) as (_ & _ & H2 & _).
  destruct (fp_exp_range 123456) as (_ & _ & _ & H3).
  split; [apply H1; lia | split; [apply H2; lia | apply H3; unfold SCALE; lia]].
Defined.

Lemma fp_exp_all_terms_zero (idx : list Z) (x result : Z) :
  fp_exp_all_terms idx x 0 result = result.
Proof.
  revert result. induction idx as [|i idx IH]; intros result; simpl; [reflexivity|].
  rewrite Z.mul_0_l, Zdiv_0_l, IH. lia.
Qed.

Lemma fp_exp_loop_all_terms (idx : list Z) (x term result : Z) :
  Forall (fun i => 0 < i) idx -> 0 <= x -> 0 <= term ->
  fp_exp_loop idx x term result = fp_exp_all_terms idx x term result.
Proof.
  intros Hidx Hx. revert term result.
  induction Hidx as [|i idx Hi _ IH]; intros term result Hterm; simpl; [reflexivity|].
  assert (0 <= term * x / (i * SCALE)) as Hnew
    by (apply Z.div_pos; [nia | pose proof SCALE_pos; nia]).
  destruct (Z.ltb_spec (term * x / (i * SCALE)) 1) as [Hlt|Hge].
  - replace (term * x / (i * SCALE)) with 0 by lia.
    by rewrite fp_exp_all_terms_zero.
  - by apply IH.
Qed.

(** X2: the early exit of the Taylor loop never changes the result.  On
    every input in the clamp window [fp_exp] is the sum of all 15 terms (or,
    for a negative input, [SCALE * SCALE] divided by that sum for the
    absolute value). *)
Theorem fp_exp_early_exit_sound (x : Z) :
  -8 * SCALE <= x <= 8 * SCALE ->
  fp_exp x =
    if x <? 0
    then SCALE * SCALE / fp_exp_all_terms (range2 1 16) (- x) SCALE SCALE
    else fp_exp_all_terms (range2 1 16) x SCALE SCALE.
Proof.
  intros Hx. pose proof SCALE_pos.
  destruct (Z.ltb_spec x 0).
  - rewrite fp_exp_neg by lia. unfold exp_series.
    rewrite fp_exp_loop_all_terms; [reflexivity | apply range2_pos; lia | lia | lia].
  - rewrite fp_exp_nonneg_arg, Z.min_l by lia. unfold exp_series.
    rewrite fp_exp_loop_all_terms; [reflexivity | apply range2_pos; lia | lia | lia].
Qed.

Lemma fp_exp_early_exit_sound_witness :
  fp_exp 1 = fp_exp_all_terms (range2 1 16) 1 SCALE SCALE /\
  fp_exp (-20000) = SCALE * SCALE / fp_exp_all_terms (range2 1 16) 20000 SCALE SCALE.
Proof.
  split.
  - apply (fp_exp_early_exit_sound 1). unfold SCALE. lia.
  - apply (fp_exp_early_exit_sound (-20000)). unfold SCALE. lia.
Defined.

End FpExpMore.

(** ** The square root *)

Section FpSqrtMore.

(** One Newton step never lands below the integer square root. *)
Lemma newton_step_lower (N g : Z) :
  0 <= N -> 0 < g -> N < ((g + N / g) / 2 + 1) ^ 2.
Proof.
  intros HN Hg.
  pose proof (Z.mul_succ_div_gt N g Hg) as Hq.
  pose proof (Z.div_pos N g HN Hg) as Hq0.
  set (q := N / g) in *.
  pose proof (Z.mul_succ_div_gt (g + q) 2 ltac:(lia)) as Hh.
  set (h := (g + q) / 2) in *.
  pose proof (Z.square_nonneg (g - (q + 1))).
  nia.
Qed.

Lemma fp_sqrt_loop_lower (n : nat) (x guess g : Z) :
  0 < x -> 1 <= guess -> x * SCALE < (guess + 1) ^ 2 ->
  fp_sqrt_loop n x guess = Ok g -> x * SCALE < (g + 1) ^ 2.
Proof.
  intros Hx. revert guess. induction n as [|n IH]; intros guess Hg Hinv; cbn [fp_sqrt_loop].
  - by intros [= <-].
  - unfold floordiv. destruct (Z.eqb_spec guess 0); [lia|]. cbn [Py.bind].
    assert (0 <= x * SCALE) as HN by (pose proof SCALE_pos; nia).
    pose proof (newton_step_lower (x * SCALE) guess HN ltac:(lia)) as Hstep.
    assert (1 <= (guess + x * SCALE / guess) / 2) as Hnew.
    { pose proof (Z.div_pos (x * SCALE) guess HN ltac:(lia)).
      apply Z.div_le_lower_bound; [lia|].
      destruct (Z.eq_dec guess 1) as [->|]; [|lia].
      rewrite Z.div_1_r. unfold SCALE. lia. }
    destruct (Z.abs _ <? 2); [by intros [= <-] | by apply IH].
Qed.

Lemma fp_sqrt_loop_first (n : nat) (x guess g : Z) :
  0 < x -> 1 <= guess ->
  fp_sqrt_loop (S n) x guess = Ok g -> x * SCALE < (g + 1) ^ 2.
Proof.
  intros Hx Hg. cbn [fp_sqrt_loop]. unfold floordiv.
  destruct (Z.eqb_spec guess 0); [lia|]. cbn [Py.bind].
  assert (0 <= x * SCALE) as HN by (pose proof SCALE_pos; nia).
  pose proof (newton_step_lower (x * SCALE) guess HN ltac:(lia)) as Hstep.
  assert (1 <= (guess + x * SCALE / guess) / 2) as Hnew.
  { pose proof (Z.div_pos (x * SCALE) guess HN ltac:(lia)).
    apply Z.div_le_lower_bound; [lia|].
    destruct (Z.eq_dec guess 1) as [->|]; [|lia].
    rewrite Z.div_1_r. unfold SCALE. lia. }
  destruct (Z.abs _ <? 2); [by intros [= <-] | by apply fp_sqrt_loop_lower].
Qed.

(** X3: [fp_sqrt] never raises (the Newton loop never divides by zero), its
    result is 0 exactly for the non-positive inputs, and for a positive
    input [x] the result [g] is never below the integer square root of
    [x * SCALE]: [x * SCALE < (g + 1)^2], hence [g >= 100]. *)
Theorem fp_sqrt_total_lower (x : Z) :
  exists g, fp_sqrt x = Ok g /\ 0 <= g /\
    (g = 0 <-> x <= 0) /\
    (0 < x -> x * SCALE < (g + 1) ^ 2 /\ 100 <= g).
Proof.
  destruct (fp_sqrt_ok x) as (g & Hg & Hg0 & Hpos).
  exists g. split; [done|]. split; [done|].
  assert (0 < x -> x * SCALE < (g + 1) ^ 2) as Hlow.
  { intros Hx. unfold fp_sqrt in Hg. destruct (Z.leb_spec x 0); [lia|].
    apply (fp_sqrt_loop_first 19 x (if x / 2 <? SCALE then SCALE else x / 2)); [done| |done].
    destruct (Z.ltb_spec (x / 2) SCALE); unfold SCALE in *; lia. }
  split.
  - split.
    + intros ->. destruct (Z.le_gt_cases x 0); [done|]. specialize (Hpos ltac:(lia)). lia.
    + intros Hx. unfold fp_sqrt in Hg. destruct (Z.leb_spec x 0); [|lia]. by injection Hg as <-.
  - intros Hx. specialize (Hlow Hx). split; [done|].
    unfold SCALE in *. nia.
Qed.

Lemma fp_sqrt_total_lower_witness :
  fp_sqrt 20000 = Ok 14142 /\ 20000 * SCALE < (14142 + 1) ^ 2.
Proof.
  destruct (fp_sqrt_total_lower 20000) as (g & Hg & _ & _ & Hlow).
  assert (g = 14142) as -> by (vm_compute in Hg; by injection Hg as <-).
  split; [exact Hg | apply Hlow; lia].
Defined.

End FpSqrtMore.

(** ** Hyperbolic tangent and GELU *)

Section Activations.

(** Inside the window the source evaluates the quotient, whose divisor
    [exp_2x + SCALE] is positive. *)
Lemma fp_tanh_mid (x : Z) :
  -4 * SCALE <= x <= 4 * SCALE ->
  fp_tanh x = (fp_exp (2 * x) - SCALE) * SCALE / (fp_exp (2 * x) + SCALE).
Proof.
  intros Hx. unfold fp_tanh.
  destruct (Z.gtb_spec x (4 * SCALE)); [lia|].
  destruct (Z.ltb_spec x (-4 * SCALE)); [lia|].
  pose proof (fp_exp_nonneg (2 * x)). pose proof SCALE_pos.
  destruct (Z.eqb_spec (fp_exp (2 * x) + SCALE) 0); [lia | reflexivity].
Qed.

Lemma tanh_quotient_bounds (e : Z) :
  0 <= e -> - SCALE <= (e - SCALE) * SCALE / (e + SCALE) <= SCALE.
Proof.
  intros He. pose proof SCALE_pos. split.
  - apply Z.div_le_lower_bound; nia.
  - apply Z.div_le_upper_bound; nia.
Qed.

Lemma tanh_quotient_mono (a b : Z) :
  0 <= a <= b ->
  (a - SCALE) * SCALE / (a + SCALE) <= (b - SCALE) * SCALE / (b + SCALE).
Proof.
  intros Hab. pose proof SCALE_pos.
  pose proof (tanh_quotient_bounds a ltac:(lia)) as [_ Hq].
  pose proof (Z.mul_div_le ((a - SCALE) * SCALE) (a + SCALE) ltac:(lia)) as Hfloor.
  set (q := (a - SCALE) * SCALE / (a + SCALE)) in *.
  apply Z.div_le_lower_bound; [lia|]. nia.
Qed.

Lemma fp_tanh_high (x : Z) : 4 * SCALE < x -> fp_tanh x = SCALE.
Proof.
  intros Hx. unfold fp_tanh. destruct (Z.gtb_spec x (4 * SCALE)); [reflexivity | lia].
Qed.

Lemma fp_tanh_low (x : Z) : x < -4 * SCALE -> fp_tanh x = - SCALE.
Proof.
  intros Hx. unfold fp_tanh. destruct (Z.gtb_spec x (4 * SCALE)); [unfold SCALE in *; lia|].
  destruct (Z.ltb_spec x (-4 * SCALE)); [reflexivity | lia].
Qed.

Lemma fp_tanh_bounds (x : Z) : - SCALE <= fp_tanh x <= SCALE.
Proof.
  pose proof SCALE_pos.
  destruct (Z.lt_ge_cases (4 * SCALE) x); [rewrite fp_tanh_high by done; lia|].
  destruct (Z.lt_ge_cases x (-4 * SCALE)); [rewrite fp_tanh_low by done; lia|].
  rewrite fp_tanh_mid by lia. apply tanh_quotient_bounds, fp_exp_nonneg.
Qed.

(** X4: [fp_tanh] stays within [[- SCALE, SCALE]], takes the two bounds
    outside [[-4 * SCALE, 4 * SCALE]] and is monotonically non-decreasing
    over all integers, the two saturation steps included. *)
Theorem fp_tanh_monotone_bounded (x y : Z) :
  x <= y ->
  - SCALE <= fp_tanh x /\ fp_tanh x <= fp_tanh y /\ fp_tanh y <= SCALE /\
  (4 * SCALE < y -> fp_tanh y = SCALE) /\
  (x < -4 * SCALE -> fp_tanh x = - SCALE).
Proof.
  intros Hxy. pose proof SCALE_pos.
  pose proof (fp_tanh_high y) as Hhi. pose proof (fp_tanh_low x) as Hlo.
  split; [apply fp_tanh_bounds|]. split; [|split; [apply fp_tanh_bounds | done]].
  destruct (Z.lt_ge_cases (4 * SCALE) y) as [Hy|Hy].
  { rewrite (Hhi Hy). apply fp_tanh_bounds. }
  destruct (Z.lt_ge_cases x (-4 * SCALE)) as [Hx|Hx].
  { rewrite (Hlo Hx). apply fp_tanh_bounds. }
  rewrite !fp_tanh_mid by lia.
  apply tanh_quotient_mono. split; [apply fp_exp_nonneg | apply fp_exp_mono; lia].
Qed.

Lemma fp_tanh_monotone_bounded_witness :
  fp_tanh (-40000) <= fp_tanh 40001 /\ fp_tanh 40001 = SCALE.
Proof.
  destruct (fp_tanh_monotone_bounded (-40000) 40001 ltac:(lia)) as (_ & Hle & _ & Hhi & _).
  split; [exact Hle | apply Hhi; unfold SCALE; lia].
Defined.

(** The argument that [fp_gelu] passes to [fp_tanh] *)
Lemma fp_gelu_inner_high (x : Z) :
  33500 <= x ->
  40000 < 7979 * (x + 447 * (x * x / SCALE * x / SCALE) / SCALE) / SCALE.
Proof.
  intros Hx. unfold SCALE.
  assert (112225 <= x * x / 10000) as Hsq
    by (apply Z.div_le_lower_bound; [lia | nia]).
  set (sq := x * x / 10000) in *.
  assert (375953 <= sq * x / 10000) as Hcu
    by (apply Z.div_le_lower_bound; [lia | nia]).
  set (cu := sq * x / 10000) in *.
  assert (16805 <= 447 * cu / 10000) as Hc
    by (apply Z.div_le_lower_bound; [lia | lia]).
  set (c := 447 * cu / 10000) in *.
  apply Z.lt_le_trans with 40138; [lia|].
  apply Z.div_le_lower_bound; [lia | lia].
Qed.

Lemma fp_gelu_inner_low (x : Z) :
  x <= -33500 ->
  7979 * (x + 447 * (x * x / SCALE * x / SCALE) / SCALE) / SCALE < -40000.
Proof.
  intros Hx. unfold SCALE.
  assert (112225 <= x * x / 10000) as Hsq
    by (apply Z.div_le_lower_bound; [lia | nia]).
  set (sq := x * x / 10000) in *.
  assert (sq * x / 10000 <= -375953) as Hcu
    by (apply Z.div_le_upper_bound; [lia | nia]).
  set (cu := sq * x / 10000) in *.
  assert (447 * cu / 10000 <= -16805) as Hc
    by (apply Z.div_le_upper_bound; [lia | lia]).
  set (c := 447 * cu / 10000) in *.
  apply Z.le_lt_trans with (-40138); [|lia].
  apply Z.div_le_upper_bound; [lia | lia].
Qed.

(** X5: [fp_gelu x] always lies between 0 and [x]; it is the identity from
    [33500] (3.35) upwards, where the tanh saturates at [SCALE], and
    exactly 0 from [-33500] downwards, where it saturates at [- SCALE]. *)
Theorem fp_gelu_range (x : Z) :
  Z.min 0 x <= fp_gelu x <= Z.max 0 x /\
  (33500 <= x -> fp_gelu x = x) /\
  (x <= -33500 -> fp_gelu x = 0).
Proof.
  pose proof SCALE_pos. split; [|split].
  - cbv beta zeta delta [fp_gelu].
    pose proof (fp_tanh_bounds (7979 * (x + 447 * (x * x / SCALE * x / SCALE) / SCALE) / SCALE))
      as Ht.
    set (t := fp_tanh _) in *.
    assert (0 <= (SCALE + t) / 2 <= SCALE) as Hh.
    { split; [apply Z.div_pos; lia | apply Z.div_le_upper_bound; lia]. }
    set (h := (SCALE + t) / 2) in *.
    destruct (Z.lt_ge_cases x 0).
    + rewrite Z.min_r, Z.max_l by lia. split.
      * apply Z.div_le_lower_bound; [lia | nia].
      * apply Z.div_le_upper_bound; [lia | nia].
    + rewrite Z.min_l, Z.max_r by lia. split.
      * apply Z.div_pos; [nia | lia].
      * apply Z.div_le_upper_bound; [lia | nia].
  - intros Hx. cbv beta zeta delta [fp_gelu].
    rewrite fp_tanh_high by (pose proof (fp_gelu_inner_high x Hx); unfold SCALE in *; lia).
    replace ((SCALE + SCALE) / 2) with SCALE by reflexivity.
    apply Z.div_mul. lia.
  - intros Hx. cbv beta zeta delta [fp_gelu].
    rewrite fp_tanh_low by (pose proof (fp_gelu_inner_low x Hx); unfold SCALE in *; lia).
    replace ((SCALE + - SCALE) / 2) with 0 by reflexivity.
    rewrite Z.mul_0_r. reflexivity.
Qed.

Lemma fp_gelu_range_witness :
  fp_gelu 40000 = 40000 /\ fp_gelu (-40000) = 0 /\ -10000 <= fp_gelu (-10000) <= 0.
Proof.
  destruct (fp_gelu_range 40000) as (_ & Hhi & _).
  destruct (fp_gelu_range (-40000)) as (_ & _ & Hlo).
  destruct (fp_gelu_range (-10000)) as (Hb & _ & _).
  split; [apply Hhi; lia | split; [apply Hlo; lia | exact Hb]].
Defined.

End Activations.

(** ** More on the softmax *)

Section SoftmaxMore.

Lemma max_fold_shift (c : Z) (l : list Z) (x : Z) :
  fold_left (fun m y => if y >? m then y else m) (map (Z.add c) l) (c + x)
  = c + fold_left (fun m y => if y >? m then y else m) l x.
Proof.
  revert x. induction l as [|y l IH]; intros x; simpl; [reflexivity|].
  destruct (Z.gtb_spec (c + y) (c + x)); destruct (Z.gtb_spec y x); try lia; apply IH.
Qed.

Lemma max_shift (c : Z) (l : list Z) :
  Py.max (map (Z.add c) l) = (let* m := Py.max l in Ok (c + m)).
Proof.
  destruct l as [|x l]; [reflexivity|]. simpl. by rewrite max_fold_shift.
Qed.

(** X6: adding one constant to every score does not change the result of
    [fp_softmax], the exception for the empty list included. *)
Theorem fp_softmax_shift_invariant (c : Z) (arr : list Z) :
  fp_softmax (map (Z.add c) arr) = fp_softmax arr.
Proof.
  unfold fp_softmax. rewrite max_shift.
  destruct (Py.max arr) as [m|e]; [|reflexivity]. cbn [Py.bind].
  rewrite !softmax_exps_eq. f_equal.
  assert (map (fun x => fp_exp (x - (c + m))) (map (Z.add c) arr)
          = map (fun x => fp_exp (x - m)) arr) as ->.
  { rewrite map_map. apply map_ext. intros x. f_equal. lia. }
  unfold softmax_normalize, len. by rewrite length_map.
Qed.

(** X7: [fp_softmax] raises exactly on the empty list, with the ValueError
    of [max]; on every other list it returns a list of the same length. *)
Theorem fp_softmax_fails_iff_empty (arr : list Z) :
  (arr = [] -> fp_softmax arr = Err ValueError) /\
  (arr <> [] -> exists out, fp_softmax arr = Ok out /\ length out = length arr) /\
  (forall e, fp_softmax arr = Err e -> arr = [] /\ e = ValueError).
Proof.
  split; [by intros ->|]. split.
  - intros Hne. destruct (fp_softmax_bounds arr Hne) as (out & Hout & Hlen & _). eauto.
  - intros e He. destruct arr as [|x arr].
    + split; [done|]. by injection He as <-.
    + destruct (fp_softmax_bounds (x :: arr) ltac:(done)) as (out & Hout & _).
      rewrite Hout in He. discriminate.
Qed.

Lemma fp_softmax_fails_iff_empty_witness :
  fp_softmax [] = Err ValueError /\
  exists out, fp_softmax [7; -7] = Ok out /\ length out = length [7; -7].
Proof.
  destruct (fp_softmax_fails_iff_empty []) as (Hnil & _ & _).
  destruct (fp_softmax_fails_iff_empty [7; -7]) as (_ & Hne & _).
  split; [apply Hnil; reflexivity | apply Hne; discriminate].
Defined.

Lemma softmax_total_le (arr : list Z) (m : Z) :
  Forall (fun z => z <= m) arr ->
  Py.sum (map (fun x => fp_exp (x - m)) arr) <= SCALE * len arr.
Proof.
  induction 1 as [|z arr Hz _ IH].
  - simpl map. rewrite sum_nil. unfold len. simpl. lia.
  - simpl map. rewrite sum_cons. unfold len in *. simpl length. rewrite Nat2Z.inj_succ.
    pose proof (fp_exp_le_SCALE (z - m) ltac:(lia)). lia.
Qed.

(** X8: the weights follow the scores: no output of [fp_softmax] exceeds
    [SCALE], a score that is not larger never gets a larger weight, and
    the largest score gets a weight of at least [SCALE] divided by the
    length of the list. *)
Theorem fp_softmax_order (arr probs : list Z) (i j : nat) (x y p q : Z) :
  fp_softmax arr = Ok probs ->
  arr !! i = Some x -> arr !! j = Some y ->
  probs !! i = Some p -> probs !! j = Some q ->
  x <= y ->
  p <= q /\ q <= SCALE /\
  (Forall (fun z => z <= y) arr -> SCALE / len arr <= q).
Proof.
  intros Hsm Hi Hj Hp Hq Hxy.
  destruct (fp_softmax_lookup arr probs i x Hsm Hi) as (m & Hmax & Hpi).
  destruct (fp_softmax_lookup arr probs j y Hsm Hj) as (m' & Hmax' & Hqj).
  assert (m' = m) as -> by congruence.
  rewrite Hp in Hpi. injection Hpi as ->. rewrite Hq in Hqj. injection Hqj as ->.
  pose proof (softmax_total_ge arr m Hmax) as HT. pose proof SCALE_pos.
  rewrite softmax_exps_eq in *. simpl in *.
  set (es := map (fun x => fp_exp (x - m)) arr) in *.
  set (T := Py.sum es) in *.
  assert (fp_exp (y - m) <= T) as HyT.
  { apply sum_ge_elem; [apply softmax_exps_nonneg|].
    apply in_map_iff. exists y. split; [done|].
    apply list_elem_of_In. by apply (list_elem_of_lookup_2 _ j). }
  split; [|split].
  - apply Z.div_le_mono; [lia|].
    pose proof (fp_exp_mono (x - m) (y - m) ltac:(lia)). nia.
  - apply Z.div_le_upper_bound; [lia | nia].
  - intros Hall. destruct (max_spec arr m Hmax) as [Hin Hle].
    assert (y = m) as ->.
    { pose proof (proj1 (List.Forall_forall _ _) Hall m Hin).
      assert (In y arr) as Hy
        by (apply list_elem_of_In; by apply (list_elem_of_lookup_2 _ j)).
      pose proof (proj1 (List.Forall_forall _ _) Hle y Hy). cbv beta in *. lia. }
    rewrite Z.sub_diag, fp_exp_0.
    pose proof (softmax_total_le arr m Hle) as HTn. fold es in HTn. fold T in HTn.
    assert (0 < len arr) as Hn by (unfold SCALE in *; nia).
    rewrite <- (Z.div_mul_cancel_l SCALE (len arr) SCALE) by lia.
    apply Z.div_le_compat_l; [unfold SCALE; lia | lia].
Qed.

Lemma fp_softmax_order_witness :
  fp_softmax [1; 2; 3] = Ok [3332; 3333; 3333] /\
  3332 <= 3333 /\ 3333 <= SCALE /\ SCALE / len [1; 2; 3] <= 3333.
Proof.
  assert (fp_softmax [1; 2; 3] = Ok [3332; 3333; 3333]) as Hsm by (vm_compute; reflexivity).
  split; [exact Hsm|].
  destruct (fp_softmax_order [1; 2; 3] [3332; 3333; 3333] 0 2 1 3 3332 3333 Hsm
              eq_refl eq_refl eq_refl eq_refl ltac:(lia)) as (H1 & H2 & H3).
  split; [exact H1 | split; [exact H2 | apply H3; repeat constructor; lia]].
Defined.

End SoftmaxMore.

(** ** More on layer normalization *)

Section LayerNormMore.

Lemma getitem_map {A B : Type} (f : A -> B) (l : list A) (i : Z) :
  getitem (map f l) i = (let* x := getitem l i in Ok (f x)).
Proof.
  unfold getitem, len. rewrite length_map.
  destruct (_ <? 0); [reflexivity|].
  rewrite list_lookup_fmap. by destruct (l !! _).
Qed.

Lemma sum_map_add (c : Z) (l : list Z) :
  Py.sum (map (Z.add c) l) = Py.sum l + c * len l.
Proof.
  induction l as [|x l IH]; [unfold len; simpl map; rewrite sum_nil; simpl; lia|].
  simpl map. rewrite !sum_cons, IH. unfold len. simpl length. lia.
Qed.

Lemma map_nth_range (l : list Z) :
  map (fun i => nth (Z.to_nat i) l 0) (range (len l)) = l.
Proof.
  apply list_eq. intros k. rewrite list_lookup_fmap.
  destruct (Nat.lt_ge_cases k (length l)) as [Hk|Hk].
  - rewrite range_lookup by (unfold len; lia). simpl. rewrite Nat2Z.id.
    destruct (lookup_lt_is_Some_2 l k Hk) as [x Hx].
    by rewrite Hx, (nth_lookup_Some _ _ 0 x Hx).
  - rewrite (lookup_ge_None_2 l) by lia.
    rewrite lookup_ge_None_2; [done|]. rewrite range_length. unfold len. lia.
Qed.

(** X9: [layer_norm] is invariant under adding one constant to every input
    element, exactly and in every case (the floored mean moves by the same
    constant), the exceptions included. *)
Theorem layer_norm_translation_invariant (c : Z) (inp gamma beta : list Z) :
  layer_norm (map (Z.add c) inp) gamma beta = layer_norm inp gamma beta.
Proof.
  unfold layer_norm.
  replace (len (map (Z.add c) inp)) with (len inp) by (unfold len; by rewrite length_map).
  rewrite sum_map_add. unfold floordiv at 1 4.
  destruct (Z.eqb_spec (len inp) 0) as [H0|H0]; [reflexivity|]. cbn [Py.bind].
  rewrite Z.div_add by done.
  assert (map (fun x => (x - (Py.sum inp / len inp + c)) ^ 2 / SCALE) (map (Z.add c) inp)
          = map (fun x => (x - Py.sum inp / len inp) ^ 2 / SCALE) inp) as ->.
  { rewrite map_map. apply map_ext. intros x. do 2 f_equal. lia. }
  destruct (floordiv _ (len inp)) as [variance|e]; [|reflexivity]. cbn [Py.bind].
  destruct (fp_sqrt (variance + 100)) as [std|e]; [|reflexivity]. cbn [Py.bind].
  apply mapM_ext. intros i _. rewrite getitem_map.
  destruct (getitem inp i) as [x|e]; [|reflexivity]. cbn [Py.bind].
  replace (c + x - (Py.sum inp / len inp + c)) with (x - Py.sum inp / len inp) by lia.
  reflexivity.
Qed.

Lemma ln_variance_nonneg (inp : list Z) : 0 <= ln_variance inp.
Proof.
  unfold ln_variance. apply Z_div_nonneg_nonneg; [|unfold len; lia].
  apply sum_nonneg. rewrite List.Forall_map. apply List.Forall_forall. intros x _.
  apply Z.div_pos; [|apply SCALE_pos]. rewrite Z.pow_2_r. apply Z.square_nonneg.
Qed.

Lemma ln_std_ge (inp : list Z) :
  exists s, fp_sqrt (ln_variance inp + 100) = Ok s /\ 1000 <= s.
Proof.
  pose proof (ln_variance_nonneg inp) as Hv.
  destruct (fp_sqrt_ok (ln_variance inp + 100)) as (s & Hs & Hs0 & _).
  exists s. split; [done|].
  unfold fp_sqrt in Hs. destruct (Z.leb_spec (ln_variance inp + 100) 0); [lia|].
  assert (1 <= (if (ln_variance inp + 100) / 2 <? SCALE then SCALE
                else (ln_variance inp + 100) / 2)) as Hg0
    by (destruct (Z.ltb_spec ((ln_variance inp + 100) / 2) SCALE); unfold SCALE in *; lia).
  pose proof (fp_sqrt_loop_first 19 (ln_variance inp + 100) _ s ltac:(lia) Hg0 Hs) as Hlow.
  unfold SCALE in Hlow. nia.
Qed.

(** X10: the divisor of [layer_norm] is at least 1000 (the variance is
    never negative and the square root never falls below the integer
    root), so the floor of 100 on [std] never changes it; every
    normalized value is at most ten times the deviation in magnitude. *)
Theorem layer_norm_std_floor_unused (inp gamma beta : list Z) :
  inp <> [] -> length gamma = length inp -> length beta = length inp ->
  exists s out,
    fp_sqrt (ln_variance inp + 100) = Ok s /\ 1000 <= s /\
    (if s <? 100 then 100 else s) = s /\
    layer_norm inp gamma beta = Ok out /\
    forall (i : nat) (x g b : Z),
      inp !! i = Some x -> gamma !! i = Some g -> beta !! i = Some b ->
      out !! i = Some ((x - ln_mean inp) * SCALE / s * g / SCALE + b) /\
      Z.abs ((x - ln_mean inp) * SCALE / s) <= 10 * Z.abs (x - ln_mean inp).
Proof.
  intros Hne Hg Hb.
  destruct (ln_std_ge inp) as (s & Hs & Hge).
  exists s. eexists. split; [done|]. split; [done|].
  split; [destruct (Z.ltb_spec s 100); lia|].
  split; [apply (layer_norm_eq inp gamma beta s); unfold len; (done || lia)|].
  intros i x g b Hx Hgi Hbi.
  pose proof (lookup_lt_Some _ _ _ Hx) as Hi.
  rewrite list_lookup_fmap, range_lookup by (unfold len; lia). simpl.
  rewrite Nat2Z.id.
  rewrite (nth_lookup_Some _ _ 0 x Hx), (nth_lookup_Some _ _ 0 g Hgi),
    (nth_lookup_Some _ _ 0 b Hbi).
  rewrite Z.max_l by lia. split; [reflexivity|].
  set (d := x - ln_mean inp).
  destruct (Z.lt_ge_cases d 0).
  - assert (10 * d <= d * SCALE / s <= 0) as Hq.
    { split; [apply Z.div_le_lower_bound; [lia | unfold SCALE; nia]|].
      apply Z.div_le_upper_bound; [lia | unfold SCALE; nia]. }
    lia.
  - assert (0 <= d * SCALE / s <= 10 * d) as Hq.
    { split; [apply Z.div_pos; [unfold SCALE; nia | lia]|].
      apply Z.div_le_upper_bound; [lia | unfold SCALE; nia]. }
    lia.
Qed.

Lemma layer_norm_std_floor_unused_witness :
  exists s, fp_sqrt (ln_variance [1000; -2000; 3000] + 100) = Ok s /\ 1000 <= s.
Proof.
  destruct (layer_norm_std_floor_unused [1000; -2000; 3000] [10000; 9000; 8000] [1; 2; 3]
              ltac:(discriminate) eq_refl eq_refl) as (s & out & Hs & Hge & _).
  exists s. split; [exact Hs | exact Hge].
Defined.

Lemma layer_norm_err_kind (inp gamma beta : list Z) (e : exn) :
  inp <> [] -> layer_norm inp gamma beta = Err e -> e = IndexError.
Proof.
  intros Hne. pose proof (len_pos_of_ne inp Hne) as Hn.
  destruct (ln_std_ge inp) as (s & Hs & Hge).
  unfold layer_norm, floordiv.
  destruct (Z.eqb_spec (len inp) 0); [lia|]. cbn [Py.bind].
  fold (ln_mean inp). fold (ln_variance inp). rewrite Hs. cbn [Py.bind].
  apply (mapM_err_kind _ _ (fun e => e = IndexError)). intros i e' _.
  destruct (getitem inp i) as [x|e1] eqn:Hx; cbn [Py.bind];
    [|intros [= <-]; by apply getitem_err in Hx].
  destruct (Z.eqb_spec (if s <? 100 then 100 else s) 0) as [H0|H0];
    [destruct (Z.ltb_spec s 100); lia|]. cbn [Py.bind].
  destruct (getitem gamma i) as [g|e1] eqn:Hgi; cbn [Py.bind];
    [|intros [= <-]; by apply getitem_err in Hgi].
  destruct (getitem beta i) as [b|e1] eqn:Hbi; cbn [Py.bind];
    [discriminate | intros [= <-]; by apply getitem_err in Hbi].
Qed.

(** X11: [layer_norm] returns a vector exactly when the input is not empty
    and [gamma] and [beta] are at least as long as it; the empty input
    raises ZeroDivisionError (the mean divides by the length), a scale or
    bias vector that is too short raises IndexError. *)
Theorem layer_norm_result (inp gamma beta : list Z) :
  (inp = [] -> layer_norm inp gamma beta = Err ZeroDivisionError) /\
  (inp <> [] -> len gamma < len inp \/ len beta < len inp ->
   layer_norm inp gamma beta = Err IndexError) /\
  (inp <> [] -> len inp <= len gamma -> len inp <= len beta ->
   exists out, layer_norm inp gamma beta = Ok out /\ length out = length inp).
Proof.
  split; [by intros ->|]. split.
  - intros Hne Hshort. pose proof (len_pos_of_ne inp Hne) as Hn.
    destruct (layer_norm inp gamma beta) as [out|e] eqn:Hrun;
      [|f_equal; by apply (layer_norm_err_kind inp gamma beta)].
    exfalso. revert Hrun. unfold layer_norm, floordiv.
    destruct (Z.eqb_spec (len inp) 0); [lia|]. cbn [Py.bind].
    destruct (fp_sqrt _) as [s|e]; [|discriminate]. cbn [Py.bind].
    intros Hrun.
    set (i := Z.min (len gamma) (len beta)).
    assert (0 <= i < len inp) as Hi by (unfold i, len in *; lia).
    destruct (mapM_range_lookup _ _ i out Hrun Hi) as (y & _ & Hy).
    cbv beta in Hy.
    destruct (getitem inp i); cbn [Py.bind] in Hy; [|discriminate].
    destruct (Z.eqb ((if s <? 100 then 100 else s)) 0); cbn [Py.bind] in Hy; [discriminate|].
    destruct (Z.le_gt_cases (len gamma) (len beta)).
    + rewrite (getitem_out_of_range gamma i) in Hy by (unfold i; lia). discriminate.
    + destruct (getitem gamma i); cbn [Py.bind] in Hy; [|discriminate].
      rewrite (getitem_out_of_range beta i) in Hy by (unfold i; lia). discriminate.
  - intros Hne Hg Hb. destruct (layer_norm_ok inp gamma beta Hne Hg Hb) as (out & Hout & Hlen).
    exists out. split; [done|]. unfold len in Hlen. lia.
Qed.

Lemma layer_norm_result_witness :
  layer_norm [] [1] [1] = Err ZeroDivisionError /\
  layer_norm [5; 6] [1] [1; 1] = Err IndexError /\
  exists out, layer_norm [5; 6] [10000; 10000; 3] [0; 0] = Ok out /\ length out = 2%nat.
Proof.
  destruct (layer_norm_result [] [1] [1]) as (H1 & _ & _).
  destruct (layer_norm_result [5; 6] [1] [1; 1]) as (_ & H2 & _).
  destruct (layer_norm_result [5; 6] [10000; 10000; 3] [0; 0]) as (_ & _ & H3).
  split; [apply H1; reflexivity|].
  split; [apply H2; [discriminate | left; vm_compute; reflexivity]|].
  apply H3; [discriminate | vm_compute; discriminate | vm_compute; discriminate].
Defined.

Lemma sum_replicate (n : nat) (c : Z) : Py.sum (replicate n c) = Z.of_nat n * c.
Proof.
  induction n as [|n IH]; [reflexivity|].
  simpl replicate. rewrite sum_cons, IH. lia.
Qed.

(** X12: on a constant input vector every deviation is 0 and [layer_norm]
    returns the bias vector [beta], whatever the scale vector is. *)
Theorem layer_norm_constant (n : nat) (c : Z) (gamma beta : list Z) :
  (0 < n)%nat -> length gamma = n -> length beta = n ->
  layer_norm (replicate n c) gamma beta = Ok beta.
Proof.
  intros Hn Hg Hb.
  assert (len (replicate n c) = Z.of_nat n) as Hlen by (unfold len; by rewrite length_replicate).
  assert (ln_mean (replicate n c) = c) as Hmean.
  { unfold ln_mean. rewrite Hlen, sum_replicate, Z.mul_comm. apply Z.div_mul. lia. }
  destruct (fp_sqrt_ok (ln_variance (replicate n c) + 100)) as (s & Hs & _).
  rewrite (layer_norm_eq _ gamma beta s);
    [|destruct n; [lia | discriminate] | unfold len in *; lia | unfold len in *; lia | done].
  f_equal.
  transitivity (map (fun i => nth (Z.to_nat i) beta 0) (range (len beta)));
    [|apply map_nth_range].
  replace (len beta) with (len (replicate n c)) by (unfold len in *; lia).
  apply map_ext_in. intros i Hi. apply in_range in Hi.
  rewrite Hmean.
  rewrite (nth_lookup_Some _ _ 0 c) by (apply lookup_replicate_2; lia).
  rewrite Z.sub_diag. rewrite (Z.mul_0_l SCALE). rewrite (Z.div_0_l (Z.max s 100)) by lia.
  rewrite Z.mul_0_l. rewrite Z.div_0_l by (unfold SCALE; lia). lia.
Qed.

Lemma layer_norm_constant_witness :
  layer_norm [700; 700; 700] [1; 2; 3] [4; 5; 6] = Ok [4; 5; 6].
Proof. apply (layer_norm_constant 3 700 [1; 2; 3] [4; 5; 6]); [lia | reflexivity | reflexivity]. Defined.

End LayerNormMore.

(** ** Attention, feed-forward network and blocks *)

Section PipelineMore.

Lemma fp_softmax_singleton (s : Z) : fp_softmax [s] = Ok [SCALE].
Proof.
  rewrite (fp_softmax_eq [s] s eq_refl), softmax_exps_eq. simpl.
  rewrite Z.sub_diag, fp_exp_0.
  change (Py.sum [SCALE]) with SCALE. by rewrite Z.div_mul by (unfold SCALE; lia).
Qed.

(** X13: a sequence of one token attends only to itself: the single score
    gets the whole weight [SCALE] and the output of the head is its value
    vector, unchanged. *)
Theorem attn_single_token (q k v : list Z) (D scale : Z) :
  len q = D -> len k = D -> len v = D -> scale <> 0 ->
  attn_row [q] [k] [v] 1 D scale 0 = Ok v.
Proof.
  intros Hq Hk Hv Hscale.
  assert (forall r : list Z, len r = D -> shape [r] 1 D) as Hshape
    by (intros r Hr; split; [reflexivity | by repeat constructor]).
  unfold attn_row.
  destruct (attn_scores_ok [q] [k] 1 D scale 0 (Hshape q Hq) (Hshape k Hk) Hscale ltac:(lia))
    as (scores & -> & Hlen). cbn [Py.bind].
  destruct scores as [|s [|s' scores]]; try (unfold len in Hlen; simpl in Hlen; lia).
  rewrite fp_softmax_singleton. cbn [Py.bind].
  unfold attn_apply.
  transitivity (Ok (map (fun d => nth (Z.to_nat d) v 0) (range D)));
    [|f_equal; rewrite <- Hv; apply map_nth_range].
  apply mapM_range_pure. intros d Hd.
  change (range 1) with [0]. cbn [mapM].
  rewrite (getitem_nonneg [SCALE] 0 0) by (unfold len; simpl; lia). cbn [Py.bind].
  unfold getitem2. rewrite (getitem_nonneg [v] 0 []) by (unfold len; simpl; lia).
  cbn [Py.bind]. change (nth (Z.to_nat 0) [v] []) with v.
  rewrite (getitem_nonneg v d 0) by lia. cbn [Py.bind].
  change (nth (Z.to_nat 0) [SCALE] 0) with SCALE.
  rewrite Z.mul_comm, Z.div_mul by (unfold SCALE; lia).
  f_equal; unfold Py.sum; simpl; lia.
Qed.

Lemma attn_single_token_witness :
  attn_row [[3; 4]] [[5; 6]] [[70; -80]] 1 2 10000 0 = Ok [70; -80].
Proof.
  apply (attn_single_token [3; 4] [5; 6] [70; -80] 2 10000);
    [reflexivity | reflexivity | reflexivity | lia].
Defined.

(** X14: in a well-formed model the attention, the feed-forward network,
    one block and the whole stack of blocks never raise on a hidden state
    of [n] rows of width [n_embd]; each returns a hidden state of the
    same shape.  The empty state ([n = 0]) is included. *)
Theorem blocks_keep_shape
    (config : config_t) (weights : weights_t) (E H L V W : Z)
    (hidden : list (list Z)) (n : Z) :
  well_formed config weights E H L V W -> 0 <= n -> shape hidden n E ->
  (forall layer, 0 <= layer < L ->
     (exists out, multi_head_attention hidden layer config weights = Ok out /\ shape out n E) /\
     (exists out, feed_forward hidden layer config weights = Ok out /\ shape out n E) /\
     (exists out, transformer_block hidden layer config weights = Ok out /\ shape out n E)) /\
  (exists out, blocks hidden L config weights = Ok out /\ shape out n E).
Proof.
  intros Hwf Hn Hshape. split.
  - intros layer Hlayer. split; [|split].
    + by apply (multi_head_attention_ok config weights E H L V W).
    + by apply (feed_forward_ok config weights E H L V W).
    + by apply (transformer_block_ok config weights E H L V W).
  - by apply (blocks_ok config weights E H L V W).
Qed.

Lemma blocks_keep_shape_witness :
  exists out, blocks [[100; 200]; [-300; 400]] 1 Demo.config Demo.weights = Ok out
              /\ shape out 2 2.
Proof.
  destruct (blocks_keep_shape Demo.config Demo.weights 2 1 1 3 2 [[100; 200]; [-300; 400]] 2
              demo_well_formed ltac:(lia)
              ltac:(split; [reflexivity | repeat constructor])) as [_ Hstack].
  exact Hstack.
Defined.

(** X15: in a well-formed model the empty token sequence runs through the
    embedding and every block with an empty hidden state and then fails
    with IndexError at [hidden[-1]]; there is no check for an empty
    sequence. *)
Theorem forward_empty_sequence
    (config : config_t) (weights : weights_t) (E H L V W : Z) :
  well_formed config weights E H L V W ->
  forward [] config weights = Err IndexError.
Proof.
  intros Hwf. pose proof Hwf as Hwf'. destruct Hwf'.
  destruct wf_positive0 as (HE & HH & HL & HV & HW).
  destruct wf_wte0 as (wte & Hwte & _). destruct wf_wpe0 as (wpe & Hwpe & _).
  destruct wf_ln_f_w0 as (g & Hg & _). destruct wf_ln_f_b0 as (b & Hb & _).
  unfold forward.
  rewrite (truncate_short [] config W wf_block_size0) by (unfold len; simpl; lia).
  cbn [Py.bind].
  rewrite (lookup_key_ok _ _ _ wf_n_embd0), (lookup_key_ok _ _ _ wf_vocab_size0),
    (lookup_key_ok _ _ _ wf_n_layer0), (lookup_key_ok _ _ _ Hwte), (lookup_key_ok _ _ _ Hwpe),
    (lookup_key_ok _ _ _ Hg), (lookup_key_ok _ _ _ Hb).
  cbn [Py.bind]. change (embed [] E wte wpe) with (@Ok (list (list Z)) []). cbn [Py.bind].
  destruct (blocks_ok config weights E H L V W Hwf [] 0 ltac:(lia)
              ltac:(split; [reflexivity | constructor])) as (h & -> & Hlen & _).
  cbn [Py.bind]. destruct h; [reflexivity | unfold len in Hlen; simpl in Hlen; lia].
Qed.

Lemma forward_empty_sequence_witness :
  forward [] Demo.config Demo.weights = Err IndexError.
Proof. apply (forward_empty_sequence Demo.config Demo.weights 2 1 1 3 2 demo_well_formed). Defined.

End PipelineMore.

(** ** Embedding and position-wise layers *)

Section EmbedMore.

Lemma combine_lookup {A B : Type} (l1 : list A) (l2 : list B) (t : nat) (a : A) (b : B) :
  l1 !! t = Some a -> l2 !! t = Some b -> combine l1 l2 !! t = Some (a, b).
Proof.
  revert l2 t. induction l1 as [|x l1 IH]; intros [|y l2] [|t]; simpl; try discriminate.
  - by intros [= ->] [= ->].
  - apply IH.
Qed.

(** X16: when the embedding succeeds it returns one row per token, and the
    row of a non-negative token id [tok] at position [t] is, element by
    element, [wte[tok * n_embd + i] + wpe[t * n_embd + i]]. *)
Theorem embed_rows (toks wte wpe : list Z) (E : Z) (hidden : list (list Z)) :
  embed toks E wte wpe = Ok hidden ->
  length hidden = length toks /\
  forall (t : nat) (tok : Z), toks !! t = Some tok -> 0 <= tok ->
    hidden !! t =
      Some (map (fun i => nth (Z.to_nat (tok * E + i)) wte 0
                          + nth (Z.to_nat (Z.of_nat t * E + i)) wpe 0)
                (range E)).
Proof.
  intros Hrun. unfold embed in Hrun. apply mapM_ok_inv in Hrun.
  assert (length (combine (range (len toks)) toks) = length toks) as Hlen
    by (rewrite length_combine, range_length; unfold len; lia).
  split; [by rewrite <- (Forall2_length _ _ _ Hrun)|].
  intros t tok Htok Hpos.
  pose proof (lookup_lt_Some _ _ _ Htok) as Ht.
  pose proof (combine_lookup (range (len toks)) toks t _ _
                (range_lookup (len toks) t ltac:(unfold len; lia)) Htok) as Hc.
  destruct (Forall2_lookup_l _ _ _ _ _ Hrun Hc) as (row & Hrow & Hf).
  rewrite Hrow. f_equal. cbv beta iota in Hf.
  apply (mapM_ok_pure _ _ _ _ Hf). intros i y Hi Hy. apply in_range in Hi.
  apply bind_ok_inv in Hy as (e & He & Hy). apply bind_ok_inv in Hy as (p & Hp & [= <-]).
  rewrite (getitem_nonneg_inv _ _ _ 0 He) by nia.
  rewrite (getitem_nonneg_inv _ _ _ 0 Hp) by nia. reflexivity.
Qed.

Lemma embed_rows_witness :
  embed [2; 0] 2 [1000; -2000; 3000; 4000; -5000; 6000] [100; 200; -300; 400]
    = Ok [[-4900; 6200]; [700; -1600]] /\
  [[-4900; 6200]; [700; -1600]] !! 1%nat =
    Some (map (fun i => nth (Z.to_nat (0 * 2 + i)) [1000; -2000; 3000; 4000; -5000; 6000] 0
                        + nth (Z.to_nat (Z.of_nat 1 * 2 + i)) [100; 200; -300; 400] 0)
              (range 2)).
Proof.
  assert (embed [2; 0] 2 [1000; -2000; 3000; 4000; -5000; 6000] [100; 200; -300; 400]
          = Ok [[-4900; 6200]; [700; -1600]]) as Hrun by (vm_compute; reflexivity).
  split; [exact Hrun|].
  destruct (embed_rows _ _ _ _ _ Hrun) as [_ Hrows].
  apply (Hrows 1%nat 0); [reflexivity | lia].
Defined.

Lemma dot_col_ext (x y : Z -> result Z) (w b : list Z) (in_dim out_dim i : Z) :
  (forall j, x j = y j) ->
  dot_col x w b in_dim out_dim i = dot_col y w b in_dim out_dim i.
Proof.
  intros Hxy. unfold dot_col. destruct (getitem b i) as [s|e]; [|reflexivity]. cbn [Py.bind].
  generalize (range in_dim) as l. intros l. revert s.
  induction l as [|j l IH]; intros s; [reflexivity|]. cbn [foldM].
  rewrite Hxy. destruct (y j) as [xj|e]; [|reflexivity]. cbn [Py.bind].
  destruct (getitem w (j * out_dim + i)) as [wj|e]; [|reflexivity]. cbn [Py.bind].
  apply IH.
Qed.

Lemma getitem2_row {A : Type} (m : list (list A)) (t : nat) (row : list A) (j : Z) :
  m !! t = Some row -> getitem2 m (Z.of_nat t) j = getitem2 [row] 0 j.
Proof.
  intros Hrow. pose proof (lookup_lt_Some _ _ _ Hrow) as Ht. unfold getitem2.
  rewrite (getitem_nonneg m (Z.of_nat t) row) by (unfold len; lia).
  rewrite Nat2Z.id, (nth_lookup_Some _ _ row row Hrow). reflexivity.
Qed.

(** X17: the feed-forward network works on every position independently:
    it returns one row per input row, and the row of position [t] is what
    the network returns for the one-row state made of row [t] alone. *)
Theorem feed_forward_position_wise
    (hidden : list (list Z)) (layer : Z) (config : config_t) (weights : weights_t)
    (out : list (list Z)) :
  feed_forward hidden layer config weights = Ok out ->
  length out = length hidden /\
  forall (t : nat) (row : list Z), hidden !! t = Some row ->
    exists o, out !! t = Some o /\ feed_forward [row] layer config weights = Ok [o].
Proof.
  intros Hrun. unfold feed_forward in *.
  apply bind_ok_inv in Hrun as (E & -> & Hrun). cbn [Py.bind].
  apply bind_ok_inv in Hrun as (HD & -> & Hrun). cbn [Py.bind].
  apply bind_ok_inv in Hrun as (w1 & -> & Hrun). cbn [Py.bind].
  apply bind_ok_inv in Hrun as (b1 & -> & Hrun). cbn [Py.bind].
  apply bind_ok_inv in Hrun as (w2 & -> & Hrun). cbn [Py.bind].
  apply bind_ok_inv in Hrun as (b2 & -> & Hrun). cbn [Py.bind].
  split.
  - apply mapM_ok_inv in Hrun. rewrite <- (Forall2_length _ _ _ Hrun), range_length.
    unfold len. lia.
  - intros t row Hrow. pose proof (lookup_lt_Some _ _ _ Hrow) as Ht.
    destruct (mapM_range_lookup _ _ (Z.of_nat t) out Hrun ltac:(unfold len; lia))
      as (o & Ho & Hf).
    rewrite Nat2Z.id in Ho. exists o. split; [done|].
    change (range (len [row])) with [0]. cbn [mapM].
    cbv beta in Hf.
    assert (mapM (fun i => let* s := dot_col (getitem2 [row] 0) w1 b1 E HD i in Ok (fp_gelu s))
                 (range HD)
            = mapM (fun i => let* s := dot_col (getitem2 hidden (Z.of_nat t)) w1 b1 E HD i in
                             Ok (fp_gelu s)) (range HD)) as ->.
    { apply mapM_ext. intros i _.
      rewrite (dot_col_ext (getitem2 [row] 0) (getitem2 hidden (Z.of_nat t))); [reflexivity|].
      intros j. symmetry. by apply getitem2_row. }
    rewrite Hf. reflexivity.
Qed.

Lemma feed_forward_position_wise_witness :
  feed_forward [[100; 200]; [-300; 400]] 0 Demo.config Demo.weights = Ok [[-86; 101]; [-673; 690]] /\
  feed_forward [[-300; 400]] 0 Demo.config Demo.weights = Ok [[-673; 690]].
Proof.
  assert (feed_forward [[100; 200]; [-300; 400]] 0 Demo.config Demo.weights
          = Ok [[-86; 101]; [-673; 690]]) as Hrun by (vm_compute; reflexivity).
  split; [exact Hrun|].
  destruct (feed_forward_position_wise _ _ _ _ _ Hrun) as [_ Hpos].
  destruct (Hpos 1%nat [-300; 400] eq_refl) as (o & Ho & Hone).
  injection Ho as <-. exact Hone.
Defined.

End EmbedMore.

(** ** Causality of the attention row *)

Section Causality.

Lemma in_range2 (lo hi j : Z) : In j (range2 lo hi) <-> lo <= j < hi.
Proof.
  unfold range2. rewrite in_map_iff. split.
  - intros (k & <- & Hk). apply in_seq in Hk. lia.
  - intros Hj. exists (Z.to_nat (j - lo)). split; [lia | apply in_seq; lia].
Qed.

Lemma range2_length (lo hi : Z) : length (range2 lo hi) = Z.to_nat (hi - lo).
Proof. unfold range2. by rewrite length_map, length_seq. Qed.

Lemma map_seq_from (f : nat -> Z) (a b : nat) :
  map f (seq a b) = map (fun k => f (a + k)%nat) (seq 0 b).
Proof.
  revert a. induction b as [|b IH]; intros a; simpl; [reflexivity|].
  rewrite Nat.add_0_r. f_equal. rewrite (IH (S a)), <- seq_shift, map_map.
  apply map_ext. intros k. f_equal. lia.
Qed.

Lemma range_split (m n : Z) : 0 <= m <= n -> range n = range m ++ range2 m n.
Proof.
  intros Hmn. unfold range, range2.
  replace (Z.to_nat (n - 0)) with (Z.to_nat (m - 0) + Z.to_nat (n - m))%nat by lia.
  rewrite seq_app, map_app. f_equal.
  rewrite map_seq_from. apply map_ext. intros k. lia.
Qed.

Lemma mapM_app_ok {A B : Type} (f : A -> result B) (l1 l2 : list A) (ys : list B) :
  mapM f (l1 ++ l2) = Ok ys ->
  exists y1 y2, mapM f l1 = Ok y1 /\ mapM f l2 = Ok y2 /\ ys = y1 ++ y2.
Proof.
  revert ys. induction l1 as [|x l1 IH]; intros ys; simpl.
  - intros H. exists [], ys. done.
  - intros H. apply bind_ok_inv in H as (y & -> & H).
    apply bind_ok_inv in H as (ys' & Hys' & [= <-]).
    destruct (IH ys' Hys') as (y1 & y2 & -> & -> & ->).
    exists (y :: y1), y2. done.
Qed.

Lemma mapM_ok_transfer {A B : Type} (f g : A -> result B) (l : list A) (ys : list B) :
  mapM f l = Ok ys -> (forall x y, In x l -> f x = Ok y -> g x = Ok y) ->
  mapM g l = Ok ys.
Proof.
  revert ys. induction l as [|x l IH]; intros ys; simpl; [done|].
  intros H Hfg. apply bind_ok_inv in H as (y & Hy & H).
  apply bind_ok_inv in H as (ys' & Hys' & [= <-]).
  rewrite (Hfg x y ltac:(by left) Hy). cbn [Py.bind].
  rewrite (IH ys' Hys'); [reflexivity|]. intros; apply Hfg; [by right | done].
Qed.

Lemma mapM_length {A B : Type} (f : A -> result B) (l : list A) (ys : list B) :
  mapM f l = Ok ys -> length ys = length l.
Proof. intros H. apply mapM_ok_inv in H. by rewrite (Forall2_length _ _ _ H). Qed.

Lemma mapM_const {A B : Type} (f : A -> result B) (l : list A) (ys : list B) (c : B) :
  mapM f l = Ok ys -> (forall x y, In x l -> f x = Ok y -> y = c) ->
  ys = replicate (length l) c.
Proof.
  intros H Hc. rewrite (mapM_ok_pure f (fun _ => c) l ys H Hc).
  clear. induction l; simpl; [reflexivity | by f_equal].
Qed.

Lemma sum_app (a b : list Z) : Py.sum (a ++ b) = Py.sum a + Py.sum b.
Proof.
  induction a as [|x a IH]; [rewrite sum_nil; simpl; lia|].
  simpl app. rewrite !sum_cons, IH. lia.
Qed.

Lemma sum_replicate_zero (c : nat) : Py.sum (replicate c 0) = 0.
Proof. rewrite sum_replicate. lia. Qed.

Lemma max_unique (l : list Z) (a : Z) :
  In a l -> Forall (fun y => y <= a) l -> Py.max l = Ok a.
Proof.
  intros Hin Hall. destruct (max_ok l) as [m Hm]; [by destruct l|].
  destruct (max_spec l m Hm) as [Hmin Hmall].
  pose proof (proj1 (List.Forall_forall _ _) Hall m Hmin).
  pose proof (proj1 (List.Forall_forall _ _) Hmall a Hin).
  cbv beta in *. rewrite Hm. f_equal. lia.
Qed.

Lemma getitem_take {A : Type} (l : list A) (m t : Z) :
  0 <= t < m -> getitem (take (Z.to_nat m) l) t = getitem l t.
Proof.
  intros Ht. unfold getitem.
  destruct (Z.ltb_spec t 0); [lia|]. destruct (Z.ltb_spec t 0); [lia|].
  by rewrite lookup_take_lt by lia.
Qed.

Lemma getitem2_take {A : Type} (l : list (list A)) (m t j : Z) :
  0 <= t < m -> getitem2 (take (Z.to_nat m) l) t j = getitem2 l t j.
Proof. intros Ht. unfold getitem2. by rewrite getitem_take. Qed.

(** The scores of row [i]: the real scores of the prefix, then sentinels *)
Lemma attn_scores_prefix (Q K : list (list Z)) (n D scale i : Z) (scores : list Z) :
  0 <= i < n -> attn_scores Q K n D scale i = Ok scores ->
  exists real,
    attn_scores (take (Z.to_nat (i + 1)) Q) (take (Z.to_nat (i + 1)) K) (i + 1) D scale i
      = Ok real /\
    length real = Z.to_nat (i + 1) /\
    scores = real ++ replicate (Z.to_nat (n - (i + 1))) (-1000000000).
Proof.
  intros Hi Hrun. unfold attn_scores in *.
  rewrite (range_split (i + 1) n) in Hrun by lia.
  apply mapM_app_ok in Hrun as (real & masked & Hreal & Hmasked & ->).
  exists real. split; [|split].
  - rewrite <- Hreal. apply mapM_ext. intros j Hj. apply in_range in Hj.
    destruct (j >? i); [reflexivity|].
    f_equal. apply mapM_ext. intros d _.
    by rewrite !getitem2_take by lia.
  - by rewrite (mapM_length _ _ _ Hreal), range_length.
  - f_equal. rewrite <- range2_length. apply (mapM_const _ _ _ _ Hmasked).
    intros j y Hj Hy. apply in_range2 in Hj.
    destruct (Z.gtb_spec j i); [by injection Hy as <- | lia].
Qed.

Lemma fp_softmax_masked_tail (real : list Z) (c : nat) (s : Z) :
  In s real -> -1000000000 + 8 * SCALE < s ->
  fp_softmax (real ++ replicate c (-1000000000))
  = (let* p := fp_softmax real in Ok (p ++ replicate c 0)).
Proof.
  intros Hin Hs. destruct (max_ok real) as [m Hm]; [by destruct real|].
  destruct (max_spec real m Hm) as [Hmin Hmall].
  assert (s <= m) as Hsm by (by apply (proj1 (List.Forall_forall _ _) Hmall s)).
  assert (Py.max (real ++ replicate c (-1000000000)) = Ok m) as Hm'.
  { apply max_unique; [apply in_or_app; by left|].
    apply Forall_app. split; [done|]. apply Forall_replicate. pose proof SCALE_pos. lia. }
  rewrite (fp_softmax_eq _ m Hm'), (fp_softmax_eq _ m Hm). cbn [Py.bind].
  rewrite !softmax_exps_eq. simpl fst. simpl snd.
  rewrite !map_app. change (@map Z Z) with (@fmap list _ Z Z).
  rewrite !fmap_replicate. change (@fmap list _ Z Z) with (@map Z Z).
  rewrite fp_exp_low by (pose proof SCALE_pos; lia).
  rewrite sum_app, sum_replicate_zero, Z.add_0_r, Z.mul_0_l, Zdiv_0_l. reflexivity.
Qed.

Lemma attn_apply_prefix (p : list Z) (V : list (list Z)) (n m D : Z) (out : list Z) :
  0 <= m <= n -> len p = m ->
  attn_apply (p ++ replicate (Z.to_nat (n - m)) 0) V n D = Ok out ->
  attn_apply p (take (Z.to_nat m) V) m D = Ok out.
Proof.
  intros Hmn Hp Hrun. unfold attn_apply in *.
  apply (mapM_ok_transfer _ _ _ _ Hrun). intros d y _ Hy.
  apply bind_ok_inv in Hy as (terms & Hterms & [= <-]).
  rewrite (range_split m n) in Hterms by lia.
  apply mapM_app_ok in Hterms as (t1 & t2 & Ht1 & Ht2 & ->).
  assert (t2 = replicate (length (range2 m n)) 0) as ->.
  { apply (mapM_const _ _ _ _ Ht2). intros j y Hj Hy. apply in_range2 in Hj.
    apply bind_ok_inv in Hy as (pj & Hpj & Hy).
    apply bind_ok_inv in Hy as (v & _ & [= <-]).
    rewrite (getitem_nonneg_inv _ _ _ 0 Hpj) by lia.
    rewrite app_nth2 by (unfold len in *; lia).
    rewrite (nth_lookup_Some _ _ 0 0), Z.mul_0_l, Zdiv_0_l; [done|].
    apply lookup_replicate_2. unfold len in *. lia. }
  rewrite sum_app, sum_replicate_zero, Z.add_0_r.
  assert (mapM (fun j => let* pj := getitem p j in
                         let* v := getitem2 (take (Z.to_nat m) V) j d in
                         Ok (pj * v / SCALE)) (range m) = Ok t1) as ->; [|reflexivity].
  rewrite <- Ht1. apply mapM_ext. intros j Hj. apply in_range in Hj.
  rewrite getitem2_take by lia.
  rewrite (getitem_nonneg p j 0), (getitem_nonneg (p ++ _) j 0)
    by (unfold len in *; rewrite ?length_app; lia).
  by rewrite app_nth1 by (unfold len in *; lia).
Qed.

(** X18: causality of one attention row.  When the row of query position
    [i] succeeds and one of its scores exceeds the sentinel by more than
    [8 * SCALE], the output for position [i] is exactly what the same
    computation returns on the sequence cut after position [i]: the
    queries, keys and values of the later positions have no influence. *)
Theorem attn_row_causal
    (Q K V : list (list Z)) (n D scale i : Z) (scores out : list Z) (k : nat) (s : Z) :
  0 <= i < n ->
  attn_scores Q K n D scale i = Ok scores ->
  scores !! k = Some s -> -1000000000 + 8 * SCALE < s ->
  attn_row Q K V n D scale i = Ok out ->
  attn_row (take (Z.to_nat (i + 1)) Q) (take (Z.to_nat (i + 1)) K)
           (take (Z.to_nat (i + 1)) V) (i + 1) D scale i = Ok out.
Proof.
  intros Hi Hscores Hk Hs Hrun. unfold attn_row in *.
  rewrite Hscores in Hrun. cbn [Py.bind] in Hrun.
  destruct (attn_scores_prefix Q K n D scale i scores Hi Hscores)
    as (real & -> & Hlen & ->). cbn [Py.bind].
  assert (In s real) as Hin.
  { destruct (Nat.lt_ge_cases k (length real)) as [Hlt|Hge].
    - rewrite lookup_app_l in Hk by done.
      apply list_elem_of_In. by apply (list_elem_of_lookup_2 _ k).
    - rewrite lookup_app_r in Hk by done.
      apply lookup_replicate in Hk as [-> _]. unfold SCALE in Hs. lia. }
  rewrite (fp_softmax_masked_tail real _ s Hin Hs) in Hrun.
  destruct (fp_softmax real) as [p|e] eqn:Hp; [|discriminate]. cbn [Py.bind] in *.
  assert (len p = i + 1) as Hplen.
  { destruct (fp_softmax_bounds real) as (p' & Hp' & Hl & _); [by destruct real|].
    rewrite Hp in Hp'. injection Hp' as <-. unfold len. lia. }
  apply (attn_apply_prefix p V n (i + 1) D out); [lia | done | done].
Qed.

Lemma attn_row_causal_witness :
  attn_row [[20000]; [10000]] [[30000]; [-5000]] [[11]; [22]] 2 1 10000 0 = Ok [11] /\
  attn_row [[20000]] [[30000]] [[11]] 1 1 10000 0 = Ok [11].
Proof.
  assert (attn_row [[20000]; [10000]] [[30000]; [-5000]] [[11]; [22]] 2 1 10000 0 = Ok [11])
    as Hrun by (vm_compute; reflexivity).
  split; [exact Hrun|].
  apply (attn_row_causal [[20000]; [10000]] [[30000]; [-5000]] [[11]; [22]] 2 1 10000 0
           [60000; -1000000000] [11] 0%nat 60000);
    [lia | vm_compute; reflexivity | reflexivity | vm_compute; reflexivity | exact Hrun].
Defined.

End Causality.

(** ** The loader *)

Section LoaderProps.

Variable strip : string -> string.
Variable py_int : string -> option Z.
Variable read_lines : list string -> option (list string).

Lemma load_config_inv (config : config_t) :
  load_config strip py_int read_lines = Some config ->
  exists (lines : list string) (parsed : config_t) (E H : Z),
    read_lines ["config.txt"] = Some lines /\
    fold_opt (load_config_line strip py_int) ∅ lines = Some parsed /\
    parsed !! "n_embd" = Some E /\ parsed !! "n_head" = Some H /\ H <> 0 /\
    config !! "n_embd" = Some E /\ config !! "n_head" = Some H /\
    config !! "head_dim" = Some (E / H) /\
    config !! "hidden_dim" = Some (4 * E) /\
    forall key, key <> "head_dim" -> key <> "hidden_dim" -> config !! key = parsed !! key.
Proof.
  unfold load_config. intros Hrun.
  destruct (read_lines ["config.txt"]) as [lines|] eqn:Hlines; [|discriminate].
  destruct (fold_opt _ ∅ lines) as [parsed|] eqn:Hparsed; [|discriminate].
  destruct (parsed !! "n_embd") as [E|] eqn:HE; [|discriminate].
  destruct (parsed !! "n_head") as [H|] eqn:HH; [|discriminate].
  destruct (Z.eqb_spec H 0) as [|Hne]; [discriminate|].
  rewrite lookup_insert_ne in Hrun by discriminate. rewrite HE in Hrun.
  injection Hrun as <-.
  exists lines, parsed, E, H.
  split; [done|]. split; [done|]. split; [done|]. split; [done|]. split; [done|].
  split. { by rewrite !lookup_insert_ne by discriminate. }
  split. { by rewrite !lookup_insert_ne by discriminate. }
  split. { by rewrite lookup_insert_ne, lookup_insert_eq by discriminate. }
  split. { by rewrite lookup_insert_eq. }
  intros key H1 H2. by rewrite !lookup_insert_ne by done.
Qed.

Lemma fold_opt_app {A S : Type} (step : S -> A -> option S) (l1 l2 : list A) (s : S) :
  fold_opt step s (l1 ++ l2) =
    match fold_opt step s l1 with
    | Some s' => fold_opt step s' l2
    | None => None
    end.
Proof.
  revert s. induction l1 as [|x l1 IH]; intros s; simpl; [reflexivity|].
  destruct (step s x); [apply IH | reflexivity].
Qed.

Lemma fold_opt_range_inv {S : Type} (step : S -> Z -> option S) (I : Z -> S -> Prop)
    (n : Z) (s0 r : S) :
  I 0 s0 ->
  (forall k s s', 0 <= k < n -> I k s -> step s k = Some s' -> I (k + 1) s') ->
  fold_opt step s0 (range n) = Some r -> I (Z.max 0 n) r.
Proof.
  intros H0. destruct (Z.le_gt_cases n 0) as [Hn|Hn].
  { intros _. unfold range, range2. replace (Z.to_nat (n - 0)) with O by lia.
    simpl. intros [= <-]. by rewrite Z.max_l by lia. }
  rewrite Z.max_r by lia. revert r.
  assert (0 <= n) as Hn0 by lia. clear Hn. revert n Hn0.
  apply (natlike_ind (fun n => forall r,
           (forall k s s', 0 <= k < n -> I k s -> step s k = Some s' -> I (k + 1) s') ->
           fold_opt step s0 (range n) = Some r -> I n r)).
  - intros r _ [= <-]. done.
  - intros n Hn IH r Hstep. replace (Z.succ n) with (n + 1) in * by lia.
    rewrite range_succ, fold_opt_app by done.
    destruct (fold_opt step s0 (range n)) as [s|] eqn:Hs; [|discriminate].
    simpl. destruct (step s n) as [s'|] eqn:Hs'; [|discriminate]. intros [= <-].
    apply (Hstep n s); [lia | | done].
    apply IH; [|done]. intros k s1 s2 Hk. apply Hstep. lia.
Qed.

Lemma load_into_keys (weights weights' : weights_t) (key : string) (filepath : list string) :
  load_into strip py_int read_lines weights key filepath = Some weights' ->
  is_Some (weights' !! key) /\
  forall x, is_Some (weights !! x) -> is_Some (weights' !! x).
Proof.
  unfold load_into. destruct (load_weights _ _ _ _) as [t|]; [|discriminate].
  intros [= <-]. split; [rewrite lookup_insert_eq; eauto|].
  intros x Hx. rewrite lookup_insert. by case_decide.
Qed.

(** The twelve tensors that [load_model] stores for one layer *)
Lemma load_layer_keys (weights weights' : weights_t) (layer : Z) :
  load_layer strip py_int read_lines weights layer = Some weights' ->
  (forall x, is_Some (weights !! x) -> is_Some (weights' !! x)) /\
  Forall (fun prefix => is_Some (weights' !! fkey prefix layer))
    ["ln1_w_"; "ln1_b_"; "attn_w_"; "attn_b_"; "attn_proj_w_"; "attn_proj_b_";
     "ln2_w_"; "ln2_b_"; "ffn_fc1_w_"; "ffn_fc1_b_"; "ffn_fc2_w_"; "ffn_fc2_b_"].
Proof.
  unfold load_layer. intros Hrun.
  repeat match type of Hrun with
  | (?m ≫= _) = Some _ =>
      let w := fresh "w" in let Hw := fresh "Hw" in
      destruct m as [w|] eqn:Hw; [simpl in Hrun | discriminate Hrun];
      apply load_into_keys in Hw as [? ?]
  end.
  apply load_into_keys in Hrun as [? ?].
  split; [intros x Hx|repeat constructor];
    repeat first
      [ assumption
      | match goal with
        | M : forall x, is_Some (_ !! x) -> is_Some (?w !! x) |- is_Some (?w !! _) => apply M
        end ].
Qed.

Lemma load_model_inv (config : config_t) (weights : weights_t) :
  load_model strip py_int read_lines = Some (config, weights) ->
  load_config strip py_int read_lines = Some config /\
  Forall (fun key => is_Some (weights !! key)) ["wte"; "wpe"; "ln_f_w"; "ln_f_b"] /\
  exists L, config !! "n_layer" = Some L /\
    forall layer, 0 <= layer < L ->
      Forall (fun prefix => is_Some (weights !! fkey prefix layer))
        ["ln1_w_"; "ln1_b_"; "attn_w_"; "attn_b_"; "attn_proj_w_"; "attn_proj_b_";
         "ln2_w_"; "ln2_b_"; "ffn_fc1_w_"; "ffn_fc1_b_"; "ffn_fc2_w_"; "ffn_fc2_b_"].
Proof.
  unfold load_model. intros Hrun.
  destruct (load_config _ _ _) as [config'|]; [simpl in Hrun | discriminate Hrun].
  destruct (load_into _ _ _ ∅ _ _) as [w1|] eqn:H1; [simpl in Hrun | discriminate Hrun].
  destruct (load_into _ _ _ w1 _ _) as [w2|] eqn:H2; [simpl in Hrun | discriminate Hrun].
  destruct (load_into _ _ _ w2 _ _) as [w3|] eqn:H3; [simpl in Hrun | discriminate Hrun].
  destruct (load_into _ _ _ w3 _ _) as [w4|] eqn:H4; [simpl in Hrun | discriminate Hrun].
  destruct (config' !! "n_layer") as [L|] eqn:HL; [simpl in Hrun | discriminate Hrun].
  destruct (fold_opt _ w4 (range L)) as [w|] eqn:Hfold; [simpl in Hrun | discriminate Hrun].
  injection Hrun as <- <-.
  apply load_into_keys in H1 as [K1 M1], H2 as [K2 M2], H3 as [K3 M3], H4 as [K4 M4].
  pose proof (fold_opt_range_inv (load_layer strip py_int read_lines)
                (fun k w' =>
                   (forall x, is_Some (w4 !! x) -> is_Some (w' !! x)) /\
                   forall layer, 0 <= layer < k ->
                     Forall (fun prefix => is_Some (w' !! fkey prefix layer))
                       ["ln1_w_"; "ln1_b_"; "attn_w_"; "attn_b_"; "attn_proj_w_";
                        "attn_proj_b_"; "ln2_w_"; "ln2_b_"; "ffn_fc1_w_"; "ffn_fc1_b_";
                        "ffn_fc2_w_"; "ffn_fc2_b_"])
                L w4 w) as Hinv.
  destruct Hinv as [Hmono Hlayers]; [split; [done | intros; lia] | | done |].
  - intros k s s' Hk [Hm Hl] Hstep. apply load_layer_keys in Hstep as [Hm' Hnew].
    split; [intros x Hx; by apply Hm', Hm|]. intros layer Hlayer.
    destruct (Z.eq_dec layer k) as [->|Hne]; [done|].
    eapply Forall_impl; [apply (Hl layer); lia|]. simpl. intros prefix. apply Hm'.
  - split; [reflexivity|].
    split; [repeat constructor; apply Hmono; auto|].
    exists L. split; [done|]. intros layer Hlayer. apply Hlayers. lia.
Qed.

(** X19: when [load_config] returns a configuration, [n_embd] and a
    non-zero [n_head] were read from the file, [head_dim] is their floored
    quotient and [hidden_dim] is [4 * n_embd], whatever the file says
    about these two keys; every other key has the value of its last line
    in the file. *)
Theorem load_config_derived (config : config_t) :
  load_config strip py_int read_lines = Some config ->
  exists (lines : list string) (parsed : config_t) (E H : Z),
    read_lines ["config.txt"] = Some lines /\
    fold_opt (load_config_line strip py_int) ∅ lines = Some parsed /\
    parsed !! "n_embd" = Some E /\ parsed !! "n_head" = Some H /\ H <> 0 /\
    config !! "n_embd" = Some E /\ config !! "n_head" = Some H /\
    config !! "head_dim" = Some (E / H) /\
    config !! "hidden_dim" = Some (4 * E) /\
    forall key, key <> "head_dim" -> key <> "hidden_dim" -> config !! key = parsed !! key.
Proof. apply load_config_inv. Qed.

(** X20: when [load_model] returns, the dictionary of weights holds the
    four global tensors and, for every layer below [n_layer], the twelve
    per-layer tensors under exactly the keys that the transformer block,
    the attention and the feed-forward network read. *)
Theorem load_model_keys (config : config_t) (weights : weights_t) :
  load_model strip py_int read_lines = Some (config, weights) ->
  load_config strip py_int read_lines = Some config /\
  Forall (fun key => is_Some (weights !! key)) ["wte"; "wpe"; "ln_f_w"; "ln_f_b"] /\
  exists L, config !! "n_layer" = Some L /\
    forall layer, 0 <= layer < L ->
      Forall (fun prefix => is_Some (weights !! fkey prefix layer))
        ["ln1_w_"; "ln1_b_"; "attn_w_"; "attn_b_"; "attn_proj_w_"; "attn_proj_b_";
         "ln2_w_"; "ln2_b_"; "ffn_fc1_w_"; "ffn_fc1_b_"; "ffn_fc2_w_"; "ffn_fc2_b_"].
Proof. apply load_model_inv. Qed.

End LoaderProps.

Lemma load_config_derived_witness :
  exists (config : config_t) (E H : Z),
    load_config Demo.dir_strip Demo.dir_int Demo.dir_lines = Some config /\
    H <> 0 /\ config !! "head_dim" = Some (E / H) /\ config !! "hidden_dim" = Some (4 * E).
Proof.
  destruct (load_config Demo.dir_strip Demo.dir_int Demo.dir_lines) as [config|] eqn:Hrun.
  - destruct (load_config_derived _ _ _ config Hrun)
      as (lines & parsed & E & H & _ & _ & _ & _ & Hne & _ & _ & Hhd & Hhid & _).
    exists config, E, H. split; [reflexivity | split; [exact Hne | split; [exact Hhd | exact Hhid]]].
  - exfalso.
    assert (match load_config Demo.dir_strip Demo.dir_int Demo.dir_lines with
            | Some _ => true | None => false end = true) as Hsome by (vm_compute; reflexivity).
    rewrite Hrun in Hsome. discriminate Hsome.
Defined.

Lemma load_model_keys_witness :
  exists (config : config_t) (weights : weights_t),
    load_model Demo.dir_strip Demo.dir_int Demo.dir_lines = Some (config, weights) /\
    is_Some (weights !! "wte") /\ is_Some (weights !! fkey "ffn_fc2_b_" 0).
Proof.
  assert (match load_model Demo.dir_strip Demo.dir_int Demo.dir_lines with
          | Some (c, _) => c !! "n_layer" | None => None end = Some 1) as Hone
    by (vm_compute; reflexivity).
  destruct (load_model Demo.dir_strip Demo.dir_int Demo.dir_lines) as [[config weights]|] eqn:Hrun;
    [|discriminate Hone].
  destruct (load_model_keys _ _ _ config weights Hrun) as (_ & Hglobal & L & HL & Hlayers).
  exists config, weights. split; [reflexivity|].
  split; [by inversion Hglobal|].
  assert (L = 1) as -> by congruence.
  pose proof (Hlayers 0 ltac:(lia)) as H0.
  by repeat (apply Forall_cons in H0 as [? H0]).
Defined.

(** ** A loaded model never misses a key *)

Section NoKeyError.

Lemma bind_err {A B : Type} (m : result A) (k : A -> result B) (e : exn) :
  Py.bind m k = Err e -> m = Err e \/ exists a, m = Ok a /\ k a = Err e.
Proof. destruct m as [a|e']; simpl; [eauto | intros [= <-]; by left]. Qed.

Lemma foldM_err_kind {A S : Type} (step : S -> A -> result S) (l : list A) (s0 : S)
    (P : exn -> Prop) (e : exn) :
  (forall s x e', In x l -> step s x = Err e' -> P e') -> foldM step s0 l = Err e -> P e.
Proof.
  revert s0. induction l as [|x l IH]; intros s0 H; simpl; [discriminate|].
  intros Hrun. apply bind_err in Hrun as [Hrun | (s & _ & Hrun)].
  - eapply H; [by left | done].
  - apply (IH s); [intros; eapply H; [by right | done] | done].
Qed.

Lemma getitem2_err {A : Type} (m : list (list A)) (t j : Z) (e : exn) :
  getitem2 m t j = Err e -> e <> KeyError.
Proof.
  unfold getitem2. intros H. apply bind_err in H as [H | (row & _ & H)];
    apply getitem_err in H; by subst.
Qed.

Lemma floordiv_err (a b : Z) (e : exn) : floordiv a b = Err e -> e <> KeyError.
Proof. unfold floordiv. destruct (b =? 0); [by intros [= <-] | discriminate]. Qed.

Lemma dot_col_no_key (x : Z -> result Z) (w b : list Z) (in_dim out_dim i : Z) (e : exn) :
  (forall j e', x j = Err e' -> e' <> KeyError) ->
  dot_col x w b in_dim out_dim i = Err e -> e <> KeyError.
Proof.
  intros Hx H. unfold dot_col in H. apply bind_err in H as [H | (s & _ & H)].
  - apply getitem_err in H. by subst.
  - revert H. apply (foldM_err_kind _ _ _ (fun e => e <> KeyError)). intros s' j e' _ H.
    apply bind_err in H as [H | (xj & _ & H)]; [by apply (Hx j)|].
    apply bind_err in H as [H | (wj & _ & H)]; [|discriminate].
    apply getitem_err in H. by subst.
Qed.

Lemma linear_no_key (x : Z -> result Z) (w b : list Z) (in_dim out_dim : Z) (e : exn) :
  (forall j e', x j = Err e' -> e' <> KeyError) ->
  mapM (fun i => dot_col x w b in_dim out_dim i) (range out_dim) = Err e -> e <> KeyError.
Proof.
  intros Hx. apply (mapM_err_kind _ _ (fun e => e <> KeyError)). intros i e' _. by apply dot_col_no_key.
Qed.

Lemma layer_norm_no_key (inp gamma beta : list Z) (e : exn) :
  layer_norm inp gamma beta = Err e -> e <> KeyError.
Proof.
  destruct inp as [|x inp]; [by intros [= <-]|].
  intros H. apply layer_norm_err_kind in H; [by subst | done].
Qed.

Lemma normed_no_key (hidden : list (list Z)) (gamma beta : list Z) (n : Z) (e : exn) :
  mapM (fun t => let* row := getitem hidden t in layer_norm row gamma beta) (range n) = Err e ->
  e <> KeyError.
Proof.
  apply (mapM_err_kind _ _ (fun e => e <> KeyError)). intros t e' _ H. apply bind_err in H as [H | (row & _ & H)].
  - apply getitem_err in H. by subst.
  - by apply layer_norm_no_key in H.
Qed.

Lemma fp_softmax_no_key (arr : list Z) (e : exn) : fp_softmax arr = Err e -> e <> KeyError.
Proof.
  destruct arr as [|x arr]; [by intros [= <-]|].
  destruct (fp_softmax_bounds (x :: arr) ltac:(done)) as (out & -> & _). discriminate.
Qed.

Lemma extract_head_no_key (qkv : list (list Z)) (n D off : Z) (e : exn) :
  extract_head qkv n D off = Err e -> e <> KeyError.
Proof.
  unfold extract_head. apply (mapM_err_kind _ _ (fun e => e <> KeyError)). intros t e' _.
  apply (mapM_err_kind _ _ (fun e => e <> KeyError)). intros d e'' _. apply getitem2_err.
Qed.

Lemma attn_row_no_key (Q K V : list (list Z)) (n D scale i : Z) (e : exn) :
  attn_row Q K V n D scale i = Err e -> e <> KeyError.
Proof.
  unfold attn_row. intros H. apply bind_err in H as [H | (scores & _ & H)].
  - revert H. unfold attn_scores. apply (mapM_err_kind _ _ (fun e => e <> KeyError)). intros j e' _.
    destruct (j >? i); [discriminate|]. intros H.
    apply bind_err in H as [H | (terms & _ & H)]; [|by apply floordiv_err in H].
    revert H. apply (mapM_err_kind _ _ (fun e => e <> KeyError)). intros d e'' _ H.
    apply bind_err in H as [H | (q & _ & H)]; [by apply getitem2_err in H|].
    apply bind_err in H as [H | (k & _ & H)]; [by apply getitem2_err in H | discriminate].
  - apply bind_err in H as [H | (probs & _ & H)]; [by apply fp_softmax_no_key in H|].
    revert H. unfold attn_apply. apply (mapM_err_kind _ _ (fun e => e <> KeyError)). intros d e' _ H.
    apply bind_err in H as [H | (terms & _ & H)]; [|discriminate].
    revert H. apply (mapM_err_kind _ _ (fun e => e <> KeyError)). intros j e'' _ H.
    apply bind_err in H as [H | (p & _ & H)]; [apply getitem_err in H; by subst|].
    apply bind_err in H as [H | (v & _ & H)]; [by apply getitem2_err in H | discriminate].
Qed.

Lemma attn_head_no_key (qkv : list (list Z)) (n E D scale h : Z) (e : exn) :
  attn_head qkv n E D scale h = Err e -> e <> KeyError.
Proof.
  unfold attn_head. intros H.
  apply bind_err in H as [H | (Q & _ & H)]; [by apply extract_head_no_key in H|].
  apply bind_err in H as [H | (K & _ & H)]; [by apply extract_head_no_key in H|].
  apply bind_err in H as [H | (V & _ & H)]; [by apply extract_head_no_key in H|].
  revert H. apply (mapM_err_kind _ _ (fun e => e <> KeyError)). intros i e' _. apply attn_row_no_key.
Qed.

Variables (config : config_t) (weights : weights_t) (L : Z).
Hypothesis Hlayers : config !! "n_layer" = Some L.
Hypothesis Hconfig :
  Forall (fun key => is_Some (config !! key))
    ["block_size"; "n_embd"; "vocab_size"; "n_head"; "head_dim"; "hidden_dim"].
Hypothesis Hglobal :
  Forall (fun key => is_Some (weights !! key)) ["wte"; "wpe"; "ln_f_w"; "ln_f_b"].
Hypothesis Hper_layer : forall layer, 0 <= layer < L ->
  Forall (fun prefix => is_Some (weights !! fkey prefix layer))
    ["ln1_w_"; "ln1_b_"; "attn_w_"; "attn_b_"; "attn_proj_w_"; "attn_proj_b_";
     "ln2_w_"; "ln2_b_"; "ffn_fc1_w_"; "ffn_fc1_b_"; "ffn_fc2_w_"; "ffn_fc2_b_"].

Lemma lookup_key_present {V : Type} (d : gmap string V) (key : string) :
  is_Some (d !! key) -> exists v, lookup_key d key = Ok v.
Proof. intros [v Hv]. exists v. by apply lookup_key_ok. Qed.

Ltac use_key H :=
  let v := fresh "v" in let Hv := fresh "Hv" in
  destruct (lookup_key_present _ _ H) as [v Hv]; rewrite Hv; cbn [Py.bind]; clear Hv.

Lemma config_keys :
  is_Some (config !! "block_size") /\ is_Some (config !! "n_embd") /\
  is_Some (config !! "vocab_size") /\ is_Some (config !! "n_head") /\
  is_Some (config !! "head_dim") /\ is_Some (config !! "hidden_dim").
Proof.
  repeat (apply Forall_cons in Hconfig as [? Hconfig]). done.
Qed.

Lemma multi_head_attention_no_key (hidden : list (list Z)) (layer : Z) (e : exn) :
  0 <= layer < L ->
  multi_head_attention hidden layer config weights = Err e -> e <> KeyError.
Proof.
  intros Hl. destruct config_keys as (_ & HE & _ & HH & HD & _).
  pose proof (Hper_layer layer Hl) as Hk.
  apply Forall_cons in Hk as [_ Hk]. apply Forall_cons in Hk as [_ Hk].
  apply Forall_cons in Hk as [Kaw Hk]. apply Forall_cons in Hk as [Kab Hk].
  apply Forall_cons in Hk as [Kpw Hk]. apply Forall_cons in Hk as [Kpb _].
  unfold multi_head_attention.
  use_key HE. use_key HH. use_key HD. use_key Kaw. use_key Kab. use_key Kpw. use_key Kpb.
  intros H. apply bind_err in H as [H | (qkv & _ & H)].
  { revert H. apply (mapM_err_kind _ _ (fun e => e <> KeyError)). intros t e' _. apply linear_no_key.
    intros j e''. apply getitem2_err. }
  match type of H with
  | context [fp_sqrt ?a] =>
      destruct (fp_sqrt_ok a) as (scale & Hscale & _); rewrite Hscale in H
  end.
  cbn [Py.bind] in H.
  apply bind_err in H as [H | (aho & _ & H)].
  { revert H. apply (mapM_err_kind _ _ (fun e => e <> KeyError)). intros h e' _. apply attn_head_no_key. }
  apply bind_err in H as [H | (concat & _ & H)].
  { revert H. apply (mapM_err_kind _ _ (fun e => e <> KeyError)). intros t e' _. apply (foldM_err_kind _ _ _ (fun e => e <> KeyError)).
    intros row h e'' _ H. apply bind_err in H as [H | (ov & _ & H)]; [|discriminate].
    by apply getitem2_err in H. }
  revert H. apply (mapM_err_kind _ _ (fun e => e <> KeyError)). intros t e' _. apply linear_no_key.
  intros j e''. apply getitem2_err.
Qed.

Lemma feed_forward_no_key (hidden : list (list Z)) (layer : Z) (e : exn) :
  0 <= layer < L ->
  feed_forward hidden layer config weights = Err e -> e <> KeyError.
Proof.
  intros Hl. destruct config_keys as (_ & HE & _ & _ & _ & HHD).
  pose proof (Hper_layer layer Hl) as Hk.
  do 8 (apply Forall_cons in Hk as [_ Hk]).
  apply Forall_cons in Hk as [K1 Hk]. apply Forall_cons in Hk as [K2 Hk].
  apply Forall_cons in Hk as [K3 Hk]. apply Forall_cons in Hk as [K4 _].
  unfold feed_forward.
  use_key HE. use_key HHD. use_key K1. use_key K2. use_key K3. use_key K4.
  apply (mapM_err_kind _ _ (fun e => e <> KeyError)). intros t e' _ H.
  apply bind_err in H as [H | (mid & _ & H)].
  - revert H. apply (mapM_err_kind _ _ (fun e => e <> KeyError)). intros i e'' _ H.
    apply bind_err in H as [H | (s & _ & H)]; [|discriminate].
    revert H. apply dot_col_no_key. intros j e3. apply getitem2_err.
  - revert H. apply linear_no_key. intros j e'' H. apply getitem_err in H. by subst.
Qed.

Lemma residual_no_key (a b : list (list Z)) (n : Z) (e : exn) :
  residual a b n = Err e -> e <> KeyError.
Proof.
  unfold residual. apply (mapM_err_kind _ _ (fun e => e <> KeyError)). intros t e' _ H.
  apply bind_err in H as [H | (row & _ & H)]; [apply getitem_err in H; by subst|].
  revert H. apply (mapM_err_kind _ _ (fun e => e <> KeyError)). intros i e'' _ H.
  apply bind_err in H as [H | (x & _ & H)]; [by apply getitem2_err in H|].
  apply bind_err in H as [H | (y & _ & H)]; [by apply getitem2_err in H | discriminate].
Qed.

Lemma transformer_block_no_key (hidden : list (list Z)) (layer : Z) (e : exn) :
  0 <= layer < L ->
  transformer_block hidden layer config weights = Err e -> e <> KeyError.
Proof.
  intros Hl. pose proof (Hper_layer layer Hl) as Hk.
  apply Forall_cons in Hk as [K1 Hk]. apply Forall_cons in Hk as [K2 Hk].
  do 4 (apply Forall_cons in Hk as [_ Hk]).
  apply Forall_cons in Hk as [K3 Hk]. apply Forall_cons in Hk as [K4 _].
  unfold transformer_block. use_key K1. use_key K2. use_key K3. use_key K4.
  intros H. apply bind_err in H as [H | (n1 & _ & H)]; [by apply normed_no_key in H|].
  apply bind_err in H as [H | (att & _ & H)];
    [by apply multi_head_attention_no_key in H|].
  apply bind_err in H as [H | (r1 & _ & H)]; [by apply residual_no_key in H|].
  apply bind_err in H as [H | (n2 & _ & H)]; [by apply normed_no_key in H|].
  apply bind_err in H as [H | (ffn & _ & H)]; [by apply feed_forward_no_key in H|].
  by apply residual_no_key in H.
Qed.

Lemma forward_no_key (tokens : list Z) (e : exn) :
  forward tokens config weights = Err e -> e <> KeyError.
Proof.
  destruct config_keys as (HW & HE & HV & _).
  apply Forall_cons in Hglobal as [K1 Hk]. apply Forall_cons in Hk as [K2 Hk].
  apply Forall_cons in Hk as [K3 Hk]. apply Forall_cons in Hk as [K4 _].
  unfold forward, truncate. use_key HW.
  match goal with
  | |- context [if ?c then Ok ?a else Ok ?b] =>
      replace (if c then Ok a else Ok b) with (Ok (if c then a else b)) by (by destruct c)
  end.
  cbn [Py.bind]. use_key HE. use_key HV. rewrite (lookup_key_ok _ _ _ Hlayers). cbn [Py.bind].
  use_key K1. use_key K2. use_key K3. use_key K4.
  intros H. apply bind_err in H as [H | (emb & _ & H)].
  { apply embed_err in H. by subst. }
  apply bind_err in H as [H | (hid & _ & H)].
  { revert H. unfold blocks. apply (foldM_err_kind _ _ _ (fun e => e <> KeyError)). intros h layer e' Hin.
    apply in_range in Hin. by apply transformer_block_no_key. }
  apply bind_err in H as [H | (last_row & _ & H)]; [apply getitem_err in H; by subst|].
  apply bind_err in H as [H | (lh & _ & H)]; [by apply layer_norm_no_key in H|].
  revert H. unfold project. apply (mapM_err_kind _ _ (fun e => e <> KeyError)). intros t e' _ H.
  apply bind_err in H as [H | (terms & _ & H)]; [|discriminate].
  revert H. apply (mapM_err_kind _ _ (fun e => e <> KeyError)). intros i e'' _ H.
  apply bind_err in H as [H | (x & _ & H)]; [apply getitem_err in H; by subst|].
  apply bind_err in H as [H | (w & _ & H)]; [apply getitem_err in H; by subst | discriminate].
Qed.

End NoKeyError.

(** X21: the loader and the forward pass agree on their keys.  For a model
    that [load_model] returns and whose [config.txt] defines [vocab_size]
    and [block_size], the forward pass never raises KeyError, whatever the
    tokens and the contents of the weight files are. *)
Theorem loaded_model_no_key_error
    (strip : string -> string) (py_int : string -> option Z)
    (read_lines : list string -> option (list string))
    (config : config_t) (weights : weights_t) (tokens : list Z) :
  load_model strip py_int read_lines = Some (config, weights) ->
  is_Some (config !! "vocab_size") -> is_Some (config !! "block_size") ->
  forward tokens config weights <> Err KeyError.
Proof.
  intros Hrun HV HW Hfail.
  destruct (load_model_inv _ _ _ config weights Hrun) as (Hcfg & Hglobal & L & HL & Hlayers).
  destruct (load_config_inv _ _ _ config Hcfg)
    as (lines & parsed & E & H & _ & _ & _ & _ & _ & HE & HH & HD & HHD & _).
  apply (forward_no_key config weights L HL) in Hfail; [done| |done|done].
  repeat constructor; eauto.
Qed.

Lemma loaded_model_no_key_error_witness :
  exists (config : config_t) (weights : weights_t),
    load_model Demo.dir_strip Demo.dir_int Demo.dir_lines = Some (config, weights) /\
    forward [0; 1] config weights <> Err KeyError.
Proof.
  assert (match load_model Demo.dir_strip Demo.dir_int Demo.dir_lines with
          | Some (c, _) => c !! "vocab_size" | None => None end = Some 2) as HV
    by (vm_compute; reflexivity).
  assert (match load_model Demo.dir_strip Demo.dir_int Demo.dir_lines with
          | Some (c, _) => c !! "block_size" | None => None end = Some 2) as HW
    by (vm_compute; reflexivity).
  destruct (load_model Demo.dir_strip Demo.dir_int Demo.dir_lines) as [[config weights]|] eqn:Hrun;
    [|discriminate HV].
  exists config, weights. split; [reflexivity|].
  apply (loaded_model_no_key_error _ _ _ config weights [0; 1] Hrun); eauto.
Defined.
